(** * Dynamic resource allocation: allocation engine and event handlers

    A shallow embedding of [models.py], [allocation_engine.py] and
    [event_handler.py], and the properties of the allocation algorithm and of
    the event-driven reallocation loop.

    Conventions of the embedding.
    - Python [float] quantities (material quantities, costs, scores) are
      exact rationals [Q]; Python [int] values are [Z].
    - A Python [dict] of records is the list of its values in insertion
      order; the key of an entry is its identifier field, as [main.py]
      stores them ([engine.operators[op.operator_id] = op]).  A dict has
      one entry per key, so the lists that represent a dict have distinct
      identifiers ([wf_catalog]).
    - [datetime.now()] is the next reading of a wall clock [clock]; the
      engine counts the readings taken so far ([now_calls]).
    - An uncaught [KeyError] ends a call with the store as the exception
      left it ([Raised]).
    - Console output is not part of the state and is left out. *)

From Stdlib Require Import List String ZArith QArith Qminmax Lqa Lia Bool.
From Stdlib Require Import Permutation Sorted.
Import ListNotations.

Local Open Scope string_scope.
Local Open Scope list_scope.

(** ** Data model ([models.py])

    The records keep the fields that the engine and the handlers read or
    write; names, shifts, maintenance schedules, units, reorder points and
    unit costs are only stored and are left out.  [current_status],
    [current_work_order] and [location] occur in several classes and carry
    the prefix of their record here. *)

Inductive OperatorStatus := AVAILABLE | ASSIGNED | BREAK | UNAVAILABLE.
Inductive MachineStatus := IDLE | RUNNING | MAINTENANCE | BREAKDOWN.
Inductive WorkOrderStatus := PENDING | IN_PROGRESS | COMPLETED | BLOCKED.

Definition OperatorStatus_eqb (a b : OperatorStatus) : bool :=
  match a, b with
  | AVAILABLE, AVAILABLE | ASSIGNED, ASSIGNED
  | BREAK, BREAK | UNAVAILABLE, UNAVAILABLE => true
  | _, _ => false
  end.

Definition MachineStatus_eqb (a b : MachineStatus) : bool :=
  match a, b with
  | IDLE, IDLE | RUNNING, RUNNING
  | MAINTENANCE, MAINTENANCE | BREAKDOWN, BREAKDOWN => true
  | _, _ => false
  end.

Definition WorkOrderStatus_eqb (a b : WorkOrderStatus) : bool :=
  match a, b with
  | PENDING, PENDING | IN_PROGRESS, IN_PROGRESS
  | COMPLETED, COMPLETED | BLOCKED, BLOCKED => true
  | _, _ => false
  end.

Record Operator := mkOperator {
  operator_id : string;
  skills : list string;
  skill_levels : list (string * Z);
  op_current_status : OperatorStatus;
  op_current_work_order : option string;
  op_location : string;
  hourly_cost : Q
}.

Record Machine := mkMachine {
  machine_id : string;
  capabilities : list string;
  m_current_status : MachineStatus;
  m_current_work_order : option string;
  m_location : string;
  cycle_time : Z;
  last_maintenance : option Z;
  operating_cost_per_hour : Q
}.

Record MaterialRequirement := mkReq {
  req_material_id : string;
  quantity : Q
}.

Record Material := mkMaterial {
  material_id : string;
  quantity_available : Q;
  quantity_reserved : Q
}.

Record WorkOrder := mkWorkOrder {
  work_order_id : string;
  priority : Z;
  required_skills : list string;
  required_machine_capability : string;
  required_materials : list MaterialRequirement;
  estimated_duration : Z;
  deadline : Z;
  status : WorkOrderStatus;
  assigned_operator : option string;
  assigned_machine : option string;
  start_time : option Z;
  completion_time : option Z;
  wo_location : string;
  progress : Q
}.

(** The engine's attributes ([AllocationEngine.__init__]) and the count of
    clock readings. *)
Record Engine := mkEngine {
  operators : list Operator;
  machines : list Machine;
  materials : list Material;
  work_orders : list WorkOrder;
  last_reallocation_time : list (string * Z);
  now_calls : nat
}.

(** ** Dictionaries and Python truth values *)

Section Dict.
Context {A : Type} (key : A -> string).

(** [d.get(k)]: the entry stored under [k], if any. *)
Fixpoint dict_get (k : string) (d : list A) : option A :=
  match d with
  | [] => None
  | x :: r => if String.eqb (key x) k then Some x else dict_get k r
  end.

(** Assignment to attributes of the object stored under [k]. *)
Fixpoint dict_update (k : string) (f : A -> A) (d : list A) : list A :=
  match d with
  | [] => []
  | x :: r =>
      if String.eqb (key x) k then f x :: r else x :: dict_update k f r
  end.
End Dict.

(** [d[k] = v] on a dict from strings to values. *)
Fixpoint dict_set {V : Type} (k : string) (v : V) (d : list (string * V))
  : list (string * V) :=
  match d with
  | [] => [(k, v)]
  | (k', v') :: r =>
      if String.eqb k' k then (k, v) :: r else (k', v') :: dict_set k v r
  end.

(** [d.get(k, default)] on a dict from strings to values. *)
Definition dict_get_default {V : Type} (k : string) (default : V)
  (d : list (string * V)) : V :=
  match dict_get fst k d with
  | Some (_, v) => v
  | None => default
  end.

(** [x in l] for a list of strings. *)
Definition str_in (x : string) (l : list string) : bool :=
  existsb (String.eqb x) l.

(** Truth value of an [Optional[str]]: [None] and the empty string are
    false. *)
Definition truthy_id (o : option string) : option string :=
  match o with
  | Some s => if String.eqb s "" then None else Some s
  | None => None
  end.

Definition truthy (o : option string) : bool :=
  match truthy_id o with
  | Some _ => true
  | None => false
  end.

(** [a < b] on rationals, as a boolean. *)
Definition Qlt_bool (a b : Q) : bool := negb (Qle_bool b a).

(** Outcome of a call that may raise [KeyError]. *)
Inductive outcome (A : Type) :=
| Returned (a : A) (s : Engine)
| Raised (k : string) (s : Engine).
Arguments Returned {A} a s.
Arguments Raised {A} k s.

Definition bind {A B : Type} (c : outcome A) (f : A -> Engine -> outcome B)
  : outcome B :=
  match c with
  | Returned a s => f a s
  | Raised k s => Raised k s
  end.

Definition final_state {A : Type} (c : outcome A) : Engine :=
  match c with
  | Returned _ s => s
  | Raised _ s => s
  end.

(** ** Attribute assignments *)

Definition set_op_assignment (st : OperatorStatus) (w : option string)
  (o : Operator) : Operator :=
  mkOperator (operator_id o) (skills o) (skill_levels o) st w
    (op_location o) (hourly_cost o).

Definition set_m_assignment (st : MachineStatus) (w : option string)
  (m : Machine) : Machine :=
  mkMachine (machine_id m) (capabilities m) st w (m_location m)
    (cycle_time m) (last_maintenance m) (operating_cost_per_hour m).

Definition set_m_status (st : MachineStatus) (m : Machine) : Machine :=
  set_m_assignment st (m_current_work_order m) m.

Definition set_m_maintenance (t : Z) (m : Machine) : Machine :=
  mkMachine (machine_id m) (capabilities m) MAINTENANCE
    (m_current_work_order m) (m_location m) (cycle_time m) (Some t)
    (operating_cost_per_hour m).

Definition set_reserved (r : Q) (m : Material) : Material :=
  mkMaterial (material_id m) (quantity_available m) r.

Definition set_quantities (a r : Q) (m : Material) : Material :=
  mkMaterial (material_id m) a r.

Definition set_status (st : WorkOrderStatus) (w : WorkOrder) : WorkOrder :=
  mkWorkOrder (work_order_id w) (priority w) (required_skills w)
    (required_machine_capability w) (required_materials w)
    (estimated_duration w) (deadline w) st (assigned_operator w)
    (assigned_machine w) (start_time w) (completion_time w) (wo_location w)
    (progress w).

(** [assigned_machine = None; status = BLOCKED] (machine breakdown). *)
Definition set_unassign_machine (w : WorkOrder) : WorkOrder :=
  mkWorkOrder (work_order_id w) (priority w) (required_skills w)
    (required_machine_capability w) (required_materials w)
    (estimated_duration w) (deadline w) BLOCKED (assigned_operator w)
    None (start_time w) (completion_time w) (wo_location w) (progress w).

(** The assignments of the commit: operator, machine, [IN_PROGRESS] and
    the start time. *)
Definition set_allocated (o m : string) (t : Z) (w : WorkOrder) : WorkOrder :=
  mkWorkOrder (work_order_id w) (priority w) (required_skills w)
    (required_machine_capability w) (required_materials w)
    (estimated_duration w) (deadline w) IN_PROGRESS (Some o) (Some m)
    (Some t) (completion_time w) (wo_location w) (progress w).

(** [status = COMPLETED; completion_time = now; progress = 100.0]. *)
Definition set_completed (t : Z) (w : WorkOrder) : WorkOrder :=
  mkWorkOrder (work_order_id w) (priority w) (required_skills w)
    (required_machine_capability w) (required_materials w)
    (estimated_duration w) (deadline w) COMPLETED (assigned_operator w)
    (assigned_machine w) (start_time w) (Some t) (wo_location w) 100.

Definition with_operators (s : Engine) (x : list Operator) : Engine :=
  mkEngine x (machines s) (materials s) (work_orders s)
    (last_reallocation_time s) (now_calls s).

Definition with_machines (s : Engine) (x : list Machine) : Engine :=
  mkEngine (operators s) x (materials s) (work_orders s)
    (last_reallocation_time s) (now_calls s).

Definition with_materials (s : Engine) (x : list Material) : Engine :=
  mkEngine (operators s) (machines s) x (work_orders s)
    (last_reallocation_time s) (now_calls s).

Definition with_work_orders (s : Engine) (x : list WorkOrder) : Engine :=
  mkEngine (operators s) (machines s) (materials s) x
    (last_reallocation_time s) (now_calls s).

Definition update_operator (k : string) (f : Operator -> Operator)
  (s : Engine) : Engine :=
  with_operators s (dict_update operator_id k f (operators s)).

Definition update_machine (k : string) (f : Machine -> Machine)
  (s : Engine) : Engine :=
  with_machines s (dict_update machine_id k f (machines s)).

Definition update_material (k : string) (f : Material -> Material)
  (s : Engine) : Engine :=
  with_materials s (dict_update material_id k f (materials s)).

Definition update_work_order (k : string) (f : WorkOrder -> WorkOrder)
  (s : Engine) : Engine :=
  with_work_orders s (dict_update work_order_id k f (work_orders s)).

(** ** Allocation engine ([allocation_engine.py]) *)

Local Open Scope Q_scope.

(** [calculate_distance]: same location 0, otherwise the fixed distance. *)
Definition calculate_distance (location1 location2 : string) : Q :=
  if String.eqb location1 location2 then 0 else 10.

Definition sumZ (l : list Z) : Z := fold_right Z.add 0%Z l.

Definition skill_match_quality (w : WorkOrder) (o : Operator) : Q :=
  let levels :=
    map (fun skill => dict_get_default skill 0%Z (skill_levels o))
      (required_skills w) in
  match levels with
  | [] => 0
  | _ => inject_Z (sumZ levels) / inject_Z (Z.of_nat (List.length levels)) / 5
  end.

Definition proximity_factor (w : WorkOrder) (o : Operator) (m : Machine) : Q :=
  let max_distance := 100 in
  let operator_machine_distance :=
    calculate_distance (op_location o) (m_location m) in
  let machine_wo_distance :=
    calculate_distance (m_location m) (wo_location w) in
  let avg_distance := (operator_machine_distance + machine_wo_distance) / 2 in
  1 - Qmin (avg_distance / max_distance) 1.

Definition machine_efficiency (m : Machine) : Q :=
  let max_cycle_time := 120 in
  let e :=
    if Z.eqb (cycle_time m) 0 then 1 # 2
    else 1 - inject_Z (cycle_time m) / max_cycle_time in
  Qmax 0 (Qmin e 1).

Definition cost_optimization (o : Operator) (m : Machine) : Q :=
  let max_cost := 100 in
  let total_cost := hourly_cost o + operating_cost_per_hour m in
  1 - Qmin (total_cost / max_cost) 1.

Definition calculate_allocation_score (w : WorkOrder) (o : Operator)
  (m : Machine) : Q :=
  (4 # 10) * skill_match_quality w o +
  (3 # 10) * proximity_factor w o m +
  (2 # 10) * machine_efficiency m +
  (1 # 10) * cost_optimization o m.

(** The reason returned with the verdict of [check_hard_constraints]. *)
Inductive Reason :=
| OperatorMissingSkill (skill : string)
| MachineLacksCapability
| MaterialNotFound (mid : string)
| InsufficientMaterial (mid : string) (need have : Q)
| OperatorNotAvailable (st : OperatorStatus)
| MachineNotIdle (st : MachineStatus)
| AllConstraintsSatisfied.

(** The loop over the required skills: the first one the operator lacks. *)
Fixpoint missing_skill (required : list string) (o : Operator)
  : option string :=
  match required with
  | [] => None
  | skill :: r =>
      if str_in skill (skills o) then missing_skill r o else Some skill
  end.

(** The loop over the required materials: the first failure, if any. *)
Fixpoint material_failure (mats : list Material)
  (reqs : list MaterialRequirement) : option Reason :=
  match reqs with
  | [] => None
  | mat_req :: r =>
      match dict_get material_id (req_material_id mat_req) mats with
      | None => Some (MaterialNotFound (req_material_id mat_req))
      | Some material =>
          let available :=
            quantity_available material - quantity_reserved material in
          if Qlt_bool available (quantity mat_req)
          then Some (InsufficientMaterial (req_material_id mat_req)
                       (quantity mat_req) available)
          else material_failure mats r
      end
  end.

Definition check_hard_constraints (s : Engine) (w : WorkOrder) (o : Operator)
  (m : Machine) : bool * Reason :=
  match missing_skill (required_skills w) o with
  | Some skill => (false, OperatorMissingSkill skill)
  | None =>
      if negb (str_in (required_machine_capability w) (capabilities m))
      then (false, MachineLacksCapability)
      else
        match material_failure (materials s) (required_materials w) with
        | Some r => (false, r)
        | None =>
            if negb (OperatorStatus_eqb (op_current_status o) AVAILABLE)
            then (false, OperatorNotAvailable (op_current_status o))
            else if negb (MachineStatus_eqb (m_current_status m) IDLE)
            then (false, MachineNotIdle (m_current_status m))
            else (true, AllConstraintsSatisfied)
        end
  end.

(** *** Prioritization

    [sort_values(by=['priority','deadline','duration'],
    ascending=[False,True,True])]: pandas sorts on several keys with a
    lexicographic sort that keeps rows with equal keys in their order
    (it sorts integer codes of the keys with a stable sort).  [wo_before a b]
    is the strict order of the keys; [sort_values] is a stable insertion
    sort on it. *)
Definition wo_before (a b : WorkOrder) : bool :=
  (Z.ltb (priority b) (priority a))
  || (Z.eqb (priority a) (priority b)
      && (Z.ltb (deadline a) (deadline b)
          || (Z.eqb (deadline a) (deadline b)
              && Z.ltb (estimated_duration a) (estimated_duration b)))).

Fixpoint sort_insert (x : WorkOrder) (l : list WorkOrder) : list WorkOrder :=
  match l with
  | [] => [x]
  | y :: r => if wo_before y x then y :: sort_insert x r else x :: y :: r
  end.

Definition sort_values (l : list WorkOrder) : list WorkOrder :=
  fold_right sort_insert [] l.

Definition is_pending (w : WorkOrder) : bool :=
  WorkOrderStatus_eqb (status w) PENDING.

Definition prioritize_work_orders (s : Engine) : list WorkOrder :=
  let pending_orders := filter is_pending (work_orders s) in
  match pending_orders with
  | [] => []
  | _ => sort_values pending_orders
  end.

(** *** Best-match search *)

Definition is_available (o : Operator) : bool :=
  OperatorStatus_eqb (op_current_status o) AVAILABLE.

Definition is_idle (m : Machine) : bool :=
  MachineStatus_eqb (m_current_status m) IDLE.

Definition allocation := (Operator * Machine * Q)%type.

(** The body of the inner loop, on [(best_score, best_allocation)]. *)
Definition consider (s : Engine) (w : WorkOrder)
  (best : Q * option allocation) (o : Operator) (m : Machine)
  : Q * option allocation :=
  if fst (check_hard_constraints s w o m) then
    let score := calculate_allocation_score w o m in
    if Qlt_bool (fst best) score then (score, Some (o, m, score)) else best
  else best.

Definition find_best_allocation (s : Engine) (w : WorkOrder)
  : option allocation :=
  let available_operators := filter is_available (operators s) in
  let idle_machines := filter is_idle (machines s) in
  snd (fold_left
         (fun best o =>
            fold_left (fun best m => consider s w best o m) idle_machines best)
         available_operators
         (- (1), None)).

(** *** Commit *)

Section Clock.
Variable clock : nat -> Z.

(** [datetime.now()]. *)
Definition now (s : Engine) : Z * Engine :=
  (clock (now_calls s),
   mkEngine (operators s) (machines s) (materials s) (work_orders s)
     (last_reallocation_time s) (S (now_calls s))).

(** The loop "Reserve materials" of [allocate_resources]. *)
Fixpoint reserve_materials (reqs : list MaterialRequirement) (s : Engine)
  : outcome unit :=
  match reqs with
  | [] => Returned tt s
  | mat_req :: r =>
      match dict_get material_id (req_material_id mat_req) (materials s) with
      | None => Raised (req_material_id mat_req) s
      | Some material =>
          reserve_materials r
            (update_material (req_material_id mat_req)
               (fun m => set_reserved (quantity_reserved m + quantity mat_req) m)
               s)
      end
  end.

Definition allocate_resources (wid : string) (s : Engine) : outcome bool :=
  match dict_get work_order_id wid (work_orders s) with
  | None => Returned false s
  | Some work_order =>
      match find_best_allocation s work_order with
      | None => Returned false (update_work_order wid (set_status BLOCKED) s)
      | Some (operator, machine, score) =>
          bind (reserve_materials (required_materials work_order) s)
            (fun _ s1 =>
               let (t1, s2) := now s1 in
               let s3 :=
                 update_work_order wid
                   (set_allocated (operator_id operator)
                      (machine_id machine) t1) s2 in
               let s4 :=
                 update_operator (operator_id operator)
                   (set_op_assignment ASSIGNED (Some wid)) s3 in
               let s5 :=
                 update_machine (machine_id machine)
                   (set_m_assignment RUNNING (Some wid)) s4 in
               let (t2, s6) := now s5 in
               Returned true
                 (mkEngine (operators s6) (machines s6) (materials s6)
                    (work_orders s6)
                    (dict_set wid t2 (last_reallocation_time s6))
                    (now_calls s6)))
      end
  end.

(** Counts returned by [process_allocations]. *)
Record Stats := mkStats { allocated : nat; blocked : nat; total : nat }.

(** The loop of [process_allocations] over the prioritized orders. *)
Fixpoint allocate_all (ids : list string) (res : Stats) (s : Engine)
  : outcome Stats :=
  match ids with
  | [] => Returned res s
  | wid :: r =>
      bind (allocate_resources wid s)
        (fun ok s' =>
           allocate_all r
             (if ok
              then mkStats (S (allocated res)) (blocked res) (total res)
              else mkStats (allocated res) (S (blocked res)) (total res))
             s')
  end.

Definition process_allocations (s : Engine) : outcome Stats :=
  let prioritized_orders := prioritize_work_orders s in
  allocate_all (map work_order_id prioritized_orders)
    (mkStats 0 0 (List.length prioritized_orders)) s.

(** ** Event handlers ([event_handler.py]) *)

(** [operator = self.engine.operators[k]], then status [AVAILABLE] and
    no current work order. *)
Definition release_operator (k : string) (s : Engine) : outcome unit :=
  match dict_get operator_id k (operators s) with
  | None => Raised k s
  | Some _ =>
      Returned tt (update_operator k (set_op_assignment AVAILABLE None) s)
  end.

(** [machine = self.engine.machines[k]], then status [IDLE] and no
    current work order. *)
Definition release_machine (k : string) (s : Engine) : outcome unit :=
  match dict_get machine_id k (machines s) with
  | None => Raised k s
  | Some _ =>
      Returned tt (update_machine k (set_m_assignment IDLE None) s)
  end.

Definition discard {A : Type} (c : outcome A) : outcome unit :=
  bind c (fun _ s => Returned tt s).

Definition handle_machine_breakdown (mid : string) (s : Engine)
  : outcome unit :=
  match dict_get machine_id mid (machines s) with
  | None => Returned tt s
  | Some machine =>
      let s1 := update_machine mid (set_m_status BREAKDOWN) s in
      match truthy_id (m_current_work_order machine) with
      | None => Returned tt s1
      | Some wid =>
          match dict_get work_order_id wid (work_orders s1) with
          | None => Raised wid s1
          | Some work_order =>
              let operator_id' := assigned_operator work_order in
              let s2 := update_work_order wid set_unassign_machine s1 in
              match find_best_allocation s2
                      (set_unassign_machine work_order) with
              | Some (new_operator, new_machine, score) =>
                  bind
                    (match truthy_id operator_id' with
                     | Some oid =>
                         if negb (String.eqb oid (operator_id new_operator))
                         then release_operator oid s2
                         else Returned tt s2
                     | None => Returned tt s2
                     end)
                    (fun _ s3 =>
                       discard
                         (allocate_resources (work_order_id work_order) s3))
              | None =>
                  match truthy_id operator_id' with
                  | Some oid =>
                      bind (release_operator oid s2)
                        (fun _ s3 => discard (process_allocations s3))
                  | None => Returned tt s2
                  end
              end
          end
      end
  end.

Definition handle_machine_maintenance (mid : string) (duration_minutes : Z)
  (s : Engine) : outcome unit :=
  match dict_get machine_id mid (machines s) with
  | None => Returned tt s
  | Some _ =>
      let (t, s1) := now s in
      Returned tt (update_machine mid (set_m_maintenance t) s1)
  end.

Definition handle_operator_available (oid : string) (s : Engine)
  : outcome unit :=
  match dict_get operator_id oid (operators s) with
  | None => Returned tt s
  | Some _ =>
      let s1 := update_operator oid (set_op_assignment AVAILABLE None) s in
      let pending_count :=
        List.length (filter is_pending (work_orders s1)) in
      if Nat.ltb 0 pending_count
      then discard (process_allocations s1)
      else Returned tt s1
  end.

(** The loop "Release materials" of [handle_work_order_completion]. *)
Fixpoint release_materials (reqs : list MaterialRequirement) (s : Engine)
  : outcome unit :=
  match reqs with
  | [] => Returned tt s
  | mat_req :: r =>
      match dict_get material_id (req_material_id mat_req) (materials s) with
      | None => Raised (req_material_id mat_req) s
      | Some _ =>
          release_materials r
            (update_material (req_material_id mat_req)
               (fun m =>
                  set_quantities (quantity_available m - quantity mat_req)
                    (quantity_reserved m - quantity mat_req) m)
               s)
      end
  end.

(** [work_order.assigned_operator] and [work_order.assigned_machine], read
    from the object stored under [wid] (the object stays in the store, so
    the lookup finds it). *)
Definition assigned_operator_of (wid : string) (s : Engine)
  : option string :=
  match dict_get work_order_id wid (work_orders s) with
  | Some w => assigned_operator w
  | None => None
  end.

Definition assigned_machine_of (wid : string) (s : Engine)
  : option string :=
  match dict_get work_order_id wid (work_orders s) with
  | Some w => assigned_machine w
  | None => None
  end.

(** First part of [handle_work_order_completion]: the work order is marked
    completed and its materials are consumed.  (The efficiency figures
    computed in between are only printed.) *)
Definition complete_and_release (wid : string) (work_order : WorkOrder)
  (s : Engine) : outcome unit :=
  let (t, s1) := now s in
  let s2 := update_work_order wid (set_completed t) s1 in
  release_materials (required_materials work_order) s2.

(** Second part: "Free resources". *)
Definition free_resources (wid : string) (s : Engine) : outcome unit :=
  bind
    (match truthy_id (assigned_operator_of wid s) with
     | Some oid => handle_operator_available oid s
     | None => Returned tt s
     end)
    (fun _ s' =>
       match truthy_id (assigned_machine_of wid s') with
       | Some mid => release_machine mid s'
       | None => Returned tt s'
       end).

Definition handle_work_order_completion (wid : string) (s : Engine)
  : outcome unit :=
  match dict_get work_order_id wid (work_orders s) with
  | None => Returned tt s
  | Some work_order =>
      bind (complete_and_release wid work_order s)
        (fun _ s' => free_resources wid s')
  end.

Definition requires (mid : string) (w : WorkOrder) : bool :=
  existsb (fun mat_req => String.eqb (req_material_id mat_req) mid)
    (required_materials w).

(** The loop "Block affected work orders and free resources". *)
Fixpoint block_affected (affected_orders : list WorkOrder) (s : Engine)
  : outcome unit :=
  match affected_orders with
  | [] => Returned tt s
  | wo :: r =>
      if WorkOrderStatus_eqb (status wo) IN_PROGRESS then
        let s1 :=
          update_work_order (work_order_id wo) (set_status BLOCKED) s in
        bind
          (match truthy_id (assigned_operator wo) with
           | Some oid => release_operator oid s1
           | None => Returned tt s1
           end)
          (fun _ s2 =>
             bind
               (match truthy_id (assigned_machine wo) with
                | Some mid => release_machine mid s2
                | None => Returned tt s2
                end)
               (fun _ s3 => block_affected r s3))
      else block_affected r s
  end.

Definition handle_material_shortage (mid : string) (s : Engine)
  : outcome unit :=
  match dict_get material_id mid (materials s) with
  | None => Returned tt s
  | Some _ => block_affected (filter (requires mid) (work_orders s)) s
  end.

Definition to_unblock (mid : string) (w : WorkOrder) : bool :=
  WorkOrderStatus_eqb (status w) BLOCKED && requires mid w.

Definition handle_material_delivered (mid : string) (qty : Q) (s : Engine)
  : outcome unit :=
  match dict_get material_id mid (materials s) with
  | None => Returned tt s
  | Some _ =>
      let s1 :=
        update_material mid
          (fun m =>
             set_quantities (quantity_available m + qty)
               (quantity_reserved m) m)
          s in
      let unblocked :=
        List.length (filter (to_unblock mid) (work_orders s1)) in
      let s2 :=
        with_work_orders s1
          (map (fun w => if to_unblock mid w then set_status PENDING w else w)
             (work_orders s1)) in
      if Nat.ltb 0 unblocked
      then discard (process_allocations s2)
      else Returned tt s2
  end.

(** The events of [process_events], by type tag and payload. *)
Inductive Event :=
| machine_breakdown (mid : string)
| machine_maintenance (mid : string) (duration_minutes : Z)
| operator_available (oid : string)
| work_order_complete (wid : string)
| material_shortage (mid : string)
| material_delivered (mid : string) (qty : Q)
| unknown_event (event_type : string).

(** The dispatch of [process_events] on one event. *)
Definition handle_event (e : Event) (s : Engine) : outcome unit :=
  match e with
  | machine_breakdown mid => handle_machine_breakdown mid s
  | machine_maintenance mid d => handle_machine_maintenance mid d s
  | operator_available oid => handle_operator_available oid s
  | work_order_complete wid => handle_work_order_completion wid s
  | material_shortage mid => handle_material_shortage mid s
  | material_delivered mid qty => handle_material_delivered mid qty s
  | unknown_event _ => Returned tt s
  end.

(** [process_events], on the events in the order in which the queue yields
    them (lowest priority value first): an exception raised by a handler is
    not caught, it ends the loop and the run. *)
Fixpoint process_events (queue : list Event) (s : Engine) : outcome unit :=
  match queue with
  | [] => Returned tt s
  | event :: rest =>
      bind (handle_event event s) (fun _ s' => process_events rest s')
  end.

End Clock.

(** ** The hard constraints, as the four checks of the design *)

Definition has_all_skills (w : WorkOrder) (o : Operator) : bool :=
  forallb (fun skill => str_in skill (skills o)) (required_skills w).

Definition has_capability (w : WorkOrder) (m : Machine) : bool :=
  str_in (required_machine_capability w) (capabilities m).

(** The material exists and [quantity_available - quantity_reserved] covers
    the required quantity. *)
Definition req_available (mats : list Material) (r : MaterialRequirement)
  : bool :=
  match dict_get material_id (req_material_id r) mats with
  | Some material =>
      Qle_bool (quantity r)
        (quantity_available material - quantity_reserved material)
  | None => false
  end.

Definition materials_available (s : Engine) (w : WorkOrder) : bool :=
  forallb (req_available (materials s)) (required_materials w).

Definition resources_free (o : Operator) (m : Machine) : bool :=
  is_available o && is_idle m.




(** ** The levels read by the scorer *)

Definition level_of (o : Operator) (skill : string) : Z :=
  dict_get_default skill 0%Z (skill_levels o).

(** The levels the score reads lie in the range 0..5 of the data model. *)
Definition levels_in_range (w : WorkOrder) (o : Operator) : Prop :=
  forall skill, In skill (required_skills w) ->
    (0 <= level_of o skill <= 5)%Z.


(** ** The order of the prioritized list *)

(** The sort keys of two work orders are the same. *)
Definition same_keys (a b : WorkOrder) : bool :=
  Z.eqb (priority a) (priority b) && Z.eqb (deadline a) (deadline b)
  && Z.eqb (estimated_duration a) (estimated_duration b).

(** [a] may stand before [b]: higher priority first, then the earlier
    deadline, then the shorter duration. *)
Definition in_order (a b : WorkOrder) : Prop :=
  (priority a > priority b)%Z \/
  (priority a = priority b /\
   ((deadline a < deadline b)%Z \/
    (deadline a = deadline b /\
     (estimated_duration a <= estimated_duration b)%Z))).


(** ** The candidates of the search *)

(** The pairs the search scores: the cross-product of the AVAILABLE
    operators and the IDLE machines, in iteration order (operators outer,
    machines inner), without the pairs that fail the hard constraints. *)
Definition candidates (s : Engine) (w : WorkOrder)
  : list (Operator * Machine) :=
  filter (fun p => fst (check_hard_constraints s w (fst p) (snd p)))
    (list_prod (filter is_available (operators s))
       (filter is_idle (machines s))).

Definition score_of (w : WorkOrder) (p : Operator * Machine) : Q :=
  calculate_allocation_score w (fst p) (snd p).

(** [p] is the first pair of [l] with the highest score. *)
Definition first_best (w : WorkOrder) (l : list (Operator * Machine))
  (p : Operator * Machine) : Prop :=
  exists before after,
    l = before ++ p :: after /\
    (forall q, In q before -> score_of w q < score_of w p) /\
    (forall q, In q after -> score_of w q <= score_of w p).

Definition consider_pair (s : Engine) (w : WorkOrder)
  (best : Q * option allocation) (p : Operator * Machine) :=
  consider s w best (fst p) (snd p).

(** One step of the search on a pair that passed the constraints. *)
Definition keep_better (w : WorkOrder) (best : Q * option allocation)
  (p : Operator * Machine) : Q * option allocation :=
  if Qlt_bool (fst best) (score_of w p)
  then (score_of w p, Some (fst p, snd p, score_of w p))
  else best.


(** ** The effect of the commit *)

(** The quantity a requirement list asks of the material [k]. *)
Definition required_total (k : string) (reqs : list MaterialRequirement) : Q :=
  fold_right
    (fun r acc =>
       if String.eqb (req_material_id r) k then quantity r + acc else acc)
    0 reqs.

(** The materials of [s'] are those of [s] with [quantity_reserved] changed
    by [delta] and [quantity_available] by [delta'], per identifier. *)
Definition materials_shifted (delta delta' : string -> Q) (s s' : Engine)
  : Prop :=
  map material_id (materials s') = map material_id (materials s) /\
  forall k mat, dict_get material_id k (materials s) = Some mat ->
    exists mat',
      dict_get material_id k (materials s') = Some mat' /\
      quantity_reserved mat' == quantity_reserved mat + delta k /\
      quantity_available mat' == quantity_available mat + delta' k.

(** The two stores hold the same identifiers, in the same order. *)
Definition same_ids (s s' : Engine) : Prop :=
  map operator_id (operators s') = map operator_id (operators s) /\
  map machine_id (machines s') = map machine_id (machines s) /\
  map material_id (materials s') = map material_id (materials s) /\
  map work_order_id (work_orders s') = map work_order_id (work_orders s).

(** What a successful [allocate_resources wid] leaves, from the store [s],
    for the work order [w] stored under [wid] and the chosen pair. *)
Definition commit_effect (clock : nat -> Z) (wid : string) (w : WorkOrder)
  (o : Operator) (m : Machine) (s s' : Engine) : Prop :=
  materials_shifted
    (fun k => required_total k (required_materials w)) (fun _ => 0) s s' /\
  dict_get work_order_id wid (work_orders s') =
    Some (set_allocated (operator_id o) (machine_id m)
            (clock (now_calls s)) w) /\
  (forall k, k <> wid ->
     dict_get work_order_id k (work_orders s') =
     dict_get work_order_id k (work_orders s)) /\
  (exists o0,
     dict_get operator_id (operator_id o) (operators s) = Some o0 /\
     (NoDup (map operator_id (operators s)) -> o0 = o) /\
     dict_get operator_id (operator_id o) (operators s') =
       Some (set_op_assignment ASSIGNED (Some wid) o0)) /\
  (forall k, k <> operator_id o ->
     dict_get operator_id k (operators s') =
     dict_get operator_id k (operators s)) /\
  (exists m0,
     dict_get machine_id (machine_id m) (machines s) = Some m0 /\
     (NoDup (map machine_id (machines s)) -> m0 = m) /\
     dict_get machine_id (machine_id m) (machines s') =
       Some (set_m_assignment RUNNING (Some wid) m0)) /\
  (forall k, k <> machine_id m ->
     dict_get machine_id k (machines s') =
     dict_get machine_id k (machines s)) /\
  dict_get fst wid (last_reallocation_time s') =
    Some (wid, clock (S (now_calls s))) /\
  now_calls s' = S (S (now_calls s)) /\
  same_ids s s'.

(** What a failed [allocate_resources wid] leaves: the work order is
    BLOCKED and nothing else has changed. *)
Definition blocked_effect (wid : string) (w : WorkOrder) (s s' : Engine)
  : Prop :=
  materials s' = materials s /\ operators s' = operators s /\
  machines s' = machines s /\
  last_reallocation_time s' = last_reallocation_time s /\
  now_calls s' = now_calls s /\
  dict_get work_order_id wid (work_orders s') = Some (set_status BLOCKED w) /\
  (forall k, k <> wid ->
     dict_get work_order_id k (work_orders s') =
     dict_get work_order_id k (work_orders s)).


(** ** Stores at the end of a call *)

(** [P] holds in the store a call ends with, returned or raised. *)
Definition post {A : Type} (P : Engine -> Prop) (c : outcome A) : Prop :=
  P (final_state c).


(** ** Reservations, operations and reachable stores *)

(** No material is reserved beyond its available quantity. *)
Definition reserved_within_available (s : Engine) : Prop :=
  forall k mat, dict_get material_id k (materials s) = Some mat ->
    quantity_reserved mat <= quantity_available mat.







(** The operations that change the store: the two allocation entry points
    of the engine and the event handlers. *)
Inductive operation :=
| run_allocate_resources (wid : string)
| run_process_allocations
| run_event (e : Event).

Definition run (clock : nat -> Z) (a : operation) (s : Engine) : Engine :=
  match a with
  | run_allocate_resources wid => final_state (allocate_resources clock wid s)
  | run_process_allocations => final_state (process_allocations clock s)
  | run_event e => final_state (handle_event clock e s)
  end.





(** ** The effect of a completion *)

(** Every material the work order requires is in the catalog. *)
Definition materials_present (w : WorkOrder) (s : Engine) : Prop :=
  forall r, In r (required_materials w) ->
    In (req_material_id r) (map material_id (materials s)).

(** [quantity_reserved] and [quantity_available] of every material of [s]
    are lower in [s'] by the quantity [w] requires of it. *)
Definition consumed (w : WorkOrder) (s s' : Engine) : Prop :=
  materials_shifted
    (fun k => - required_total k (required_materials w))
    (fun k => - required_total k (required_materials w)) s s'.

(** [quantity_available] of every material of [s] is lower in [s'] by the
    quantity [w] requires of it. *)
Definition available_consumed (w : WorkOrder) (s s' : Engine) : Prop :=
  forall k mat, dict_get material_id k (materials s) = Some mat ->
    exists mat',
      dict_get material_id k (materials s') = Some mat' /\
      quantity_available mat' ==
        quantity_available mat - required_total k (required_materials w).

(** The materials of [s'] have the identifiers and the available
    quantities of those of [s]. *)
Definition available_kept (s s' : Engine) : Prop :=
  map material_id (materials s') = map material_id (materials s) /\
  forall k mat, dict_get material_id k (materials s) = Some mat ->
    exists mat',
      dict_get material_id k (materials s') = Some mat' /\
      quantity_available mat' == quantity_available mat.

(** No work order other than [wid] is PENDING. *)
Definition no_other_pending (wid : string) (s : Engine) : Prop :=
  forall w', In w' (work_orders s) -> status w' = PENDING ->
    work_order_id w' = wid.

(** The work order stored under [wid] is completed: status, completion
    time and progress. *)
Definition completed_at (t : Z) (wid : string) (s : Engine) : Prop :=
  exists w,
    dict_get work_order_id wid (work_orders s) = Some w /\
    status w = COMPLETED /\ completion_time w = Some t /\ progress w = 100.


(** ** Work orders in progress and their resources *)

(** Identifiers are distinct in each dictionary, and no work order has the
    empty identifier. *)
Definition wf_catalog (s : Engine) : Prop :=
  NoDup (map operator_id (operators s)) /\
  NoDup (map machine_id (machines s)) /\
  NoDup (map work_order_id (work_orders s)) /\
  ~ In "" (map work_order_id (work_orders s)).

(** Every work order IN_PROGRESS has an operator and a machine, the
    operator is ASSIGNED and the machine RUNNING, and both have the work
    order as their current one. *)
Definition in_progress_consistent (s : Engine) : Prop :=
  forall k w,
    dict_get work_order_id k (work_orders s) = Some w ->
    status w = IN_PROGRESS ->
    exists oid mid o m,
      assigned_operator w = Some oid /\ assigned_machine w = Some mid /\
      dict_get operator_id oid (operators s) = Some o /\
      op_current_status o = ASSIGNED /\ op_current_work_order o = Some k /\
      dict_get machine_id mid (machines s) = Some m /\
      m_current_status m = RUNNING /\ m_current_work_order m = Some k.

(** Some work order IN_PROGRESS is assigned to the operator, or to the
    machine. *)
Definition operator_busy (oid : string) (s : Engine) : Prop :=
  exists k w,
    dict_get work_order_id k (work_orders s) = Some w /\
    status w = IN_PROGRESS /\ assigned_operator w = Some oid.

Definition machine_busy (mid : string) (s : Engine) : Prop :=
  exists k w,
    dict_get work_order_id k (work_orders s) = Some w /\
    status w = IN_PROGRESS /\ assigned_machine w = Some mid.

(** The operations that keep the work orders in progress consistent:
    maintenance of a machine and availability of an operator that serve no
    work order in progress; completion of a work order that is in progress
    or holds no reference; breakdown of a machine whose current work order,
    if it is in the catalog, is in progress or has no operator. *)
Definition keeps_assignments (a : operation) (s : Engine) : Prop :=
  match a with
  | run_event (machine_maintenance mid _) => ~ machine_busy mid s
  | run_event (operator_available oid) => ~ operator_busy oid s
  | run_event (work_order_complete wid) =>
      forall w, dict_get work_order_id wid (work_orders s) = Some w ->
        status w = IN_PROGRESS \/
        (truthy (assigned_operator w) = false /\
         truthy (assigned_machine w) = false)
  | run_event (machine_breakdown mid) =>
      forall m k w,
        dict_get machine_id mid (machines s) = Some m ->
        truthy_id (m_current_work_order m) = Some k ->
        dict_get work_order_id k (work_orders s) = Some w ->
        status w = IN_PROGRESS \/ truthy (assigned_operator w) = false
  | _ => True
  end.

Definition consistent (s : Engine) : Prop :=
  wf_catalog s /\ in_progress_consistent s.


(** ** What no operation changes *)

(** The attributes that describe an operator, a machine and a work order,
    as opposed to their assignment. *)
Definition same_profile (o o' : Operator) : Prop :=
  operator_id o' = operator_id o /\ skills o' = skills o /\
  skill_levels o' = skill_levels o /\ op_location o' = op_location o /\
  hourly_cost o' = hourly_cost o.

Definition same_equipment (m m' : Machine) : Prop :=
  machine_id m' = machine_id m /\ capabilities m' = capabilities m /\
  m_location m' = m_location m /\ cycle_time m' = cycle_time m /\
  operating_cost_per_hour m' = operating_cost_per_hour m.

Definition same_demand (w w' : WorkOrder) : Prop :=
  work_order_id w' = work_order_id w /\ priority w' = priority w /\
  required_skills w' = required_skills w /\
  required_machine_capability w' = required_machine_capability w /\
  required_materials w' = required_materials w /\
  estimated_duration w' = estimated_duration w /\
  deadline w' = deadline w /\ wo_location w' = wo_location w.

(** [s'] has the entries of [s], one for one and in the same order, with
    the same descriptive attributes. *)
Definition same_catalog (s s' : Engine) : Prop :=
  Forall2 same_profile (operators s) (operators s') /\
  Forall2 same_equipment (machines s) (machines s') /\
  Forall2 (fun m m' => material_id m' = material_id m)
    (materials s) (materials s') /\
  Forall2 same_demand (work_orders s) (work_orders s').

(** [s'] has the materials of [s] with the same available quantities. *)
Definition same_available (s s' : Engine) : Prop :=
  Forall2
    (fun m m' =>
       material_id m' = material_id m /\
       quantity_available m' = quantity_available m)
    (materials s) (materials s').

(** The operations other than the completion of a work order and the
    delivery of a material. *)
Definition consumes_or_delivers (a : operation) : Prop :=
  match a with
  | run_event (work_order_complete _) => True
  | run_event (material_delivered _ _) => True
  | _ => False
  end.

(** [engine.last_reallocation_time] with the assignment of [k]. *)
Definition with_reallocation_time (k : string) (t : Z) (s : Engine)
  : Engine :=
  mkEngine (operators s) (machines s) (materials s) (work_orders s)
    (dict_set k t (last_reallocation_time s)) (now_calls s).

(** The assignment of [material_delivered]. *)
Definition deliver (q : Q) (m : Material) : Material :=
  set_quantities (quantity_available m + q) (quantity_reserved m) m.

(** The assignment of the release loop. *)
Definition consume (q : Q) (m : Material) : Material :=
  set_quantities (quantity_available m - q) (quantity_reserved m - q) m.

(** The assignment of the reservation loop. *)
Definition reserve (q : Q) (m : Material) : Material :=
  set_reserved (quantity_reserved m + q) m.

(** The assignment of the loop of [material_delivered] over the work
    orders. *)
Definition unblock (mid : string) (w : WorkOrder) : WorkOrder :=
  if to_unblock mid w then set_status PENDING w else w.

(** ** Work orders left to the bulk pass *)

(** The work orders that are PENDING are those the pass still has to
    visit. *)
Definition pending_among (ids : list string) (s : Engine) : Prop :=
  forall k w, dict_get work_order_id k (work_orders s) = Some w ->
    status w = PENDING -> In k ids.

(** ** The effect of a shortage and of a breakdown *)

(** The work order as [material_shortage] of [mid] leaves it: BLOCKED when
    it was IN_PROGRESS and requires the material. *)
Definition blocked_by_shortage (mid : string) (w : WorkOrder) : WorkOrder :=
  if WorkOrderStatus_eqb (status w) IN_PROGRESS && requires mid w
  then set_status BLOCKED w
  else w.

(** The loop of [material_shortage] has still to visit the work orders
    [rest]: the work orders of [s0] that it has visited are blocked in
    [s]. *)
Definition blocked_except (mid : string) (rest : list WorkOrder)
  (s0 s : Engine) : Prop :=
  forall k w, dict_get work_order_id k (work_orders s0) = Some w ->
    dict_get work_order_id k (work_orders s) =
    Some (if str_in k (map work_order_id rest) then w
          else blocked_by_shortage mid w).

(** The machine [mid] is [mb] and the machine identifiers are distinct. *)
Definition machine_is (mid : string) (mb : Machine) (s : Engine) : Prop :=
  NoDup (map machine_id (machines s)) /\
  dict_get machine_id mid (machines s) = Some mb.

(** ** Resource summary ([get_resource_summary]) *)

(** [sum(1 for x in d.values() if p(x))]. *)
Definition count_if {A : Type} (p : A -> bool) (l : list A) : nat :=
  List.length (filter p l).

Definition op_has_status (st : OperatorStatus) (o : Operator) : bool :=
  OperatorStatus_eqb (op_current_status o) st.

Definition m_has_status (st : MachineStatus) (m : Machine) : bool :=
  MachineStatus_eqb (m_current_status m) st.

Definition wo_has_status (st : WorkOrderStatus) (w : WorkOrder) : bool :=
  WorkOrderStatus_eqb (status w) st.

(** The dictionary returned by [get_resource_summary]. *)
Record ResourceSummary := mkResourceSummary {
  operators_total : nat;
  operators_available : nat;
  operators_assigned : nat;
  machines_total : nat;
  machines_idle : nat;
  machines_running : nat;
  work_orders_total : nat;
  work_orders_pending : nat;
  work_orders_in_progress : nat;
  work_orders_completed : nat;
  work_orders_blocked : nat
}.

Definition get_resource_summary (s : Engine) : ResourceSummary :=
  mkResourceSummary
    (List.length (operators s))
    (count_if (op_has_status AVAILABLE) (operators s))
    (count_if (op_has_status ASSIGNED) (operators s))
    (List.length (machines s))
    (count_if (m_has_status IDLE) (machines s))
    (count_if (m_has_status RUNNING) (machines s))
    (List.length (work_orders s))
    (count_if (wo_has_status PENDING) (work_orders s))
    (count_if (wo_has_status IN_PROGRESS) (work_orders s))
    (count_if (wo_has_status COMPLETED) (work_orders s))
    (count_if (wo_has_status BLOCKED) (work_orders s)).

(** Identifiers are distinct among the operators, the machines and the
    work orders. *)
Definition distinct_ids (s : Engine) : Prop :=
  NoDup (map operator_id (operators s)) /\
  NoDup (map machine_id (machines s)) /\
  NoDup (map work_order_id (work_orders s)).

(** The summary [after] differs from the summary [before] by [n] work
    orders started, each with an operator and a machine, and [b] work orders
    blocked, all of them taken from the pending ones. *)
Definition summary_after_pass (n b : nat) (before after : ResourceSummary)
  : Prop :=
  operators_total after = operators_total before /\
  machines_total after = machines_total before /\
  work_orders_total after = work_orders_total before /\
  work_orders_completed after = work_orders_completed before /\
  (work_orders_pending after + n + b = work_orders_pending before)%nat /\
  (work_orders_in_progress after = work_orders_in_progress before + n)%nat /\
  (work_orders_blocked after = work_orders_blocked before + b)%nat /\
  (operators_available after + n = operators_available before)%nat /\
  (operators_assigned after = operators_assigned before + n)%nat /\
  (machines_idle after + n = machines_idle before)%nat /\
  (machines_running after = machines_running before + n)%nat.

(** The work orders [ids] are PENDING in [s], each listed once. *)
Definition pending_ids (ids : list string) (s : Engine) : Prop :=
  NoDup ids /\
  forall k, In k ids ->
    exists w, dict_get work_order_id k (work_orders s) = Some w /\
              status w = PENDING.


(** ** Reallocation rule ([should_reallocate]) *)

(** Clock readings count microseconds, the resolution of [datetime]. *)
Definition microseconds_per_second : Z := 1000000.
Definition microseconds_per_day : Z := 86400 * microseconds_per_second.

(** [(later - earlier).seconds]: a [timedelta] is kept as days, seconds in
    [0, 86400) and microseconds in [0, 1000000), the days taking the sign;
    [.seconds] is the seconds field alone. *)
Definition timedelta_seconds (later earlier : Z) : Z :=
  (((later - earlier) mod microseconds_per_day) / microseconds_per_second)%Z.

(** [self.stability_buffer_minutes = 15], set by [__init__] and never
    assigned again. *)
Definition stability_buffer_minutes : Q := 15.

Section Reallocation.
Variable clock : nat -> Z.

Definition should_reallocate (work_order : WorkOrder) (s : Engine)
  : bool * Engine :=
  if Qlt_bool 50 (progress work_order) then (false, s)
  else
    match dict_get fst (work_order_id work_order) (last_reallocation_time s) with
    | Some (_, last) =>
        let (t, s1) := now clock s in
        let time_since_last := inject_Z (timedelta_seconds t last) / 60 in
        if Qlt_bool time_since_last stability_buffer_minutes
        then (false, s1)
        else (true, s1)
    | None => (true, s)
    end.
End Reallocation.

(** The part of a day, in microseconds, covered by the stability buffer. *)
Definition stability_buffer_microseconds : Z := 900 * microseconds_per_second.


(** ** The event queue ([heapq] on [event_queue], [add_event],
    [process_events], [get_event_statistics]) *)

(** An [Event] object of the queue: its priority, its type and payload,
    and the clock reading taken by its constructor. *)
Record QueuedEvent := mkQueuedEvent {
  ev_priority : Z;
  ev_event : Event;
  ev_timestamp : Z
}.

(** [Event.__lt__]: the priorities alone are compared. *)
Definition event_lt (a b : QueuedEvent) : bool :=
  (ev_priority a <? ev_priority b)%Z.

Section Heapq.
Context {A : Type}.
Variable lt : A -> A -> bool.

(** [heap[pos] = x], for a position of the list. *)
Fixpoint list_set (heap : list A) (pos : nat) (x : A) : list A :=
  match heap, pos with
  | [], _ => []
  | _ :: r, O => x :: r
  | y :: r, S pos' => y :: list_set r pos' x
  end.

(** [(pos - 1) >> 1]. *)
Definition parent_of (pos : nat) : nat := Nat.div2 (pos - 1).

(** The loop of [heapq._siftdown]; [pos] decreases at every turn, so [pos]
    turns are enough.  The positions read are positions of the list (the
    default of [nth] is never returned). *)
Fixpoint siftdown_loop (fuel : nat) (newitem : A) (heap : list A)
  (startpos pos : nat) : list A :=
  match fuel with
  | O => list_set heap pos newitem
  | S fuel' =>
      if Nat.ltb startpos pos then
        let parentpos := parent_of pos in
        let parent := nth parentpos heap newitem in
        if lt newitem parent
        then siftdown_loop fuel' newitem (list_set heap pos parent)
               startpos parentpos
        else list_set heap pos newitem
      else list_set heap pos newitem
  end.

(** [heapq._siftdown(heap, startpos, pos)]. *)
Definition siftdown (heap : list A) (startpos pos : nat) : list A :=
  match nth_error heap pos with
  | Some newitem => siftdown_loop pos newitem heap startpos pos
  | None => heap
  end.

(** The loop of [heapq._siftup]: the smaller child moves up until [pos] is
    a leaf; [pos] grows at every turn, so [endpos] turns are enough.  The
    result is the list and the leaf reached. *)
Fixpoint siftup_loop (fuel : nat) (newitem : A) (heap : list A)
  (endpos pos : nat) : list A * nat :=
  match fuel with
  | O => (heap, pos)
  | S fuel' =>
      let childpos := (2 * pos + 1)%nat in
      if Nat.ltb childpos endpos then
        let rightpos := (childpos + 1)%nat in
        let childpos' :=
          if Nat.ltb rightpos endpos &&
             negb (lt (nth childpos heap newitem) (nth rightpos heap newitem))
          then rightpos else childpos in
        siftup_loop fuel' newitem
          (list_set heap pos (nth childpos' heap newitem)) endpos childpos'
      else (heap, pos)
  end.

(** [heapq._siftup(heap, pos)]. *)
Definition siftup (heap : list A) (pos : nat) : list A :=
  match nth_error heap pos with
  | Some newitem =>
      let endpos := List.length heap in
      let (heap1, leaf) := siftup_loop endpos newitem heap endpos pos in
      siftdown (list_set heap1 leaf newitem) pos leaf
  | None => heap
  end.

(** [heapq.heappush(heap, item)]. *)
Definition heappush (heap : list A) (item : A) : list A :=
  siftdown (heap ++ [item]) 0 (List.length heap).

(** [heapq.heappop(heap)]: the item popped and the list left; [None] is
    the [IndexError] on an empty list. *)
Definition heappop (heap : list A) : option (A * list A) :=
  match heap with
  | [] => None
  | first :: _ =>
      let lastelt := last heap first in
      match removelast heap with
      | [] => Some (lastelt, [])
      | returnitem :: rest =>
          Some (returnitem, siftup (list_set (returnitem :: rest) 0 lastelt) 0)
      end
  end.
End Heapq.

(** Items compared by an integer key, as the events are by priority. *)
Definition key_lt {A : Type} (key : A -> Z) (a b : A) : bool :=
  (key a <? key b)%Z.

(** The heap condition on a list, for items compared by a key: no item is
    below its parent. *)
Definition heap_edge {A : Type} (key : A -> Z) (h : list A) (i : nat) : Prop :=
  forall x y,
    nth_error h i = Some x -> nth_error h (parent_of i) = Some y ->
    (key y <= key x)%Z.

Definition heap_ok {A : Type} (key : A -> Z) (h : list A) : Prop :=
  forall i, (0 < i)%nat -> heap_edge key h i.

(** The heap condition but for the item at [pos], which may be below its
    parent; the children of [pos] are not below that parent. *)
Definition almost_heap {A : Type} (key : A -> Z) (h : list A) (pos : nat)
  : Prop :=
  (forall i, (0 < i)%nat -> i <> pos -> heap_edge key h i) /\
  ((0 < pos)%nat ->
   forall i x y,
     parent_of i = pos -> (0 < i)%nat ->
     nth_error h i = Some x -> nth_error h (parent_of pos) = Some y ->
     (key y <= key x)%Z).

(** The heap condition but for the children of the root while [pos] is the
    root. *)
Definition heap_below {A : Type} (key : A -> Z) (h : list A) (pos : nat)
  : Prop :=
  forall i, (0 < i)%nat -> (pos = 0%nat -> parent_of i <> 0%nat) ->
            heap_edge key h i.

(** The items in the order in which repeated [heappop] yields them. *)
Fixpoint drain {A : Type} (lt : A -> A -> bool) (fuel : nat) (heap : list A)
  : list A :=
  match fuel with
  | O => []
  | S fuel' =>
      match heappop lt heap with
      | None => []
      | Some (x, heap') => x :: drain lt fuel' heap'
      end
  end.

Definition pop_order (queue : list QueuedEvent) : list QueuedEvent :=
  drain event_lt (List.length queue) queue.

(** An entry of [event_log]. *)
Record LogEntry := mkLogEntry {
  log_timestamp : Z;
  log_type : string;
  log_priority : Z;
  log_data : Event
}.

(** The type tag of an event. *)
Definition event_type (e : Event) : string :=
  match e with
  | machine_breakdown _ => "machine_breakdown"
  | machine_maintenance _ _ => "machine_maintenance"
  | operator_available _ => "operator_available"
  | work_order_complete _ => "work_order_complete"
  | material_shortage _ => "material_shortage"
  | material_delivered _ _ => "material_delivered"
  | unknown_event t => t
  end.

(** The [EventHandler] object: the engine it drives, the queue and the
    log. *)
Record EventHandler := mkEventHandler {
  engine : Engine;
  event_queue : list QueuedEvent;
  event_log : list LogEntry
}.

(** [EventHandler(allocation_engine)]. *)
Definition new_event_handler (allocation_engine : Engine) : EventHandler :=
  mkEventHandler allocation_engine [] [].

Section EventQueue.
Variable clock : nat -> Z.

(** [add_event]: the constructor of [Event] reads the clock. *)
Definition add_event (priority : Z) (e : Event) (h : EventHandler)
  : EventHandler :=
  let (t, s1) := now clock (engine h) in
  let event := mkQueuedEvent priority e t in
  mkEventHandler s1
    (heappush event_lt (event_queue h) event)
    (event_log h ++ [mkLogEntry t (event_type e) priority e]).

(** The loop of [process_events] on the handler: one turn pops one event,
    so as many turns as the queue has events are enough.  The result is the
    handler left and the [KeyError] that ended the run, if one was
    raised. *)
Fixpoint process_queue (fuel : nat) (h : EventHandler)
  : EventHandler * option string :=
  match fuel with
  | O => (h, None)
  | S fuel' =>
      match heappop event_lt (event_queue h) with
      | None => (h, None)
      | Some (event, queue') =>
          match handle_event clock (ev_event event) (engine h) with
          | Returned _ s' =>
              process_queue fuel' (mkEventHandler s' queue' (event_log h))
          | Raised k s' =>
              (mkEventHandler s' queue' (event_log h), Some k)
          end
      end
  end.

(** [EventHandler.process_events]. *)
Definition process_event_queue (h : EventHandler)
  : EventHandler * option string :=
  process_queue (List.length (event_queue h)) h.
End EventQueue.

(** The calls of [add_event] made on a handler, in order. *)
Definition add_events (clock : nat -> Z) (l : list (Z * Event))
  (h : EventHandler) : EventHandler :=
  fold_left (fun h pe => add_event clock (fst pe) (snd pe) h) l h.

(** [event_counts[event_type] = event_counts.get(event_type, 0) + 1] over
    the log. *)
Definition count_types (log : list LogEntry) : list (string * nat) :=
  fold_left
    (fun counts entry =>
       dict_set (log_type entry)
         (S (dict_get_default (log_type entry) 0%nat counts)) counts)
    log [].

(** The dictionary returned by [get_event_statistics]. *)
Record EventStatistics := mkEventStatistics {
  total_events : nat;
  by_type : list (string * nat);
  pending : nat
}.

Definition get_event_statistics (h : EventHandler) : EventStatistics :=
  mkEventStatistics
    (List.length (event_log h))
    (count_types (event_log h))
    (List.length (event_queue h)).

Definition sum_counts (counts : list (string * nat)) : nat :=
  fold_right (fun kv n => (snd kv + n)%nat) 0%nat counts.

Definition has_type (t : string) (entry : LogEntry) : bool :=
  String.eqb (log_type entry) t.

(** Priority and event of a queued event, as given to [add_event]. *)
Definition queued (q : QueuedEvent) : Z * Event :=
  (ev_priority q, ev_event q).

Definition by_priority (a b : QueuedEvent) : Prop :=
  (ev_priority a <= ev_priority b)%Z.

(** ** Performance indicators ([kpi_calculator.py]) *)

(** The three marks of a status field: the check mark, the warning sign
    and the cross. *)
Inductive KpiStatus := on_target | warning | off_target.

(** [sum(values)]: a sum from the left, starting from 0. *)
Definition sumQ (l : list Q) : Q := fold_left Qplus l 0.

(** The four counts of [status_counts]. *)
Record StatusCounts := mkStatusCounts {
  running : nat;
  idle : nat;
  maintenance : nat;
  breakdown : nat
}.

(** The dictionary returned by [calculate_machine_utilization]. *)
Record MachineUtilization := mkMachineUtilization {
  by_machine : list (string * Q);
  mu_average : Q;
  status_counts : StatusCounts;
  mu_target : Q;
  mu_status : KpiStatus
}.

(** The utilization entered for one machine. *)
Definition utilization_of (machine : Machine) : Q :=
  match m_current_status machine with
  | RUNNING => 100
  | IDLE => 0
  | MAINTENANCE => 0
  | BREAKDOWN => 0
  end.

(** [sum(utilization.values()) / len(utilization) if utilization else 0]. *)
Definition average_of (utilization : list (string * Q)) : Q :=
  match utilization with
  | [] => 0
  | _ => sumQ (map snd utilization) /
         inject_Z (Z.of_nat (List.length utilization))
  end.

(** [calculate_machine_utilization]; the keys of [engine.machines] being
    distinct, [utilization] gets one entry per machine, in order. *)
Definition calculate_machine_utilization (s : Engine) : MachineUtilization :=
  let utilization :=
    map (fun machine => (machine_id machine, utilization_of machine))
      (machines s) in
  let avg_utilization := average_of utilization in
  mkMachineUtilization utilization avg_utilization
    (mkStatusCounts
       (count_if (m_has_status RUNNING) (machines s))
       (count_if (m_has_status IDLE) (machines s))
       (count_if (m_has_status MAINTENANCE) (machines s))
       (count_if (m_has_status BREAKDOWN) (machines s)))
    80
    (if Qle_bool 80 avg_utilization then on_target
     else if Qle_bool 65 avg_utilization then warning
     else off_target).

(** The dictionary returned by [calculate_allocation_conflicts]. *)
Record AllocationConflicts := mkAllocationConflicts {
  blocked_orders : nat;
  reallocation_rate : Q;
  target_rate : Q;
  conflicts_status : KpiStatus
}.

(** [wo.status in [IN_PROGRESS, COMPLETED]]. *)
Definition was_allocated (wo : WorkOrder) : bool :=
  existsb (WorkOrderStatus_eqb (status wo)) [IN_PROGRESS; COMPLETED].

Definition calculate_allocation_conflicts (s : Engine) : AllocationConflicts :=
  let blocked_count := count_if (wo_has_status BLOCKED) (work_orders s) in
  let reallocation_count := List.length (last_reallocation_time s) in
  let total_allocations := count_if was_allocated (work_orders s) in
  let reallocation_rate :=
    if Nat.ltb 0 total_allocations
    then inject_Z (Z.of_nat reallocation_count) /
         inject_Z (Z.of_nat total_allocations) * 100
    else 0 in
  mkAllocationConflicts blocked_count reallocation_rate 15
    (if Qle_bool reallocation_rate 15 then on_target
     else if Qle_bool reallocation_rate 25 then warning
     else off_target).

(** No reallocation time is recorded and no work order has been started:
    the engine before its first allocation. *)
Definition never_allocated (s : Engine) : Prop :=
  last_reallocation_time s = [] /\
  forall w, In w (work_orders s) -> was_allocated w = false.

(** ** Work-order metrics ([calculate_work_order_metrics]) *)

(** The dictionary returned by [calculate_work_order_metrics]. *)
Record WorkOrderMetrics := mkWorkOrderMetrics {
  wm_completed : nat;
  wm_in_progress : nat;
  wm_blocked : nat;
  wm_pending : nat;
  wm_total : nat;
  otd_rate : Q;
  otd_target : Q;
  otd_status : KpiStatus;
  avg_cycle_efficiency : Q
}.

(** [wo.completion_time and wo.completion_time <= wo.deadline]. *)
Definition on_time (wo : WorkOrder) : bool :=
  match completion_time wo with
  | Some t => (t <=? deadline wo)%Z
  | None => false
  end.

(** The efficiency appended to [cycle_times] for a completed work order
    with both times set. *)
Definition cycle_efficiency (wo : WorkOrder) : list Q :=
  match start_time wo, completion_time wo with
  | Some started, Some completed =>
      let actual_duration :=
        inject_Z (timedelta_seconds completed started) / 60 in
      [if Qlt_bool 0 actual_duration
       then inject_Z (estimated_duration wo) / actual_duration * 100
       else 0]
  | _, _ => []
  end.

Definition calculate_work_order_metrics (s : Engine) : WorkOrderMetrics :=
  let completed := filter (wo_has_status COMPLETED) (work_orders s) in
  let in_progress := filter (wo_has_status IN_PROGRESS) (work_orders s) in
  let blocked := filter (wo_has_status BLOCKED) (work_orders s) in
  let pending := filter (wo_has_status PENDING) (work_orders s) in
  let on_time_count := count_if on_time completed in
  let otd_rate :=
    match completed with
    | [] => 0
    | _ => inject_Z (Z.of_nat on_time_count) /
           inject_Z (Z.of_nat (List.length completed)) * 100
    end in
  let cycle_times := flat_map cycle_efficiency completed in
  let avg_cycle_efficiency :=
    match cycle_times with
    | [] => 0
    | _ => sumQ cycle_times / inject_Z (Z.of_nat (List.length cycle_times))
    end in
  mkWorkOrderMetrics
    (List.length completed) (List.length in_progress) (List.length blocked)
    (List.length pending) (List.length (work_orders s))
    otd_rate 95
    (if Qle_bool 95 otd_rate then on_target
     else if Qle_bool 90 otd_rate then warning
     else off_target)
    avg_cycle_efficiency.

(** ** Locations in the score *)

(** The operator and the machine moved to other locations. *)
Definition operator_at (location : string) (o : Operator) : Operator :=
  mkOperator (operator_id o) (skills o) (skill_levels o)
    (op_current_status o) (op_current_work_order o) location (hourly_cost o).

Definition machine_at (location : string) (m : Machine) : Machine :=
  mkMachine (machine_id m) (capabilities m) (m_current_status m)
    (m_current_work_order m) location (cycle_time m) (last_maintenance m)
    (operating_cost_per_hour m).

(** ** Sample catalogs

    The records of [create_sample_data] that the scenarios below use, and
    variations of them. *)

Definition sample_clock (n : nat) : Z := Z.of_nat n.

Definition op_001 : Operator :=
  mkOperator "OP-001" ["welding"; "assembly"]
    [("welding", 5%Z); ("assembly", 4%Z)] AVAILABLE None "Zone-A" 25.

Definition m_001 : Machine :=
  mkMachine "M-001" ["welding"] IDLE None "Zone-A" 30 None 15.

Definition m_002 : Machine :=
  mkMachine "M-002" ["welding"] IDLE None "Zone-A" 30 None 15.

Definition mat_001 : Material := mkMaterial "MAT-001" 1000 0.

Definition wo_101 : WorkOrder :=
  mkWorkOrder "WO-101" 10 ["welding"] "welding" [mkReq "MAT-001" 50]
    60 7200 PENDING None None None None "Zone-A" 0.

Definition wo_104 : WorkOrder :=
  mkWorkOrder "WO-104" 7 ["welding"] "welding" [mkReq "MAT-001" 30]
    45 18000 PENDING None None None None "Zone-A" 0.

(** One operator, two machines, one material, two pending work orders. *)
Definition sample : Engine :=
  mkEngine [op_001] [m_001; m_002] [mat_001] [wo_101; wo_104] [] 0.

(** [sample] after [allocate_resources("WO-101")]: WO-101 runs on OP-001
    and M-001 with 50 units reserved; WO-104 is still pending. *)
Definition sample_running : Engine :=
  final_state (allocate_resources sample_clock "WO-101" sample).

(** [sample_running] after a shortage of MAT-001: WO-101 is blocked and
    keeps its references. *)
Definition sample_blocked : Engine :=
  final_state (handle_material_shortage "MAT-001" sample_running).



(** A work order that names the same material twice. *)
Definition wo_twice : WorkOrder :=
  mkWorkOrder "WO-901" 5 ["welding"] "welding"
    [mkReq "MAT-001" 600; mkReq "MAT-001" 600]
    60 7200 PENDING None None None None "Zone-A" 0.

Definition sample_twice : Engine :=
  mkEngine [op_001] [m_001] [mat_001] [wo_twice] [] 0.

(** A work order whose material is not in the catalog, and a machine whose
    current work order is not in the catalog. *)
Definition wo_dangling : WorkOrder :=
  mkWorkOrder "WO-902" 5 ["welding"] "welding" [mkReq "MAT-404" 5]
    60 7200 PENDING None None None None "Zone-A" 0.

Definition m_dangling : Machine :=
  mkMachine "M-003" ["welding"] RUNNING (Some "WO-404") "Zone-A" 30 None 15.

Definition sample_dangling : Engine :=
  mkEngine [op_001] [m_dangling] [mat_001] [wo_dangling] [] 0.

(** An operator with a level above the scale, one with a level below it,
    and one paid a negative rate. *)
Definition op_level_10 : Operator :=
  mkOperator "OP-010" ["welding"] [("welding", 10%Z)] AVAILABLE None
    "Zone-A" 25.


Definition op_negative_cost : Operator :=
  mkOperator "OP-030" ["welding"] [("welding", 5%Z)] AVAILABLE None
    "Zone-A" (-80).

Definition m_fast : Machine :=
  mkMachine "M-004" ["welding"] IDLE None "Zone-A" 1 None 15.


(** Five pending work orders with priorities 10, 8, 9, 7, 6 and the same
    deadline. *)
Definition wo_with_priority (id : string) (p : Z) : WorkOrder :=
  mkWorkOrder id p ["welding"] "welding" [] 60 7200 PENDING None None None
    None "Zone-A" 0.

Definition sample_priorities : Engine :=
  mkEngine [] [] []
    [wo_with_priority "A" 10; wo_with_priority "B" 8; wo_with_priority "C" 9;
     wo_with_priority "D" 7; wo_with_priority "E" 6] [] 0.

(** One operator, one machine, one work order. *)
Definition sample_single_machine : Engine :=
  mkEngine [op_001] [m_001] [mat_001] [wo_101] [] 0.

(** * Properties *)

(** ** Dictionaries *)

Section DictFacts.
Context {A : Type} (key : A -> string).

Lemma dict_get_some k d x :
  dict_get key k d = Some x -> key x = k /\ In x d.
Proof.
  induction d as [|y r IH]; simpl; [discriminate|].
  destruct (String.eqb_spec (key y) k) as [E|E].
  - intros [= <-]. auto.
  - intros H. destruct (IH H). auto.
Qed.

Lemma dict_get_none k d :
  dict_get key k d = None <-> ~ In k (map key d).
Proof.
  induction d as [|y r IH]; simpl; [tauto|].
  destruct (String.eqb_spec (key y) k) as [E|E].
  - split; [discriminate|]. intros H. exfalso. apply H. now left.
  - rewrite IH. tauto.
Qed.

Lemma dict_get_in k d :
  In k (map key d) -> exists x, dict_get key k d = Some x.
Proof.
  intros H. destruct (dict_get key k d) as [x|] eqn:E; [now exists x|].
  apply dict_get_none in E. contradiction.
Qed.

Lemma dict_get_unique d x :
  NoDup (map key d) -> In x d -> dict_get key (key x) d = Some x.
Proof.
  induction d as [|y r IH]; simpl; [tauto|].
  intros Hnd [<-|Hin].
  - now rewrite String.eqb_refl.
  - inversion Hnd as [|? ? Hy Hr]; subst.
    destruct (String.eqb_spec (key y) (key x)) as [E|E].
    + exfalso. apply Hy. rewrite E. now apply in_map.
    + now apply IH.
Qed.

Variable f : A -> A.
Hypothesis f_key : forall x, key (f x) = key x.

Lemma dict_update_keys k d :
  map key (dict_update key k f d) = map key d.
Proof.
  induction d as [|y r IH]; simpl; [reflexivity|].
  destruct (String.eqb (key y) k); simpl.
  - now rewrite f_key.
  - now rewrite IH.
Qed.

Lemma dict_get_update_same k d :
  dict_get key k (dict_update key k f d) = option_map f (dict_get key k d).
Proof.
  induction d as [|y r IH]; simpl; [reflexivity|].
  destruct (String.eqb (key y) k) eqn:E; simpl.
  - now rewrite f_key, E.
  - now rewrite E.
Qed.

Lemma dict_get_update_other k k' d :
  k' <> k ->
  dict_get key k' (dict_update key k f d) = dict_get key k' d.
Proof.
  intros Hne. induction d as [|y r IH]; simpl; [reflexivity|].
  destruct (String.eqb_spec (key y) k) as [E|E]; simpl.
  - rewrite f_key.
    destruct (String.eqb_spec (key y) k'); [congruence|reflexivity].
  - now rewrite IH.
Qed.

Lemma dict_update_absent k d :
  dict_get key k d = None -> dict_update key k f d = d.
Proof.
  induction d as [|y r IH]; simpl; [reflexivity|].
  destruct (String.eqb (key y) k); [discriminate|].
  intros H. now rewrite IH.
Qed.

Lemma dict_update_in k d x :
  In x (dict_update key k f d) ->
  In x d \/ exists y, dict_get key k d = Some y /\ x = f y.
Proof.
  induction d as [|y r IH]; simpl; [tauto|].
  destruct (String.eqb (key y) k) eqn:E; simpl.
  - intros [<-|H]; [right; now exists y|left; now right].
  - intros [<-|H]; [left; now left|].
    destruct (IH H) as [H'|H']; [left; now right|right; exact H'].
Qed.
End DictFacts.

Lemma dict_set_get {V : Type} k (v : V) d :
  dict_get fst k (dict_set k v d) = Some (k, v).
Proof.
  induction d as [|[k' v'] r IH]; simpl.
  - now rewrite String.eqb_refl.
  - destruct (String.eqb k' k) eqn:E; simpl.
    + now rewrite String.eqb_refl.
    + now rewrite E.
Qed.

(** ** The constraint checker *)

Lemma missing_skill_none required o :
  missing_skill required o = None <->
  forallb (fun skill => str_in skill (skills o)) required = true.
Proof.
  induction required as [|x r IH]; simpl.
  - tauto.
  - destruct (str_in x (skills o)); simpl.
    + exact IH.
    + split; discriminate.
Qed.


Lemma material_failure_none mats reqs :
  material_failure mats reqs = None <->
  forallb (req_available mats) reqs = true.
Proof.
  induction reqs as [|x r IH]; simpl.
  - tauto.
  - unfold req_available at 1, Qlt_bool.
    destruct (dict_get material_id (req_material_id x) mats) as [mat|].
    + destruct (Qle_bool (quantity x) _); simpl.
      * exact IH.
      * split; discriminate.
    + split; discriminate.
Qed.


Lemma is_available_true o :
  is_available o = true <-> op_current_status o = AVAILABLE.
Proof. unfold is_available. destruct (op_current_status o); simpl; split; congruence. Qed.

Lemma is_idle_true m : is_idle m = true <-> m_current_status m = IDLE.
Proof. unfold is_idle. destruct (m_current_status m); simpl; split; congruence. Qed.

Lemma check_hard_constraints_pass s w o m :
  fst (check_hard_constraints s w o m) = true <->
  has_all_skills w o = true /\ has_capability w m = true /\
  materials_available s w = true /\ resources_free o m = true.
Proof.
  unfold check_hard_constraints, has_all_skills, has_capability,
    materials_available, resources_free, is_available, is_idle.
  destruct (missing_skill (required_skills w) o) eqn:E1.
  - simpl. split; [discriminate|]. intros (H & _).
    apply missing_skill_none in H. congruence.
  - apply missing_skill_none in E1. rewrite E1.
    destruct (str_in _ (capabilities m)); simpl.
    2:{ split; [discriminate|]. intros (_ & H & _); discriminate. }
    destruct (material_failure _ _) eqn:E3.
    + simpl. split; [discriminate|]. intros (_ & _ & H & _).
      apply material_failure_none in H. congruence.
    + apply material_failure_none in E3. rewrite E3.
      destruct (OperatorStatus_eqb _ _); simpl.
      2:{ split; [discriminate|]. intros (_ & _ & _ & H); discriminate. }
      destruct (MachineStatus_eqb _ _); simpl; intuition congruence.
Qed.


(** ** The allocation score *)

Lemma sumZ_bounds (l : list Z) :
  (forall x, In x l -> (0 <= x <= 5)%Z) ->
  (0 <= sumZ l <= 5 * Z.of_nat (List.length l))%Z.
Proof.
  induction l as [|x r IH]; intros H.
  - simpl. lia.
  - assert (Hx : (0 <= x <= 5)%Z) by (apply H; now left).
    assert (Hr : (0 <= sumZ r <= 5 * Z.of_nat (List.length r))%Z)
      by (apply IH; intros y Hy; apply H; now right).
    change (sumZ (x :: r)) with (x + sumZ r)%Z.
    change (List.length (x :: r)) with (S (List.length r)). lia.
Qed.

Lemma mean_over_five_bounds (a n : Z) :
  (0 < n)%Z -> (0 <= a <= 5 * n)%Z ->
  0 <= inject_Z a / inject_Z n / 5 <= 1.
Proof.
  intros Hn [H0 H5].
  assert (Hn' : 0 < inject_Z n) by (change 0 with (inject_Z 0); now rewrite <- Zlt_Qlt).
  assert (Ha0 : 0 <= inject_Z a) by (change 0 with (inject_Z 0); now rewrite <- Zle_Qle).
  assert (Ha5 : inject_Z a <= 5 * inject_Z n).
  { change 5 with (inject_Z 5). rewrite <- inject_Z_mult, <- Zle_Qle. exact H5. }
  split.
  - apply Qle_shift_div_l; [lra|]. apply Qle_shift_div_l; [exact Hn'|]. lra.
  - apply Qle_shift_div_r; [lra|]. apply Qle_shift_div_r; [exact Hn'|]. lra.
Qed.

Lemma skill_match_quality_bounds w o :
  levels_in_range w o -> 0 <= skill_match_quality w o <= 1.
Proof.
  intros H. unfold skill_match_quality.
  destruct (map _ (required_skills w)) as [|x l] eqn:E.
  - lra.
  - rewrite <- E. apply mean_over_five_bounds.
    + rewrite E. simpl List.length. lia.
    + apply sumZ_bounds. intros y Hy. apply in_map_iff in Hy.
      destruct Hy as (skill & <- & Hin). now apply H.
Qed.

Lemma calculate_distance_cases a b :
  calculate_distance a b = 0 \/ calculate_distance a b = 10.
Proof. unfold calculate_distance. destruct (String.eqb a b); auto. Qed.

Lemma proximity_factor_bounds w o m : 0 <= proximity_factor w o m <= 1.
Proof.
  unfold proximity_factor.
  destruct (calculate_distance_cases (op_location o) (m_location m)) as [-> | ->];
  destruct (calculate_distance_cases (m_location m) (wo_location w)) as [-> | ->];
  vm_compute; split; discriminate.
Qed.

Lemma machine_efficiency_bounds m : 0 <= machine_efficiency m <= 1.
Proof.
  unfold machine_efficiency.
  set (e := if Z.eqb (cycle_time m) 0 then _ else _).
  destruct (Q.max_spec 0 (Qmin e 1)) as [[H1 H2]|[H1 H2]];
  destruct (Q.min_spec e 1) as [[H3 H4]|[H3 H4]];
  rewrite H2; try rewrite H4 in *; lra.
Qed.

Lemma cost_optimization_lower o m : 0 <= cost_optimization o m.
Proof.
  unfold cost_optimization.
  destruct (Q.min_spec ((hourly_cost o + operating_cost_per_hour m) / 100) 1)
    as [[H1 H2]|[H1 H2]]; rewrite H2; lra.
Qed.

Lemma cost_optimization_upper o m :
  0 <= hourly_cost o + operating_cost_per_hour m -> cost_optimization o m <= 1.
Proof.
  intros H. unfold cost_optimization.
  destruct (Q.min_spec ((hourly_cost o + operating_cost_per_hour m) / 100) 1)
    as [[H1 H2]|[H1 H2]]; rewrite H2; [|lra].
  assert (0 <= (hourly_cost o + operating_cost_per_hour m) / 100)
    by (apply Qle_shift_div_l; lra).
  lra.
Qed.

(** C9 (amended).  Machine efficiency is clamped to [0,1]; proximity lies in
    [0,1]; the cost term is capped from below at 0 and is at most 1 when the
    total hourly cost is not negative; the skill term is the plain mean of
    the levels over 5, with no clamp.  With the weights 0.4, 0.3, 0.2, 0.1
    the score lies in [0,1] whenever the levels of the required skills are
    in 0..5 and the total hourly cost is not negative. *)
Theorem calculate_allocation_score_in_unit_interval :
  forall (w : WorkOrder) (o : Operator) (m : Machine),
    levels_in_range w o ->
    0 <= hourly_cost o + operating_cost_per_hour m ->
    (0 <= proximity_factor w o m <= 1) /\
    (0 <= machine_efficiency m <= 1) /\
    (0 <= cost_optimization o m <= 1) /\
    (0 <= skill_match_quality w o <= 1) /\
    calculate_allocation_score w o m ==
      (4 # 10) * skill_match_quality w o + (3 # 10) * proximity_factor w o m +
      (2 # 10) * machine_efficiency m + (1 # 10) * cost_optimization o m /\
    0 <= calculate_allocation_score w o m <= 1.
Proof.
  intros w o m Hl Hc.
  pose proof (skill_match_quality_bounds w o Hl) as Hs.
  pose proof (proximity_factor_bounds w o m) as Hp.
  pose proof (machine_efficiency_bounds m) as He.
  pose proof (cost_optimization_lower o m) as Hc0.
  pose proof (cost_optimization_upper o m Hc) as Hc1.
  repeat split; try tauto; try reflexivity;
    unfold calculate_allocation_score; lra.
Qed.

(** ** Prioritization *)

Lemma wo_before_false_in_order a b : wo_before b a = false -> in_order a b.
Proof.
  unfold wo_before, in_order. intros H.
  apply orb_false_iff in H. destruct H as [H1 H2].
  apply Z.ltb_ge in H1.
  destruct (Z.eqb_spec (priority b) (priority a)) as [E|E]; [|lia].
  simpl in H2. apply orb_false_iff in H2. destruct H2 as [H2 H3].
  apply Z.ltb_ge in H2.
  destruct (Z.eqb_spec (deadline b) (deadline a)) as [E'|E']; [|lia].
  simpl in H3. apply Z.ltb_ge in H3. lia.
Qed.

Lemma wo_before_true_in_order a b : wo_before a b = true -> in_order a b.
Proof.
  unfold wo_before, in_order. intros H.
  apply orb_true_iff in H. destruct H as [H|H].
  - apply Z.ltb_lt in H. lia.
  - apply andb_true_iff in H. destruct H as [H1 H2].
    apply Z.eqb_eq in H1. apply orb_true_iff in H2. destruct H2 as [H2|H2].
    + apply Z.ltb_lt in H2. lia.
    + apply andb_true_iff in H2. destruct H2 as [H2 H3].
      apply Z.eqb_eq in H2. apply Z.ltb_lt in H3. lia.
Qed.

Lemma in_order_trans a b c : in_order a b -> in_order b c -> in_order a c.
Proof. unfold in_order. lia. Qed.

Lemma wo_before_same_keys a b k :
  wo_before a b = true -> same_keys k b = true -> same_keys k a = false.
Proof.
  unfold wo_before, same_keys. intros H K.
  apply andb_true_iff in K. destruct K as [K K3].
  apply andb_true_iff in K. destruct K as [K1 K2].
  apply Z.eqb_eq in K1, K2, K3.
  apply orb_true_iff in H. destruct H as [H|H].
  - apply Z.ltb_lt in H.
    destruct (Z.eqb_spec (priority k) (priority a)); [lia|reflexivity].
  - apply andb_true_iff in H. destruct H as [H1 H2].
    apply Z.eqb_eq in H1. apply orb_true_iff in H2. destruct H2 as [H2|H2].
    + apply Z.ltb_lt in H2.
      destruct (Z.eqb_spec (deadline k) (deadline a)); [lia|].
      now rewrite andb_false_r.
    + apply andb_true_iff in H2. destruct H2 as [H2 H3].
      apply Z.ltb_lt in H3.
      destruct (Z.eqb_spec (estimated_duration k) (estimated_duration a));
        [lia|]. now rewrite andb_false_r.
Qed.

Lemma sort_insert_perm x l : Permutation (sort_insert x l) (x :: l).
Proof.
  induction l as [|y r IH]; simpl.
  - apply Permutation_refl.
  - destruct (wo_before y x).
    + eapply perm_trans; [apply perm_skip, IH|apply perm_swap].
    + apply Permutation_refl.
Qed.

Lemma sort_values_perm l : Permutation (sort_values l) l.
Proof.
  induction l as [|x r IH]; simpl.
  - constructor.
  - eapply perm_trans; [apply sort_insert_perm|]. now constructor.
Qed.

Lemma sort_insert_sorted x l :
  StronglySorted in_order l -> StronglySorted in_order (sort_insert x l).
Proof.
  induction 1 as [|y r Hr IH Hy]; simpl.
  - repeat constructor.
  - destruct (wo_before y x) eqn:E.
    + constructor; [exact IH|].
      eapply Permutation_Forall;
        [apply Permutation_sym, sort_insert_perm|].
      constructor; [now apply wo_before_true_in_order|exact Hy].
    + assert (Hxy : in_order x y) by now apply wo_before_false_in_order.
      constructor; [now constructor|].
      constructor; [exact Hxy|].
      eapply Forall_impl; [|exact Hy]. intros z Hz.
      eapply in_order_trans; eassumption.
Qed.

Lemma sort_values_sorted l : StronglySorted in_order (sort_values l).
Proof.
  induction l as [|x r IH]; simpl.
  - constructor.
  - now apply sort_insert_sorted.
Qed.

Lemma sort_insert_filter_keys k x l :
  filter (same_keys k) (sort_insert x l) =
  filter (same_keys k) (x :: l).
Proof.
  induction l as [|y r IH]; [reflexivity|].
  simpl sort_insert. destruct (wo_before y x) eqn:E; [|reflexivity].
  simpl. simpl in IH. rewrite IH.
  destruct (same_keys k x) eqn:Kx; [|reflexivity].
  now rewrite (wo_before_same_keys y x k E Kx).
Qed.

Lemma sort_values_stable k l :
  filter (same_keys k) (sort_values l) = filter (same_keys k) l.
Proof.
  induction l as [|x r IH]; [reflexivity|].
  simpl sort_values. rewrite sort_insert_filter_keys. simpl. now rewrite IH.
Qed.

Lemma prioritize_work_orders_sort s :
  prioritize_work_orders s = sort_values (filter is_pending (work_orders s)).
Proof.
  unfold prioritize_work_orders.
  now destruct (filter is_pending (work_orders s)).
Qed.

(** C4.  [prioritize_work_orders] returns exactly the work orders whose
    status is PENDING (a rearrangement of them, each once), ordered by
    priority descending, then deadline ascending, then estimated duration
    ascending; work orders that agree on the three keys keep the order in
    which they were inserted in the catalog. *)
Theorem prioritize_work_orders_sorted_stable :
  forall s : Engine,
    Permutation (prioritize_work_orders s)
      (filter is_pending (work_orders s)) /\
    (forall w, In w (prioritize_work_orders s) <->
               In w (work_orders s) /\ status w = PENDING) /\
    StronglySorted in_order (prioritize_work_orders s) /\
    (forall k : WorkOrder,
       filter (same_keys k) (prioritize_work_orders s) =
       filter (same_keys k) (filter is_pending (work_orders s))).
Proof.
  intros s. rewrite prioritize_work_orders_sort.
  split; [apply sort_values_perm|].
  split; [|split; [apply sort_values_sorted|intros k; apply sort_values_stable]].
  intros w. split.
  - intros H. apply (Permutation_in _ (sort_values_perm _)) in H.
    apply filter_In in H. destruct H as [H1 H2]. split; [exact H1|].
    unfold is_pending in H2. now destruct (status w).
  - intros [H1 H2]. apply (Permutation_in _ (Permutation_sym (sort_values_perm _))).
    apply filter_In. split; [exact H1|]. unfold is_pending. now rewrite H2.
Qed.

(** ** Best-match search *)

Lemma Qlt_bool_iff a b : Qlt_bool a b = true <-> a < b.
Proof.
  unfold Qlt_bool. rewrite negb_true_iff.
  destruct (Qle_bool b a) eqn:E.
  - apply Qle_bool_iff in E. split; [discriminate|]. intros H.
    exfalso. eapply Qlt_not_le; eassumption.
  - split; [intros _|reflexivity].
    apply Qnot_le_lt. intros H. apply Qle_bool_iff in H. congruence.
Qed.

Lemma Qlt_bool_false a b : Qlt_bool a b = false <-> b <= a.
Proof.
  unfold Qlt_bool. rewrite negb_false_iff. apply Qle_bool_iff.
Qed.

Lemma fold_inner_pairs s w o ms best :
  fold_left (fun b m => consider s w b o m) ms best =
  fold_left (consider_pair s w) (map (fun m => (o, m)) ms) best.
Proof.
  revert best. induction ms as [|m r IH]; intros best; [reflexivity|].
  simpl. apply IH.
Qed.

Lemma fold_cross_product s w os ms best :
  fold_left
    (fun b o => fold_left (fun b m => consider s w b o m) ms b) os best =
  fold_left (consider_pair s w) (list_prod os ms) best.
Proof.
  revert best. induction os as [|o r IH]; intros best; [reflexivity|].
  simpl. rewrite fold_left_app, IH, fold_inner_pairs. reflexivity.
Qed.

Lemma fold_discards_failing s w l best :
  fold_left (consider_pair s w) l best =
  fold_left (keep_better w)
    (filter (fun p => fst (check_hard_constraints s w (fst p) (snd p))) l)
    best.
Proof.
  revert best. induction l as [|p r IH]; intros best; [reflexivity|].
  simpl. unfold consider_pair at 2, consider.
  destruct (fst (check_hard_constraints s w (fst p) (snd p))); simpl.
  - rewrite IH. reflexivity.
  - apply IH.
Qed.

Lemma find_best_allocation_fold s w :
  find_best_allocation s w =
  snd (fold_left (keep_better w) (candidates s w) (- (1), None)).
Proof.
  unfold find_best_allocation, candidates.
  now rewrite fold_cross_product, fold_discards_failing.
Qed.

(** The state of the search after the pairs [l], from the initial best
    score [b0] and no allocation. *)
Lemma keep_better_fold w b0 l :
  let r := fold_left (keep_better w) l (b0, None) in
  (forall q, In q l -> score_of w q <= fst r) /\
  match snd r with
  | None => fst r = b0
  | Some (o, m, sc) =>
      sc = fst r /\ sc = score_of w (o, m) /\ b0 < sc /\
      exists before after,
        l = before ++ (o, m) :: after /\
        (forall q, In q before -> score_of w q < sc)
  end.
Proof.
  induction l as [|p l IH] using rev_ind.
  - simpl. split; [tauto|reflexivity].
  - rewrite fold_left_app. simpl.
    destruct (fold_left (keep_better w) l (b0, None)) as [b a].
    simpl in IH. destruct IH as [Hle Hbest].
    unfold keep_better. simpl fst.
    destruct (Qlt_bool b (score_of w p)) eqn:E; simpl.
    + apply Qlt_bool_iff in E. split.
      * intros q Hq. apply in_app_or in Hq. destruct Hq as [Hq|[<-|[]]].
        -- apply Qlt_le_weak. eapply Qle_lt_trans; [apply Hle, Hq|exact E].
        -- apply Qle_refl.
      * destruct p as [o m]. simpl. repeat split.
        -- destruct a as [[[o' m'] sc']|].
           ++ destruct Hbest as (-> & _ & H & _).
              eapply Qlt_trans; eassumption.
           ++ now subst b.
        -- exists l, []. split; [reflexivity|].
           intros q Hq. eapply Qle_lt_trans; [apply Hle, Hq|exact E].
    + apply Qlt_bool_false in E. split.
      * intros q Hq. apply in_app_or in Hq. destruct Hq as [Hq|[<-|[]]].
        -- now apply Hle.
        -- exact E.
      * destruct a as [[[o' m'] sc']|]; [|exact Hbest].
        destruct Hbest as (H1 & H2 & H3 & before & after & -> & Hb).
        repeat split; trivial.
        exists before, (after ++ [p]). split; [|exact Hb].
        now rewrite <- app_assoc.
Qed.

(** The result of the search on the candidates. *)
Lemma find_best_allocation_outcome s w :
  match find_best_allocation s w with
  | Some (o, m, sc) =>
      sc = calculate_allocation_score w o m /\
      - (1) < sc /\
      In (o, m) (candidates s w) /\
      first_best w (candidates s w) (o, m)
  | None => forall p, In p (candidates s w) -> score_of w p <= - (1)
  end.
Proof.
  rewrite find_best_allocation_fold.
  pose proof (keep_better_fold w (- (1)) (candidates s w)) as H.
  simpl in H. destruct H as [Hle Hbest].
  destruct (fold_left (keep_better w) (candidates s w) (- (1), None))
    as [b a]. simpl in *.
  destruct a as [[[o m] sc]|].
  - destruct Hbest as (-> & Hsc & Hlt & before & after & Heq & Hb).
    repeat split; trivial.
    + rewrite Heq. apply in_or_app. right. now left.
    + exists before, after. split; [exact Heq|]. split.
      * intros q Hq. rewrite <- Hsc. now apply Hb.
      * intros q Hq. rewrite <- Hsc. apply Hle. rewrite Heq.
        apply in_or_app. right. now right.
  - subst b. exact Hle.
Qed.

Lemma find_best_allocation_some s w o m sc :
  find_best_allocation s w = Some (o, m, sc) ->
  In (o, m) (candidates s w) /\ sc = calculate_allocation_score w o m.
Proof.
  intros H. pose proof (find_best_allocation_outcome s w) as Ho.
  rewrite H in Ho. tauto.
Qed.


Lemma candidates_in s w o m :
  In (o, m) (candidates s w) <->
  In o (operators s) /\ In m (machines s) /\
  fst (check_hard_constraints s w o m) = true /\
  op_current_status o = AVAILABLE /\ m_current_status m = IDLE.
Proof.
  unfold candidates. rewrite filter_In, in_prod_iff, !filter_In.
  rewrite is_available_true, is_idle_true. simpl. tauto.
Qed.





(** ** Allocation commit *)

Lemma materials_available_found s w r :
  materials_available s w = true -> In r (required_materials w) ->
  exists mat,
    dict_get material_id (req_material_id r) (materials s) = Some mat /\
    quantity r <= quantity_available mat - quantity_reserved mat.
Proof.
  unfold materials_available. rewrite forallb_forall. intros H Hin.
  specialize (H r Hin). unfold req_available in H.
  destruct (dict_get material_id (req_material_id r) (materials s)) as [mat|];
    [|discriminate].
  exists mat. split; [reflexivity|]. now apply Qle_bool_iff.
Qed.


Lemma find_best_allocation_materials s w o m sc :
  find_best_allocation s w = Some (o, m, sc) ->
  materials_available s w = true.
Proof.
  intros H. apply find_best_allocation_some in H. destruct H as [H _].
  apply candidates_in in H. destruct H as (_ & _ & Hc & _).
  apply check_hard_constraints_pass in Hc. tauto.
Qed.

Lemma required_total_cons k r reqs :
  required_total k (r :: reqs) =
  if String.eqb (req_material_id r) k
  then quantity r + required_total k reqs
  else required_total k reqs.
Proof. reflexivity. Qed.

(** The reservation loop returns when every required material is in the
    catalog, and adds to each material the quantity required of it. *)
Lemma reserve_materials_returns reqs s :
  (forall r, In r reqs ->
     dict_get material_id (req_material_id r) (materials s) <> None) ->
  exists s',
    reserve_materials reqs s = Returned tt s' /\
    operators s' = operators s /\ machines s' = machines s /\
    work_orders s' = work_orders s /\
    last_reallocation_time s' = last_reallocation_time s /\
    now_calls s' = now_calls s /\
    materials_shifted (fun k => required_total k reqs) (fun _ => 0) s s'.
Proof.
  revert s. induction reqs as [|r reqs IH]; intros s Hall.
  - exists s. simpl. repeat split; trivial.
    intros k mat Hk. exists mat. split; [exact Hk|]. simpl. split; ring.
  - simpl reserve_materials.
    destruct (dict_get material_id (req_material_id r) (materials s))
      as [mat0|] eqn:E0; [|exfalso; apply (Hall r); [now left|exact E0]].
    set (f := fun m : Material =>
                set_reserved (quantity_reserved m + quantity r) m).
    assert (Hf : forall x, material_id (f x) = material_id x) by reflexivity.
    destruct (IH (update_material (req_material_id r) f s))
      as (s' & Hr & Ho & Hm & Hw & Hl & Hn & Hk & Hs).
    { intros r' Hin. simpl.
      rewrite dict_get_none, (dict_update_keys material_id f Hf),
        <- dict_get_none.
      apply Hall. now right. }
    exists s'. split; [exact Hr|]. repeat split; trivial.
    + rewrite Hk. simpl. apply (dict_update_keys material_id f Hf).
    + intros k mat Hget. rewrite required_total_cons.
      destruct (String.eqb_spec (req_material_id r) k) as [Ek|Ek].
      * subst k. destruct (Hs (req_material_id r) (f mat)) as (mat' & G & R & A).
        { simpl. rewrite (dict_get_update_same material_id f Hf), Hget.
          reflexivity. }
        exists mat'. split; [exact G|]. rewrite R, A. simpl. split; ring.
      * destruct (Hs k mat) as (mat' & G & R & A).
        { simpl. rewrite (dict_get_update_other material_id f Hf); auto. }
        exists mat'. split; [exact G|]. now rewrite R, A.
Qed.

Section Commit.
Variable clock : nat -> Z.

Lemma allocate_resources_blocked wid s w :
  dict_get work_order_id wid (work_orders s) = Some w ->
  find_best_allocation s w = None ->
  allocate_resources clock wid s =
    Returned false (update_work_order wid (set_status BLOCKED) s) /\
  blocked_effect wid w s (update_work_order wid (set_status BLOCKED) s).
Proof.
  intros Hw Hf. unfold allocate_resources. rewrite Hw, Hf.
  split; [reflexivity|]. unfold blocked_effect. simpl.
  repeat split; trivial.
  - rewrite dict_get_update_same by reflexivity. now rewrite Hw.
  - intros k Hk. now rewrite dict_get_update_other by (reflexivity || auto).
Qed.

Lemma allocate_resources_commits wid s w o m sc :
  dict_get work_order_id wid (work_orders s) = Some w ->
  find_best_allocation s w = Some (o, m, sc) ->
  exists s',
    allocate_resources clock wid s = Returned true s' /\
    commit_effect clock wid w o m s s'.
Proof.
  intros Hw Hf. unfold allocate_resources. rewrite Hw, Hf.
  pose proof (find_best_allocation_materials _ _ _ _ _ Hf) as Hm.
  destruct (reserve_materials_returns (required_materials w) s)
    as (s1 & Hr & Ho1 & Hm1 & Hw1 & Hl1 & Hn1 & Hs1).
  { intros r Hin. destruct (materials_available_found s w r Hm Hin)
      as (mat & -> & _). discriminate. }
  rewrite Hr. simpl bind. eexists. split; [reflexivity|].
  apply find_best_allocation_some in Hf. destruct Hf as [Hc _].
  apply candidates_in in Hc. destruct Hc as (Hio & Him & _).
  unfold commit_effect. simpl. rewrite Ho1, Hm1, Hw1, Hl1, Hn1.
  split; [exact Hs1|].
  split.
  { rewrite dict_get_update_same by reflexivity. now rewrite Hw. }
  split.
  { intros k Hk. now rewrite dict_get_update_other by (reflexivity || auto). }
  split.
  { destruct (dict_get_in operator_id (operator_id o) (operators s))
      as (o0 & Ho0); [now apply in_map|].
    exists o0. split; [exact Ho0|]. split.
    - intros Hnd. rewrite (dict_get_unique operator_id _ o Hnd Hio) in Ho0.
      congruence.
    - rewrite dict_get_update_same by reflexivity. now rewrite Ho0. }
  split.
  { intros k Hk. now rewrite dict_get_update_other by (reflexivity || auto). }
  split.
  { destruct (dict_get_in machine_id (machine_id m) (machines s))
      as (m0 & Hm0); [now apply in_map|].
    exists m0. split; [exact Hm0|]. split.
    - intros Hnd. rewrite (dict_get_unique machine_id _ m Hnd Him) in Hm0.
      congruence.
    - rewrite dict_get_update_same by reflexivity. now rewrite Hm0. }
  split.
  { intros k Hk. now rewrite dict_get_update_other by (reflexivity || auto). }
  split; [apply dict_set_get|]. split; [reflexivity|].
  destruct Hs1 as [Hk1 _]. unfold same_ids. simpl.
  rewrite !dict_update_keys by reflexivity. repeat split; trivial.
Qed.

End Commit.

(** ** Properties kept by every step *)

Lemma post_bind {A B : Type} (P : Engine -> Prop) (c : outcome A)
  (f : A -> Engine -> outcome B) :
  post P c -> (forall a s, P s -> post P (f a s)) -> post P (bind c f).
Proof. destruct c as [a s|k s]; unfold post; simpl; auto. Qed.

Lemma post_discard {A : Type} (P : Engine -> Prop) (c : outcome A) :
  post P c -> post P (discard c).
Proof. destruct c; unfold post; simpl; auto. Qed.

Ltac post_step :=
  match goal with
  | |- post _ (Returned _ _) => unfold post; simpl final_state
  | |- post _ (Raised _ _) => unfold post; simpl final_state
  | |- post _ (discard _) => apply post_discard
  | |- post _ (bind _ _) => apply post_bind; [|intros ? ? ?]
  | |- post _ (match ?x with _ => _ end) => destruct x eqn:?
  end.

Section Preserved.
Variable clock : nat -> Z.
Variable P : Engine -> Prop.

Hypothesis P_operators : forall s k f,
  (forall o, operator_id (f o) = operator_id o) ->
  P s -> P (update_operator k f s).
Hypothesis P_machines : forall s k f,
  (forall m, machine_id (f m) = machine_id m) ->
  P s -> P (update_machine k f s).
Hypothesis P_work_orders : forall s f,
  (forall w, work_order_id (f w) = work_order_id w) ->
  (forall w, required_materials (f w) = required_materials w) ->
  (forall k, P s -> P (update_work_order k f s)) /\
  (P s -> P (with_work_orders s (map f (work_orders s)))).
Hypothesis P_now : forall s, P s -> P (snd (now clock s)).
Hypothesis P_allocate : forall wid s,
  P s -> post P (allocate_resources clock wid s).
Hypothesis P_consume : forall s k q,
  P s ->
  P (update_material k
       (fun m =>
          set_quantities (quantity_available m - q)
            (quantity_reserved m - q) m) s).
Hypothesis P_deliver : forall s k q,
  0 <= q -> P s ->
  P (update_material k
       (fun m =>
          set_quantities (quantity_available m + q)
            (quantity_reserved m) m) s).

Lemma release_operator_post k s : P s -> post P (release_operator k s).
Proof.
  intros H. unfold release_operator. repeat post_step; auto.
Qed.

Lemma release_machine_post k s : P s -> post P (release_machine k s).
Proof.
  intros H. unfold release_machine. repeat post_step; auto.
Qed.

Lemma allocate_all_post ids res s :
  P s -> post P (allocate_all clock ids res s).
Proof.
  revert res s. induction ids as [|wid r IH]; intros res s H; simpl.
  - exact H.
  - apply post_bind; [now apply P_allocate|]. intros ok s' H'. now apply IH.
Qed.

Lemma process_allocations_post s :
  P s -> post P (process_allocations clock s).
Proof. intros H. now apply allocate_all_post. Qed.



Lemma handle_operator_available_post oid s :
  P s -> post P (handle_operator_available clock oid s).
Proof.
  intros H. unfold handle_operator_available.
  destruct (dict_get operator_id oid (operators s)); [|exact H].
  assert (H1 : P (update_operator oid (set_op_assignment AVAILABLE None) s))
    by (apply P_operators; auto).
  destruct (Nat.ltb _ _); [|exact H1].
  now apply post_discard, process_allocations_post.
Qed.





End Preserved.

(** ** Reservations and availability *)

Section DictMore.
Context {A : Type} (key : A -> string) (f : A -> A).
Hypothesis f_key : forall x, key (f x) = key x.

Lemma dict_get_update_inv k k' d x :
  dict_get key k' (dict_update key k f d) = Some x ->
  exists y, dict_get key k' d = Some y /\ (x = y \/ (k' = k /\ x = f y)).
Proof.
  destruct (String.eqb_spec k' k) as [E|E].
  - subst k'. rewrite (dict_get_update_same key f f_key).
    destruct (dict_get key k d) as [y|]; simpl; [|discriminate].
    intros [= <-]. exists y. auto.
  - rewrite (dict_get_update_other key f f_key) by exact E.
    intros H. exists x. auto.
Qed.

Lemma dict_get_map k d :
  dict_get key k (map f d) = option_map f (dict_get key k d).
Proof.
  induction d as [|y r IH]; simpl; [reflexivity|].
  rewrite f_key. now destruct (String.eqb (key y) k).
Qed.
End DictMore.





Section Reservations.
Variable clock : nat -> Z.

(** The outcomes of [allocate_resources]. *)
Lemma allocate_resources_cases wid s :
  (dict_get work_order_id wid (work_orders s) = None /\
   allocate_resources clock wid s = Returned false s) \/
  (exists w,
     dict_get work_order_id wid (work_orders s) = Some w /\
     find_best_allocation s w = None /\
     allocate_resources clock wid s =
       Returned false (update_work_order wid (set_status BLOCKED) s)) \/
  (exists w o m sc s',
     dict_get work_order_id wid (work_orders s) = Some w /\
     find_best_allocation s w = Some (o, m, sc) /\
     allocate_resources clock wid s = Returned true s' /\
     commit_effect clock wid w o m s s').
Proof.
  destruct (dict_get work_order_id wid (work_orders s)) as [w|] eqn:Hw.
  - right. destruct (find_best_allocation s w) as [[[o m] sc]|] eqn:Hf.
    + right. destruct (allocate_resources_commits clock wid s w o m sc Hw Hf)
        as (s' & Hr & He).
      exists w, o, m, sc, s'. auto.
    + left. exists w. split; [reflexivity|]. split; [exact Hf|].
      now apply (allocate_resources_blocked clock wid s w).
  - left. split; [reflexivity|]. unfold allocate_resources. now rewrite Hw.
Qed.









End Reservations.

(** ** Completion of a work order *)

Lemma materials_shifted_refl s :
  materials_shifted (fun _ => 0) (fun _ => 0) s s.
Proof.
  split; [reflexivity|]. intros k mat H. exists mat.
  split; [exact H|]. split; ring.
Qed.

Lemma available_kept_refl s : available_kept s s.
Proof.
  split; [reflexivity|]. intros k mat H. exists mat. split; [exact H|reflexivity].
Qed.

Lemma available_kept_trans s1 s2 s3 :
  available_kept s1 s2 -> available_kept s2 s3 -> available_kept s1 s3.
Proof.
  intros [K1 H1] [K2 H2]. split; [congruence|].
  intros k mat Hg. destruct (H1 k mat Hg) as (m2 & G2 & A2).
  destruct (H2 k m2 G2) as (m3 & G3 & A3).
  exists m3. split; [exact G3|]. now rewrite A3.
Qed.

Lemma materials_shifted_available_kept d s s' :
  materials_shifted d (fun _ => 0) s s' -> available_kept s s'.
Proof.
  intros [K H]. split; [exact K|]. intros k mat Hg.
  destruct (H k mat Hg) as (mat' & G & _ & A).
  exists mat'. split; [exact G|]. rewrite A. ring.
Qed.

Lemma same_ids_refl s : same_ids s s.
Proof. now repeat split. Qed.

Lemma same_ids_trans s1 s2 s3 :
  same_ids s1 s2 -> same_ids s2 s3 -> same_ids s1 s3.
Proof.
  intros (A1 & B1 & C1 & D1) (A2 & B2 & C2 & D2).
  repeat split; congruence.
Qed.

(** The release loop returns when every required material is in the
    catalog, and takes from each material the quantity required of it. *)
Lemma release_materials_returns reqs s :
  (forall r, In r reqs ->
     In (req_material_id r) (map material_id (materials s))) ->
  exists s',
    release_materials reqs s = Returned tt s' /\
    operators s' = operators s /\ machines s' = machines s /\
    work_orders s' = work_orders s /\
    last_reallocation_time s' = last_reallocation_time s /\
    now_calls s' = now_calls s /\
    materials_shifted (fun k => - required_total k reqs)
      (fun k => - required_total k reqs) s s'.
Proof.
  revert s. induction reqs as [|r reqs IH]; intros s Hall.
  - exists s. simpl. repeat split; trivial.
    intros k mat Hk. exists mat. split; [exact Hk|]. simpl. split; ring.
  - simpl release_materials.
    destruct (dict_get_in material_id (req_material_id r) (materials s))
      as (mat0 & E0); [apply Hall; now left|].
    rewrite E0.
    set (f := fun m : Material =>
                set_quantities (quantity_available m - quantity r)
                  (quantity_reserved m - quantity r) m).
    assert (Hf : forall x, material_id (f x) = material_id x) by reflexivity.
    destruct (IH (update_material (req_material_id r) f s))
      as (s' & Hr & Ho & Hm & Hw & Hl & Hn & Hk & Hs).
    { intros r' Hin. simpl. rewrite (dict_update_keys material_id f Hf).
      apply Hall. now right. }
    exists s'. split; [exact Hr|]. repeat split; trivial.
    + rewrite Hk. simpl. apply (dict_update_keys material_id f Hf).
    + intros k mat Hget. rewrite required_total_cons.
      destruct (String.eqb_spec (req_material_id r) k) as [Ek|Ek].
      * subst k. destruct (Hs (req_material_id r) (f mat)) as (mat' & G & R & A).
        { simpl. rewrite (dict_get_update_same material_id f Hf), Hget.
          reflexivity. }
        exists mat'. split; [exact G|]. rewrite R, A. simpl. split; ring.
      * destruct (Hs k mat) as (mat' & G & R & A).
        { simpl. rewrite (dict_get_update_other material_id f Hf); auto. }
        exists mat'. split; [exact G|]. now rewrite R, A.
Qed.

Lemma dict_update_twice {A : Type} (key : A -> string) (f g : A -> A) k d :
  (forall x, key (f x) = key x) ->
  dict_update key k g (dict_update key k f d) =
  dict_update key k (fun x => g (f x)) d.
Proof.
  intros Hf. induction d as [|y r IH]; simpl; [reflexivity|].
  destruct (String.eqb (key y) k) eqn:E; simpl.
  - now rewrite Hf, E.
  - now rewrite E, IH.
Qed.

Lemma prioritized_ids s wid :
  In wid (map work_order_id (prioritize_work_orders s)) ->
  exists w, In w (work_orders s) /\ status w = PENDING /\
            work_order_id w = wid.
Proof.
  intros H. apply in_map_iff in H. destruct H as (w & Hid & Hin).
  rewrite prioritize_work_orders_sort in Hin.
  apply (Permutation_in _ (sort_values_perm _)) in Hin.
  apply filter_In in Hin. destruct Hin as [Hin Hp].
  exists w. repeat split; trivial.
  unfold is_pending in Hp. now destruct (status w).
Qed.

Section Completion.
Variable clock : nat -> Z.

Lemma allocate_resources_returns wid s :
  exists b s', allocate_resources clock wid s = Returned b s'.
Proof.
  destruct (allocate_resources_cases clock wid s)
    as [[_ ->]|[(w & _ & _ & ->)|(w & o & m & sc & s' & _ & _ & -> & _)]];
    eauto.
Qed.

Lemma allocate_all_returns ids res s :
  exists res' s', allocate_all clock ids res s = Returned res' s'.
Proof.
  revert res s. induction ids as [|wid r IH]; intros res s; simpl; eauto.
  destruct (allocate_resources_returns wid s) as (b & s' & ->). simpl.
  apply IH.
Qed.

Lemma process_allocations_returns s :
  exists res s', process_allocations clock s = Returned res s'.
Proof. apply allocate_all_returns. Qed.

Lemma handle_operator_available_returns oid s :
  exists s', handle_operator_available clock oid s = Returned tt s'.
Proof.
  unfold handle_operator_available.
  destruct (dict_get operator_id oid (operators s)); eauto.
  destruct (Nat.ltb _ _); eauto.
  destruct (process_allocations_returns
              (update_operator oid (set_op_assignment AVAILABLE None) s))
    as (res & s' & ->). simpl. eauto.
Qed.

Lemma allocate_all_post_in (P : Engine -> Prop) ids res s :
  (forall wid, In wid ids ->
     forall s, P s -> post P (allocate_resources clock wid s)) ->
  P s -> post P (allocate_all clock ids res s).
Proof.
  revert res s. induction ids as [|wid r IH]; intros res s Ha H; simpl.
  - exact H.
  - apply post_bind; [apply Ha; [now left|exact H]|].
    intros ok s' H'. apply IH; [|exact H'].
    intros wid' Hin. apply Ha. now right.
Qed.

(** An allocation for another work order leaves a work order as it is. *)
Lemma allocate_resources_other wid wid' s :
  wid' <> wid ->
  dict_get work_order_id wid
    (work_orders (final_state (allocate_resources clock wid' s))) =
  dict_get work_order_id wid (work_orders s).
Proof.
  intros Hne.
  destruct (allocate_resources_cases clock wid' s)
    as [[_ ->]|[(w & _ & _ & ->)|(w & o & m & sc & s' & _ & _ & -> & He)]];
    simpl.
  - reflexivity.
  - now rewrite dict_get_update_other by (reflexivity || auto).
  - destruct He as (_ & _ & Hother & _). apply Hother. auto.
Qed.

Lemma allocate_resources_same_ids wid s :
  same_ids s (final_state (allocate_resources clock wid s)).
Proof.
  destruct (allocate_resources_cases clock wid s)
    as [[_ ->]|[(w & _ & _ & ->)|(w & o & m & sc & s' & _ & _ & -> & He)]];
    simpl.
  - apply same_ids_refl.
  - unfold same_ids. simpl. rewrite dict_update_keys by reflexivity.
    now repeat split.
  - apply He.
Qed.

Lemma allocate_resources_available_kept wid s :
  available_kept s (final_state (allocate_resources clock wid s)).
Proof.
  destruct (allocate_resources_cases clock wid s)
    as [[_ ->]|[(w & _ & _ & ->)|(w & o & m & sc & s' & _ & _ & -> & He)]];
    simpl.
  - apply available_kept_refl.
  - exact (available_kept_refl s).
  - destruct He as (Hs & _).
    eapply materials_shifted_available_kept. exact Hs.
Qed.

(** The bulk pass leaves a work order that is not PENDING as it is. *)
Lemma process_allocations_keeps wid wc s :
  NoDup (map work_order_id (work_orders s)) ->
  dict_get work_order_id wid (work_orders s) = Some wc ->
  status wc <> PENDING ->
  post (fun s' => dict_get work_order_id wid (work_orders s') = Some wc)
    (process_allocations clock s).
Proof.
  intros Hnd Hg Hst. unfold process_allocations.
  apply allocate_all_post_in; [|exact Hg].
  intros wid' Hin s1 H1. unfold post.
  rewrite allocate_resources_other; [exact H1|].
  intros ->. apply prioritized_ids in Hin.
  destruct Hin as (w & Hw & Hp & Hid).
  pose proof (dict_get_unique work_order_id _ w Hnd Hw) as Hu.
  rewrite Hid, Hg in Hu. injection Hu as ->. contradiction.
Qed.

Lemma complete_and_release_returns wid s w :
  materials_present w s ->
  exists s1,
    complete_and_release clock wid w s = Returned tt s1 /\
    consumed w s s1 /\
    operators s1 = operators s /\ machines s1 = machines s /\
    work_orders s1 =
      dict_update work_order_id wid (set_completed (clock (now_calls s)))
        (work_orders s).
Proof.
  intros Hp. unfold complete_and_release. simpl.
  match goal with
  | |- context [release_materials _ ?s2] =>
      destruct (release_materials_returns (required_materials w) s2)
        as (s1 & Hr & Ho & Hm & Hw & _ & _ & Hs)
  end; [exact Hp|].
  exists s1. split; [exact Hr|]. split; [exact Hs|]. auto.
Qed.

Lemma dict_update_in_unique {A : Type} (key : A -> string) (f : A -> A)
  k d x :
  NoDup (map key d) -> In x (dict_update key k f d) ->
  (In x d /\ key x <> k) \/
  (exists y, dict_get key k d = Some y /\ x = f y).
Proof.
  induction d as [|y r IH]; simpl; [tauto|].
  intros Hnd. inversion Hnd as [|? ? Hy Hr]; subst.
  destruct (String.eqb_spec (key y) k) as [E|E]; simpl.
  - intros [<-|H]; [right; now exists y|]. left. split; [now right|].
    intros Hk. apply Hy. rewrite E, <- Hk. now apply in_map.
  - intros [<-|H]; [left; split; [now left|exact E]|].
    destruct (IH Hr H) as [[H1 H2]|H']; [left; split; [now right|exact H2]|].
    now right.
Qed.

Lemma no_pending_after_completion wid t s w :
  NoDup (map work_order_id (work_orders s)) ->
  no_other_pending wid s ->
  dict_get work_order_id wid (work_orders s) = Some w ->
  filter is_pending
    (dict_update work_order_id wid (set_completed t) (work_orders s)) = [].
Proof.
  intros Hnd Hno Hg.
  destruct (filter is_pending _) as [|x l] eqn:E; [reflexivity|].
  assert (Hin : In x (filter is_pending
                        (dict_update work_order_id wid (set_completed t)
                           (work_orders s)))) by (rewrite E; now left).
  apply filter_In in Hin. destruct Hin as [Hin Hp].
  apply dict_update_in_unique in Hin; [|exact Hnd].
  destruct Hin as [[Hin Hk]|(y & _ & ->)]; [|discriminate].
  exfalso. apply Hk, Hno; [exact Hin|].
  unfold is_pending in Hp. now destruct (status x).
Qed.

(** Freeing the resources keeps the identifiers and the available
    quantities. *)
Lemma free_resources_available_kept wid s :
  available_kept s (final_state (free_resources clock wid s)).
Proof.
  set (P := available_kept s).
  assert (Pa : forall wid' s1, P s1 ->
               post P (allocate_resources clock wid' s1)).
  { intros wid' s1 H1. unfold post, P.
    eapply available_kept_trans; [exact H1|].
    apply allocate_resources_available_kept. }
  assert (Po : forall s1 k f,
             (forall o, operator_id (f o) = operator_id o) ->
             P s1 -> P (update_operator k f s1)) by (intros; assumption).
  assert (Pm : forall s1 k f,
             (forall m, machine_id (f m) = machine_id m) ->
             P s1 -> P (update_machine k f s1)) by (intros; assumption).
  change (post P (free_resources clock wid s)).
  unfold free_resources. apply post_bind.
  - destruct (truthy_id _); [|apply available_kept_refl].
    apply (handle_operator_available_post clock P); auto.
    apply available_kept_refl.
  - intros _ s1 H1. destruct (truthy_id _); [|exact H1].
    now apply release_machine_post.
Qed.

(** Freeing the resources leaves a completed work order as it is. *)
Lemma free_resources_keeps wid wc s :
  NoDup (map work_order_id (work_orders s)) ->
  dict_get work_order_id wid (work_orders s) = Some wc ->
  status wc <> PENDING ->
  post (fun s' => dict_get work_order_id wid (work_orders s') = Some wc)
    (free_resources clock wid s).
Proof.
  intros Hnd Hg Hst. unfold free_resources. apply post_bind.
  - destruct (truthy_id _) as [oid|]; [|exact Hg].
    unfold handle_operator_available.
    destruct (dict_get operator_id oid (operators s)); [|exact Hg].
    destruct (Nat.ltb _ _); [|exact Hg].
    apply post_discard. now apply process_allocations_keeps.
  - intros _ s1 H1. destruct (truthy_id _) as [mid|]; [|exact H1].
    unfold release_machine.
    destruct (dict_get machine_id mid (machines s1)); exact H1.
Qed.

(** Without a cascading bulk pass the materials stay as the release loop
    left them. *)
Lemma free_resources_no_cascade wid s :
  truthy (assigned_operator_of wid s) = false \/
  filter is_pending (work_orders s) = [] ->
  materials (final_state (free_resources clock wid s)) = materials s.
Proof.
  intros H. unfold free_resources.
  assert (Hm : forall s1 : Engine,
             materials s1 = materials s ->
             materials
               (final_state
                  (match truthy_id (assigned_machine_of wid s1) with
                   | Some mid => release_machine mid s1
                   | None => Returned tt s1
                   end)) = materials s).
  { intros s1 H1. destruct (truthy_id _) as [mid|]; [|exact H1].
    unfold release_machine.
    destruct (dict_get machine_id mid (machines s1)); exact H1. }
  unfold truthy in H.
  destruct (truthy_id (assigned_operator_of wid s)) as [oid|].
  - destruct H as [H|H]; [discriminate|].
    unfold handle_operator_available.
    destruct (dict_get operator_id oid (operators s)); simpl.
    + rewrite H. simpl. now apply Hm.
    + now apply Hm.
  - simpl. now apply Hm.
Qed.

(** The marking of the work order survives the release loop, whether it
    returns or raises. *)
Lemma release_materials_work_orders reqs s :
  work_orders (final_state (release_materials reqs s)) = work_orders s.
Proof.
  revert s. induction reqs as [|r reqs IH]; intros s; simpl; [reflexivity|].
  destruct (dict_get material_id (req_material_id r) (materials s));
    [|reflexivity].
  now rewrite IH.
Qed.

(** What the completion handler does to the materials. *)
Lemma completion_materials wid s w :
  dict_get work_order_id wid (work_orders s) = Some w ->
  materials_present w s ->
  exists s1,
    complete_and_release clock wid w s = Returned tt s1 /\
    handle_work_order_completion clock wid s = free_resources clock wid s1 /\
    consumed w s s1 /\
    available_consumed w s
      (final_state (handle_work_order_completion clock wid s)) /\
    (truthy (assigned_operator w) = false \/
     (NoDup (map work_order_id (work_orders s)) /\ no_other_pending wid s) ->
     materials (final_state (handle_work_order_completion clock wid s)) =
     materials s1).
Proof.
  intros Hg Hp.
  destruct (complete_and_release_returns wid s w Hp)
    as (s1 & Hr & Hc & Ho & Hm & Hw).
  assert (Hh : handle_work_order_completion clock wid s =
               free_resources clock wid s1).
  { unfold handle_work_order_completion. now rewrite Hg, Hr. }
  exists s1. split; [exact Hr|]. split; [exact Hh|]. split; [exact Hc|].
  rewrite Hh. split.
  - intros k mat Hk. destruct Hc as [_ Hc].
    destruct (Hc k mat Hk) as (m1 & G1 & _ & A1).
    destruct (free_resources_available_kept wid s1) as [_ Hk2].
    destruct (Hk2 k m1 G1) as (m2 & G2 & A2).
    exists m2. split; [exact G2|]. rewrite A2, A1. ring.
  - intros Hno. apply free_resources_no_cascade.
    unfold assigned_operator_of. rewrite Hw.
    rewrite dict_get_update_same by reflexivity. rewrite Hg. simpl.
    destruct Hno as [Hno|[Hnd Hno]]; [now left|right].
    now apply (no_pending_after_completion wid _ s w).
Qed.

(** C7 (amended).  When every material the work order requires is in the
    catalog, [handle_work_order_completion] consumes them: its release
    loop lowers [quantity_available] and [quantity_reserved] of every
    material by what the work order requires of it (the sum of its
    requirements on that material), and [quantity_available] is lower by
    exactly that at the end of the handler.  [quantity_reserved] is lower
    by that amount at the end of the handler too when no bulk pass follows
    (the work order has no assigned operator, or no other work order is
    PENDING); otherwise the pass that follows the release of the operator
    may reserve material for the work orders it starts. *)
Theorem handle_work_order_completion_consumes :
  forall (wid : string) (s : Engine) (w : WorkOrder),
    dict_get work_order_id wid (work_orders s) = Some w ->
    materials_present w s ->
    (exists s1,
       complete_and_release clock wid w s = Returned tt s1 /\
       handle_work_order_completion clock wid s =
         free_resources clock wid s1 /\
       consumed w s s1) /\
    available_consumed w s
      (final_state (handle_work_order_completion clock wid s)) /\
    (truthy (assigned_operator w) = false \/
     (NoDup (map work_order_id (work_orders s)) /\ no_other_pending wid s) ->
     consumed w s (final_state (handle_work_order_completion clock wid s))).
Proof.
  intros wid s w Hg Hp.
  destruct (completion_materials wid s w Hg Hp)
    as (s1 & Hr & Hh & Hc & Ha & Hn).
  split; [exists s1; auto|]. split; [exact Ha|].
  intros Hno. specialize (Hn Hno).
  unfold consumed, materials_shifted in *. rewrite Hn. exact Hc.
Qed.

Lemma completion_status_independent wid st s :
  handle_work_order_completion clock wid
    (update_work_order wid (set_status st) s) =
  handle_work_order_completion clock wid s.
Proof.
  unfold handle_work_order_completion. simpl.
  rewrite dict_get_update_same by reflexivity.
  destruct (dict_get work_order_id wid (work_orders s)) as [w|] eqn:Hg.
  - simpl. unfold complete_and_release. simpl.
    unfold update_work_order. simpl.
    rewrite dict_update_twice by reflexivity. reflexivity.
  - simpl. unfold update_work_order.
    rewrite dict_update_absent by exact Hg. now destruct s.
Qed.

Lemma completion_completed wid s w :
  NoDup (map work_order_id (work_orders s)) ->
  dict_get work_order_id wid (work_orders s) = Some w ->
  dict_get work_order_id wid
    (work_orders (final_state (handle_work_order_completion clock wid s))) =
  Some (set_completed (clock (now_calls s)) w).
Proof.
  intros Hnd Hg. unfold handle_work_order_completion. rewrite Hg.
  change (post (fun s' => dict_get work_order_id wid (work_orders s') =
                          Some (set_completed (clock (now_calls s)) w))
            (bind (complete_and_release clock wid w s)
               (fun _ s' => free_resources clock wid s'))).
  assert (Hs2 : forall s2,
             work_orders s2 =
               dict_update work_order_id wid
                 (set_completed (clock (now_calls s))) (work_orders s) ->
             dict_get work_order_id wid (work_orders s2) =
               Some (set_completed (clock (now_calls s)) w) /\
             NoDup (map work_order_id (work_orders s2))).
  { intros s2 ->. rewrite dict_get_update_same by reflexivity.
    rewrite Hg. split; [reflexivity|].
    now rewrite dict_update_keys by reflexivity. }
  unfold complete_and_release. simpl.
  match goal with
  | |- context [release_materials ?r ?s2] =>
      pose proof (release_materials_work_orders r s2) as Hrel;
      destruct (release_materials r s2) as [[] s3|k s3]
  end; simpl in *.
  - destruct (Hs2 s3 Hrel) as [G N].
    now apply free_resources_keeps.
  - unfold post. simpl. now apply Hs2.
Qed.

Lemma same_ids_update_operator s0 s k f :
  (forall o, operator_id (f o) = operator_id o) ->
  same_ids s0 s -> same_ids s0 (update_operator k f s).
Proof.
  intros Hf (A & B & C & D). unfold same_ids. simpl.
  rewrite dict_update_keys by exact Hf. auto.
Qed.

Lemma same_ids_update_machine s0 s k f :
  (forall m, machine_id (f m) = machine_id m) ->
  same_ids s0 s -> same_ids s0 (update_machine k f s).
Proof.
  intros Hf (A & B & C & D). unfold same_ids. simpl.
  rewrite dict_update_keys by exact Hf. auto.
Qed.

Lemma same_ids_update_work_order s0 s k f :
  (forall w, work_order_id (f w) = work_order_id w) ->
  same_ids s0 s -> same_ids s0 (update_work_order k f s).
Proof.
  intros Hf (A & B & C & D). unfold same_ids. simpl.
  rewrite dict_update_keys by exact Hf. auto.
Qed.

Lemma same_ids_update_material s0 s k f :
  (forall m, material_id (f m) = material_id m) ->
  same_ids s0 s -> same_ids s0 (update_material k f s).
Proof.
  intros Hf (A & B & C & D). unfold same_ids. simpl.
  rewrite dict_update_keys by exact Hf. auto.
Qed.

Lemma same_ids_map_work_orders s0 s f :
  (forall w, work_order_id (f w) = work_order_id w) ->
  same_ids s0 s -> same_ids s0 (with_work_orders s (map f (work_orders s))).
Proof.
  intros Hf (A & B & C & D). unfold same_ids. simpl.
  rewrite map_map. rewrite (map_ext _ work_order_id Hf). auto.
Qed.

Lemma same_ids_allocate s0 wid s :
  same_ids s0 s -> post (same_ids s0) (allocate_resources clock wid s).
Proof.
  intros H. unfold post. eapply same_ids_trans; [exact H|].
  apply allocate_resources_same_ids.
Qed.

Lemma handle_operator_available_same_ids oid s :
  same_ids s (final_state (handle_operator_available clock oid s)).
Proof.
  apply (handle_operator_available_post clock (same_ids s)).
  - intros. now apply same_ids_update_operator.
  - intros. now apply same_ids_allocate.
  - apply same_ids_refl.
Qed.

Lemma free_resources_returns wid wc s :
  NoDup (map work_order_id (work_orders s)) ->
  dict_get work_order_id wid (work_orders s) = Some wc ->
  status wc <> PENDING ->
  (forall mid, truthy_id (assigned_machine wc) = Some mid ->
               In mid (map machine_id (machines s))) ->
  exists s', free_resources clock wid s = Returned tt s'.
Proof.
  intros Hnd Hg Hst Hm. unfold free_resources.
  assert (H1 : exists s1,
             match truthy_id (assigned_operator_of wid s) with
             | Some oid => handle_operator_available clock oid s
             | None => Returned tt s
             end = Returned tt s1 /\
             same_ids s s1 /\
             dict_get work_order_id wid (work_orders s1) = Some wc).
  { destruct (truthy_id (assigned_operator_of wid s)) as [oid|].
    - destruct (handle_operator_available_returns oid s) as (s1 & Hr).
      exists s1. split; [exact Hr|].
      pose proof (handle_operator_available_same_ids oid s) as Hi.
      rewrite Hr in Hi. split; [exact Hi|].
      unfold handle_operator_available in Hr.
      destruct (dict_get operator_id oid (operators s));
        [|now injection Hr as <-].
      destruct (Nat.ltb _ _); [|now injection Hr as <-].
      match type of Hr with
      | discard (process_allocations _ ?s0) = _ =>
          pose proof (process_allocations_keeps wid wc s0 Hnd Hg Hst) as Hk;
          destruct (process_allocations clock s0) as [res s2|k s2]
      end; simpl in Hr; [|discriminate].
      injection Hr as <-. exact Hk.
    - exists s. split; [reflexivity|]. split; [apply same_ids_refl|exact Hg]. }
  destruct H1 as (s1 & -> & (_ & Hi & _) & Hg1). simpl.
  unfold assigned_machine_of. rewrite Hg1.
  destruct (truthy_id (assigned_machine wc)) as [mid|] eqn:Em; eauto.
  unfold release_machine.
  destruct (dict_get_in machine_id mid (machines s1)) as (m & ->); eauto.
  rewrite Hi. now apply Hm.
Qed.

(** C10 (amended).  For every work order of the catalog the completion
    handler does the same whatever the status of the order: its outcome
    does not depend on it.  The order ends COMPLETED with progress 100 and
    the time of the call as completion time.  When the required materials
    are in the catalog the release loop lowers [quantity_reserved] and
    [quantity_available] of each by what the order requires of it;
    [quantity_available] stays so at the end of the handler, and
    [quantity_reserved] too when no bulk pass follows (otherwise the pass
    may reserve material for the work orders it starts); the handler
    returns when moreover the assigned machine, if any, is in the
    catalog. *)
Theorem handle_work_order_completion_any_status :
  forall (wid : string) (s : Engine) (w : WorkOrder),
    NoDup (map work_order_id (work_orders s)) ->
    dict_get work_order_id wid (work_orders s) = Some w ->
    (forall st,
       handle_work_order_completion clock wid
         (update_work_order wid (set_status st) s) =
       handle_work_order_completion clock wid s) /\
    completed_at (clock (now_calls s)) wid
      (final_state (handle_work_order_completion clock wid s)) /\
    (materials_present w s ->
     (exists s1,
        complete_and_release clock wid w s = Returned tt s1 /\
        consumed w s s1) /\
     available_consumed w s
       (final_state (handle_work_order_completion clock wid s)) /\
     (truthy (assigned_operator w) = false \/ no_other_pending wid s ->
      consumed w s
        (final_state (handle_work_order_completion clock wid s))) /\
     ((forall mid, truthy_id (assigned_machine w) = Some mid ->
                   In mid (map machine_id (machines s))) ->
      exists s',
        handle_work_order_completion clock wid s = Returned tt s')).
Proof.
  intros wid s w Hnd Hg.
  split; [intros st; apply completion_status_independent|].
  split.
  { exists (set_completed (clock (now_calls s)) w).
    split; [now apply completion_completed|]. now repeat split. }
  intros Hp.
  destruct (completion_materials wid s w Hg Hp)
    as (s1 & Hr & Hh & Hc & Ha & Hn).
  split; [exists s1; auto|]. split; [exact Ha|]. split.
  - intros Hno.
    assert (Hm : materials
                   (final_state (handle_work_order_completion clock wid s)) =
                 materials s1) by (apply Hn; tauto).
    unfold consumed, materials_shifted in *. rewrite Hm. exact Hc.
  - intros Hm. rewrite Hh.
    destruct (complete_and_release_returns wid s w Hp)
      as (s1' & Hr' & _ & _ & Hmach & Hw).
    rewrite Hr in Hr'. injection Hr' as <-.
    apply (free_resources_returns wid
             (set_completed (clock (now_calls s)) w)).
    + rewrite Hw. now rewrite dict_update_keys by reflexivity.
    + rewrite Hw, dict_get_update_same by reflexivity. now rewrite Hg.
    + discriminate.
    + rewrite Hmach. exact Hm.
Qed.
End Completion.

(** ** Consistency of the work orders in progress *)

Lemma wf_catalog_same_ids s s' : same_ids s s' -> wf_catalog s -> wf_catalog s'.
Proof.
  intros (A & B & _ & D) (Ho & Hm & Hw & He). unfold wf_catalog.
  now rewrite A, B, D.
Qed.

Lemma truthy_id_some o k : truthy_id o = Some k -> o = Some k /\ k <> "".
Proof.
  destruct o as [x|]; simpl; [|discriminate].
  destruct (String.eqb_spec x ""); [discriminate|].
  intros [= <-]. auto.
Qed.

Lemma truthy_id_key {A : Type} (key : A -> string) k d x :
  ~ In "" (map key d) -> dict_get key k d = Some x ->
  truthy_id (Some k) = Some k.
Proof.
  intros He Hg. apply dict_get_some in Hg. destruct Hg as [<- Hin].
  simpl. destruct (String.eqb_spec (key x) "") as [E|E]; [|reflexivity].
  exfalso. apply He. rewrite <- E. now apply in_map.
Qed.

Section Consistency.
Variable clock : nat -> Z.

(** A work order that leaves IN_PROGRESS. *)
Lemma consistent_leave s k f :
  (forall w, work_order_id (f w) = work_order_id w) ->
  (forall w, status (f w) <> IN_PROGRESS) ->
  in_progress_consistent s ->
  in_progress_consistent (update_work_order k f s).
Proof.
  intros Hid Hst H k' w' Hg Hs. simpl in Hg.
  apply (dict_get_update_inv work_order_id f Hid) in Hg.
  destruct Hg as (y & Hy & [->|[_ ->]]).
  - exact (H k' y Hy Hs).
  - now apply Hst in Hs.
Qed.

(** An operator that serves no work order in progress. *)
Lemma consistent_operator s oid f :
  (forall o, operator_id (f o) = operator_id o) ->
  ~ operator_busy oid s ->
  in_progress_consistent s ->
  in_progress_consistent (update_operator oid f s).
Proof.
  intros Hid Hb H k w Hg Hs.
  destruct (H k w Hg Hs) as (oid' & mid & o & m & A1 & A2 & A3 & A4).
  exists oid', mid, o, m. repeat split; try tauto.
  simpl. rewrite dict_get_update_other; [tauto|exact Hid|].
  intros ->. apply Hb. now exists k, w.
Qed.

Lemma consistent_machine s mid f :
  (forall m, machine_id (f m) = machine_id m) ->
  ~ machine_busy mid s ->
  in_progress_consistent s ->
  in_progress_consistent (update_machine mid f s).
Proof.
  intros Hid Hb H k w Hg Hs.
  destruct (H k w Hg Hs) as (oid & mid' & o & m & A1 & A2 & A3 & A4 & A5 & A6).
  exists oid, mid', o, m. repeat split; try tauto.
  simpl. rewrite dict_get_update_other; [tauto|exact Hid|].
  intros ->. apply Hb. now exists k, w.
Qed.

(** Under consistency an operator or a machine whose current work order
    is not in progress serves none. *)
Lemma operator_not_busy s oid o :
  in_progress_consistent s ->
  dict_get operator_id oid (operators s) = Some o ->
  (forall k w, op_current_work_order o = Some k ->
               dict_get work_order_id k (work_orders s) = Some w ->
               status w <> IN_PROGRESS) ->
  ~ operator_busy oid s.
Proof.
  intros H Ho Hc (k & w & Hg & Hs & Ha).
  destruct (H k w Hg Hs) as (oid' & mid & o' & m & A1 & _ & A3 & _ & A5 & _).
  rewrite Ha in A1. injection A1 as <-. rewrite Ho in A3.
  injection A3 as <-. exact (Hc k w A5 Hg Hs).
Qed.

Lemma machine_not_busy s mid m :
  in_progress_consistent s ->
  dict_get machine_id mid (machines s) = Some m ->
  (forall k w, m_current_work_order m = Some k ->
               dict_get work_order_id k (work_orders s) = Some w ->
               status w <> IN_PROGRESS) ->
  ~ machine_busy mid s.
Proof.
  intros H Hm Hc (k & w & Hg & Hs & Ha).
  destruct (H k w Hg Hs)
    as (oid & mid' & o & m' & _ & A2 & _ & _ & _ & A6 & _ & A8).
  rewrite Ha in A2. injection A2 as <-. rewrite Hm in A6.
  injection A6 as <-. exact (Hc k w A8 Hg Hs).
Qed.

Lemma operator_absent_not_busy s oid :
  in_progress_consistent s ->
  dict_get operator_id oid (operators s) = None -> ~ operator_busy oid s.
Proof.
  intros H Ho (k & w & Hg & Hs & Ha).
  destruct (H k w Hg Hs) as (oid' & mid & o' & m & A1 & _ & A3 & _).
  congruence.
Qed.

Lemma consistent_allocate wid s :
  consistent s -> post consistent (allocate_resources clock wid s).
Proof.
  intros [Hwf H]. unfold post.
  split; [eapply wf_catalog_same_ids;
          [apply allocate_resources_same_ids|exact Hwf]|].
  destruct (allocate_resources_cases clock wid s)
    as [[_ ->]|[(w & _ & _ & ->)|(w & o & m & sc & s' & Hw & Hf & -> & He)]];
    simpl.
  - exact H.
  - apply consistent_leave; trivial. discriminate.
  - destruct Hwf as (Hno & Hnm & _).
    apply find_best_allocation_some in Hf. destruct Hf as [Hc _].
    apply candidates_in in Hc. destruct Hc as (_ & _ & _ & Hav & Hidle).
    destruct He as (_ & Hwid & Hother & (o0 & Ho0 & Heq & Ho') & Hoo &
                    (m0 & Hm0 & Hmeq & Hm') & Hmo & _).
    specialize (Heq Hno). specialize (Hmeq Hnm). subst o0 m0.
    intros k w' Hg Hs.
    destruct (String.eqb_spec k wid) as [->|Hk].
    + rewrite Hwid in Hg. injection Hg as <-.
      eexists _, _, _, _. repeat split; try eassumption; reflexivity.
    + rewrite Hother in Hg by exact Hk.
      destruct (H k w' Hg Hs)
        as (oid & mid & o1 & m1 & A1 & A2 & A3 & A4 & A5 & A6 & A7 & A8).
      exists oid, mid, o1, m1. repeat split; trivial.
      * rewrite Hoo; [exact A3|]. intros ->. rewrite Ho0 in A3.
        injection A3 as <-. congruence.
      * rewrite Hmo; [exact A6|]. intros ->. rewrite Hm0 in A6.
        injection A6 as <-. congruence.
Qed.

Lemma consistent_process_allocations s :
  consistent s -> post consistent (process_allocations clock s).
Proof.
  apply (process_allocations_post clock consistent).
  intros wid s1. apply consistent_allocate.
Qed.

Lemma consistent_update_operator s oid f :
  (forall o, operator_id (f o) = operator_id o) ->
  ~ operator_busy oid s -> consistent s ->
  consistent (update_operator oid f s).
Proof.
  intros Hid Hb [Hwf H]. split; [|now apply consistent_operator].
  eapply wf_catalog_same_ids; [|exact Hwf].
  apply same_ids_update_operator; [exact Hid|apply same_ids_refl].
Qed.

Lemma consistent_update_machine s mid f :
  (forall m, machine_id (f m) = machine_id m) ->
  ~ machine_busy mid s -> consistent s ->
  consistent (update_machine mid f s).
Proof.
  intros Hid Hb [Hwf H]. split; [|now apply consistent_machine].
  eapply wf_catalog_same_ids; [|exact Hwf].
  apply same_ids_update_machine; [exact Hid|apply same_ids_refl].
Qed.

Lemma consistent_update_work_order s k f :
  (forall w, work_order_id (f w) = work_order_id w) ->
  (forall w, status (f w) <> IN_PROGRESS) ->
  consistent s -> consistent (update_work_order k f s).
Proof.
  intros Hid Hst [Hwf H]. split; [|now apply consistent_leave].
  eapply wf_catalog_same_ids; [|exact Hwf].
  apply same_ids_update_work_order; [exact Hid|apply same_ids_refl].
Qed.

Lemma consistent_maintenance mid d s :
  ~ machine_busy mid s -> consistent s ->
  post consistent (handle_machine_maintenance clock mid d s).
Proof.
  intros Hb H. unfold handle_machine_maintenance.
  destruct (dict_get machine_id mid (machines s)); [|exact H].
  unfold post. simpl.
  apply (consistent_update_machine (snd (now clock s))); trivial.
Qed.

Lemma consistent_operator_available oid s :
  ~ operator_busy oid s -> consistent s ->
  post consistent (handle_operator_available clock oid s).
Proof.
  intros Hb H. unfold handle_operator_available.
  destruct (dict_get operator_id oid (operators s)); [|exact H].
  assert (H1 : consistent
                 (update_operator oid (set_op_assignment AVAILABLE None) s))
    by now apply consistent_update_operator.
  destruct (Nat.ltb _ _); [|exact H1].
  now apply post_discard, consistent_process_allocations.
Qed.

Lemma consistent_delivered mid q s :
  consistent s -> post consistent (handle_material_delivered clock mid q s).
Proof.
  intros [Hwf H]. unfold handle_material_delivered.
  destruct (dict_get material_id mid (materials s)); [|now split].
  set (s1 := update_material mid _ s).
  set (f := fun w => if to_unblock mid w then set_status PENDING w else w).
  assert (Hf : forall w, work_order_id (f w) = work_order_id w)
    by (intros w; unfold f; now destruct (to_unblock mid w)).
  assert (H2 : consistent (with_work_orders s1 (map f (work_orders s1)))).
  { split.
    - eapply wf_catalog_same_ids; [|exact Hwf].
      apply same_ids_map_work_orders; [exact Hf|].
      apply same_ids_update_material; [reflexivity|apply same_ids_refl].
    - intros k w' Hg Hs. simpl in Hg.
      rewrite (dict_get_map work_order_id f Hf) in Hg.
      destruct (dict_get work_order_id k (work_orders s)) as [y|] eqn:E;
        [|discriminate].
      injection Hg as <-. unfold f in Hs |- *.
      destruct (to_unblock mid y); [discriminate|].
      exact (H k y E Hs). }
  destruct (Nat.ltb _ _); [|exact H2].
  now apply post_discard, consistent_process_allocations.
Qed.

Lemma consistent_ext s s' :
  operators s' = operators s -> machines s' = machines s ->
  work_orders s' = work_orders s -> consistent s -> consistent s'.
Proof.
  intros Ho Hm Hw [Hwf H]. unfold consistent, wf_catalog,
    in_progress_consistent in *.
  rewrite Ho, Hm, Hw. now split.
Qed.

(** The operator, or the machine, of a work order that has left
    IN_PROGRESS is released. *)
Lemma consistent_freed_operator s oid k f :
  (forall o, operator_id (f o) = operator_id o) ->
  consistent s ->
  (forall o, dict_get operator_id oid (operators s) = Some o ->
             op_current_work_order o = Some k) ->
  (forall w, dict_get work_order_id k (work_orders s) = Some w ->
             status w <> IN_PROGRESS) ->
  consistent (update_operator oid f s).
Proof.
  intros Hf H Ho Hk. apply consistent_update_operator; trivial.
  destruct (dict_get operator_id oid (operators s)) as [o|] eqn:E.
  - apply (operator_not_busy s oid o); [apply H|exact E|].
    intros k' w Hc Hg. rewrite (Ho o eq_refl) in Hc. injection Hc as <-.
    now apply Hk.
  - intros (k' & w & Hg & Hs & Ha). destruct H as [_ HJ].
    destruct (HJ k' w Hg Hs) as (oid' & ? & ? & ? & A1 & _ & A3 & _).
    congruence.
Qed.

Lemma consistent_freed_machine s mid k f :
  (forall m, machine_id (f m) = machine_id m) ->
  consistent s ->
  (forall m, dict_get machine_id mid (machines s) = Some m ->
             m_current_work_order m = Some k) ->
  (forall w, dict_get work_order_id k (work_orders s) = Some w ->
             status w <> IN_PROGRESS) ->
  consistent (update_machine mid f s).
Proof.
  intros Hf H Hm Hk. apply consistent_update_machine; trivial.
  destruct (dict_get machine_id mid (machines s)) as [m|] eqn:E.
  - apply (machine_not_busy s mid m); [apply H|exact E|].
    intros k' w Hc Hg. rewrite (Hm m eq_refl) in Hc. injection Hc as <-.
    now apply Hk.
  - intros (k' & w & Hg & Hs & Ha). destruct H as [_ HJ].
    destruct (HJ k' w Hg Hs)
      as (? & mid' & ? & ? & _ & A2 & _ & _ & _ & A6 & _).
    congruence.
Qed.

Lemma consistent_release_operator s oid k :
  consistent s ->
  (forall o, dict_get operator_id oid (operators s) = Some o ->
             op_current_work_order o = Some k) ->
  (forall w, dict_get work_order_id k (work_orders s) = Some w ->
             status w <> IN_PROGRESS) ->
  post consistent (release_operator oid s).
Proof.
  intros H Ho Hk. unfold release_operator.
  destruct (dict_get operator_id oid (operators s)) as [o|] eqn:E;
    [|exact H].
  unfold post. simpl. apply (consistent_freed_operator s oid k); trivial.
  now rewrite E.
Qed.

Lemma consistent_release_machine s mid k :
  consistent s ->
  (forall m, dict_get machine_id mid (machines s) = Some m ->
             m_current_work_order m = Some k) ->
  (forall w, dict_get work_order_id k (work_orders s) = Some w ->
             status w <> IN_PROGRESS) ->
  post consistent (release_machine mid s).
Proof.
  intros H Hm Hk. unfold release_machine.
  destruct (dict_get machine_id mid (machines s)) as [m|] eqn:E;
    [|exact H].
  unfold post. simpl. apply (consistent_freed_machine s mid k); trivial.
  now rewrite E.
Qed.

Lemma release_operator_frame oid s :
  work_orders (final_state (release_operator oid s)) = work_orders s /\
  machines (final_state (release_operator oid s)) = machines s.
Proof.
  unfold release_operator.
  destruct (dict_get operator_id oid (operators s)); now split.
Qed.

Lemma release_machine_frame mid s :
  work_orders (final_state (release_machine mid s)) = work_orders s /\
  operators (final_state (release_machine mid s)) = operators s.
Proof.
  unfold release_machine.
  destruct (dict_get machine_id mid (machines s)); now split.
Qed.

Lemma post_bind_weaken {A B : Type} (P R : Engine -> Prop) (c : outcome A)
  (f : A -> Engine -> outcome B) :
  post P c -> (forall s, P s -> R s) ->
  (forall a s, P s -> post R (f a s)) -> post R (bind c f).
Proof. destruct c as [a s|k s]; unfold post; simpl; auto. Qed.

Lemma block_affected_consistent l s :
  consistent s ->
  NoDup (map work_order_id l) ->
  (forall wo, In wo l ->
     dict_get work_order_id (work_order_id wo) (work_orders s) = Some wo) ->
  post consistent (block_affected l s).
Proof.
  revert s. induction l as [|wo r IH]; intros s H Hnd Hcur; [exact H|].
  simpl block_affected. inversion Hnd as [|? ? Hwo Hr]; subst.
  assert (Hrest : forall s', work_orders s' = work_orders s ->
            forall wo', In wo' r ->
              dict_get work_order_id (work_order_id wo') (work_orders s') =
              Some wo').
  { intros s' -> wo' Hin. apply Hcur. now right. }
  destruct (WorkOrderStatus_eqb (status wo) IN_PROGRESS) eqn:Est.
  2:{ apply IH; trivial. now apply Hrest. }
  assert (Hst : status wo = IN_PROGRESS) by now destruct (status wo).
  set (k := work_order_id wo).
  assert (Hg : dict_get work_order_id k (work_orders s) = Some wo)
    by (apply Hcur; now left).
  destruct H as [Hwf HJ].
  destruct (HJ k wo Hg Hst)
    as (oid & mid & o & m & A1 & A2 & A3 & A4 & A5 & A6 & A7 & A8).
  set (s1 := update_work_order k (set_status BLOCKED) s).
  assert (H1 : consistent s1).
  { apply consistent_update_work_order; trivial; [discriminate|now split]. }
  assert (Hk1 : forall w, dict_get work_order_id k (work_orders s1) = Some w ->
                          status w <> IN_PROGRESS).
  { intros w. simpl. rewrite dict_get_update_same by reflexivity.
    rewrite Hg. simpl. now intros [= <-]. }
  assert (Hrest1 : forall s', work_orders s' = work_orders s1 ->
            forall wo', In wo' r ->
              dict_get work_order_id (work_order_id wo') (work_orders s') =
              Some wo').
  { intros s' -> wo' Hin. simpl.
    rewrite dict_get_update_other; [now apply Hrest|reflexivity|].
    intros E. apply Hwo. unfold k in E. rewrite <- E. now apply in_map. }
  apply (post_bind_weaken
           (fun s' => consistent s' /\ work_orders s' = work_orders s1 /\
                      machines s' = machines s1)
           consistent).
  - destruct (truthy_id (assigned_operator wo)) as [oid'|] eqn:Eo;
      [|exact (conj H1 (conj eq_refl eq_refl))].
    apply truthy_id_some in Eo. destruct Eo as [Eo _].
    rewrite A1 in Eo. injection Eo as <-.
    unfold post.
    destruct (release_operator_frame oid s1) as [F1 F2].
    split; [|now split].
    apply (consistent_release_operator s1 oid k); trivial.
    intros o'. simpl. rewrite A3. now intros [= <-].
  - tauto.
  - intros _ s2 (H2 & Hw2 & Hm2).
    apply (post_bind_weaken
             (fun s' => consistent s' /\ work_orders s' = work_orders s1)
             consistent).
    + destruct (truthy_id (assigned_machine wo)) as [mid'|] eqn:Em;
        [|exact (conj H2 Hw2)].
      apply truthy_id_some in Em. destruct Em as [Em _].
      rewrite A2 in Em. injection Em as <-.
      unfold post.
      destruct (release_machine_frame mid s2) as [F1 F2].
      split; [|congruence].
      apply (consistent_release_machine s2 mid k); trivial.
      * intros m'. rewrite Hm2. simpl. rewrite A6. now intros [= <-].
      * intros w. rewrite Hw2. apply Hk1.
    + tauto.
    + intros _ s3 (H3 & Hw3). apply IH; trivial. now apply Hrest1.
Qed.

Lemma consistent_shortage mid s :
  consistent s -> post consistent (handle_material_shortage mid s).
Proof.
  intros H. unfold handle_material_shortage.
  destruct (dict_get material_id mid (materials s)); [|exact H].
  destruct H as [Hwf HJ]. pose proof Hwf as (_ & _ & Hnd & _).
  apply block_affected_consistent; [now split| |].
  - clear -Hnd. induction (work_orders s) as [|w l IH]; simpl; [constructor|].
    inversion Hnd as [|? ? Hw Hl]; subst.
    destruct (requires mid w); simpl; [|now apply IH].
    constructor; [|now apply IH].
    intros Hin. apply Hw. apply in_map_iff in Hin.
    destruct Hin as (x & Hx & Hin). apply filter_In in Hin.
    rewrite <- Hx. apply in_map. tauto.
  - intros wo Hin. apply filter_In in Hin.
    now apply dict_get_unique.
Qed.

Lemma release_materials_frame reqs s :
  operators (final_state (release_materials reqs s)) = operators s /\
  machines (final_state (release_materials reqs s)) = machines s /\
  work_orders (final_state (release_materials reqs s)) = work_orders s.
Proof.
  revert s. induction reqs as [|r reqs IH]; intros s; simpl; [now split|].
  destruct (dict_get material_id (req_material_id r) (materials s));
    [|now split].
  match goal with
  | |- context [release_materials reqs ?s1] =>
      destruct (IH s1) as (A & B & C)
  end.
  rewrite A, B, C. now split.
Qed.

(** An allocation leaves a machine that is not IDLE as it is. *)
Lemma allocate_resources_machine_kept wid mid m s :
  NoDup (map machine_id (machines s)) ->
  dict_get machine_id mid (machines s) = Some m ->
  m_current_status m <> IDLE ->
  dict_get machine_id mid
    (machines (final_state (allocate_resources clock wid s))) = Some m.
Proof.
  intros Hnd Hm Hst.
  destruct (allocate_resources_cases clock wid s)
    as [[_ ->]|[(w & _ & _ & ->)|(w & o & mc & sc & s' & _ & Hf & -> & He)]];
    simpl; trivial.
  apply find_best_allocation_some in Hf. destruct Hf as [Hc _].
  apply candidates_in in Hc. destruct Hc as (_ & _ & _ & _ & Hidle).
  destruct He as (_ & _ & _ & _ & _ & (m0 & Hm0 & Hmeq & _) & Hmo & _).
  specialize (Hmeq Hnd). subst m0.
  rewrite Hmo; [exact Hm|]. intros ->. congruence.
Qed.

Lemma consistent_completion wid s :
  keeps_assignments (run_event (work_order_complete wid)) s ->
  consistent s ->
  post consistent (handle_work_order_completion clock wid s).
Proof.
  intros Hcond H. unfold handle_work_order_completion.
  destruct (dict_get work_order_id wid (work_orders s)) as [w|] eqn:Hg;
    [|exact H].
  simpl in Hcond. specialize (Hcond w Hg).
  unfold complete_and_release. simpl.
  set (t := clock (now_calls s)).
  set (wc := set_completed t w).
  match goal with
  | |- context [release_materials ?r ?s2] =>
      pose proof (release_materials_frame r s2) as (Fo & Fm & Fw);
      assert (H2 : consistent s2);
      [|destruct (release_materials r s2) as [[] s3|k3 s3]]
  end.
  { apply consistent_update_work_order; trivial; discriminate. }
  2:{ unfold post. simpl in *. revert H2. now apply consistent_ext. }
  simpl in Fo, Fm, Fw. simpl bind.
  assert (H3 : consistent s3) by (revert H2; now apply consistent_ext).
  assert (Hw3 : dict_get work_order_id wid (work_orders s3) = Some wc).
  { rewrite Fw, dict_get_update_same by reflexivity. now rewrite Hg. }
  unfold free_resources, assigned_operator_of. rewrite Hw3.
  change (assigned_operator wc) with (assigned_operator w).
  destruct Hcond as [Hst|[Hto Htm]].
  2:{ unfold truthy in Hto, Htm.
      destruct (truthy_id (assigned_operator w)); [discriminate|].
      simpl bind. unfold assigned_machine_of. rewrite Hw3.
      change (assigned_machine wc) with (assigned_machine w).
      destruct (truthy_id (assigned_machine w)); [discriminate|].
      exact H3. }
  destruct H as [Hwf HJ]. pose proof Hwf as (_ & Hndm & Hndw & _).
  destruct (HJ wid w Hg Hst)
    as (oid & mid & o & m & A1 & A2 & A3 & A4 & A5 & A6 & A7 & A8).
  assert (Hcomp : forall s', dict_get work_order_id wid (work_orders s') =
                             Some wc ->
                  forall w', dict_get work_order_id wid (work_orders s') =
                             Some w' -> status w' <> IN_PROGRESS).
  { intros s' -> w' [= <-]. discriminate. }
  apply (post_bind_weaken
           (fun s' => consistent s' /\
                      dict_get work_order_id wid (work_orders s') = Some wc /\
                      dict_get machine_id mid (machines s') = Some m)
           consistent).
  - rewrite A1.
    destruct (truthy_id (Some oid)) as [oid'|] eqn:Eo.
    2:{ unfold post. simpl. rewrite Fm. auto. }
    apply truthy_id_some in Eo. destruct Eo as [[= <-] _].
    unfold handle_operator_available. rewrite Fo, A3.
    set (s4 := update_operator oid (set_op_assignment AVAILABLE None) s3).
    assert (H4 : consistent s4).
    { apply (consistent_freed_operator s3 oid wid); trivial.
      - rewrite Fo, A3. now intros o' [= <-].
      - now apply Hcomp. }
    assert (P4 : consistent s4 /\
                 dict_get work_order_id wid (work_orders s4) = Some wc /\
                 dict_get machine_id mid (machines s4) = Some m).
    { split; [exact H4|]. split; [exact Hw3|]. simpl. now rewrite Fm. }
    destruct (Nat.ltb _ _); [|exact P4].
    apply post_discard. unfold process_allocations.
    apply allocate_all_post_in; [|exact P4].
    intros wid' Hin s5 (H5 & Hw5 & Hm5). unfold post.
    split; [now apply consistent_allocate|]. split.
    + rewrite allocate_resources_other; [exact Hw5|].
      intros ->. apply prioritized_ids in Hin.
      destruct Hin as (w' & Hw' & Hp & Hid).
      assert (Hnd4 : NoDup (map work_order_id (work_orders s4)))
        by apply H4.
      pose proof (dict_get_unique work_order_id _ w' Hnd4 Hw') as Hu.
      rewrite Hid in Hu. simpl in Hu. rewrite Hw3 in Hu.
      injection Hu as <-. discriminate.
    + apply allocate_resources_machine_kept; trivial; [apply H5|].
      congruence.
  - tauto.
  - intros _ s6 (H6 & Hw6 & Hm6). unfold assigned_machine_of.
    rewrite Hw6. change (assigned_machine wc) with (assigned_machine w).
    rewrite A2.
    destruct (truthy_id (Some mid)) as [mid'|] eqn:Em; [|exact H6].
    apply truthy_id_some in Em. destruct Em as [[= <-] _].
    apply (consistent_release_machine s6 mid wid); trivial.
    + rewrite Hm6. now intros m' [= <-].
    + now apply Hcomp.
Qed.

Lemma consistent_breakdown mid s :
  keeps_assignments (run_event (machine_breakdown mid)) s ->
  consistent s ->
  post consistent (handle_machine_breakdown clock mid s).
Proof.
  intros Hcond H. unfold handle_machine_breakdown.
  destruct (dict_get machine_id mid (machines s)) as [m|] eqn:Hm;
    [|exact H].
  simpl in Hcond.
  destruct (truthy_id (m_current_work_order m)) as [k0|] eqn:Et.
  2:{ unfold post. simpl.
      apply (consistent_update_machine s); trivial.
      apply (machine_not_busy s mid m); [apply H|exact Hm|].
      intros k w Hc Hg Hs. rewrite Hc in Et.
      destruct H as [(_ & _ & _ & He) _].
      rewrite (truthy_id_key work_order_id k _ w He Hg) in Et.
      discriminate. }
  pose proof (truthy_id_some _ _ Et) as [Hcur _].
  simpl work_orders.
  destruct (dict_get work_order_id k0 (work_orders s)) as [w0|] eqn:Hw0.
  2:{ unfold post. simpl.
      apply (consistent_update_machine s); trivial.
      apply (machine_not_busy s mid m); [apply H|exact Hm|].
      intros k w Hc Hg Hs. congruence. }
  specialize (Hcond m k0 w0 Hm Et Hw0).
  set (s2 := update_work_order k0 set_unassign_machine
               (update_machine mid (set_m_status BREAKDOWN) s)).
  assert (Hk2 : forall w, dict_get work_order_id k0 (work_orders s2) = Some w ->
                          status w <> IN_PROGRESS).
  { intros w. simpl. rewrite dict_get_update_same by reflexivity.
    rewrite Hw0. simpl. now intros [= <-]. }
  assert (H2 : consistent s2).
  { change (consistent
              (update_machine mid (set_m_status BREAKDOWN)
                 (update_work_order k0 set_unassign_machine s))).
    apply (consistent_freed_machine _ mid k0); trivial.
    - apply consistent_update_work_order; trivial. discriminate.
    - simpl. rewrite Hm. now intros m' [= <-]. }
  assert (Hrel : forall oid,
             truthy_id (assigned_operator w0) = Some oid ->
             post consistent (release_operator oid s2)).
  { intros oid Eo0. pose proof (truthy_id_some _ _ Eo0) as [Eo _].
    destruct Hcond as [Hst|Hto].
    2:{ unfold truthy in Hto. rewrite Eo0 in Hto. discriminate. }
    destruct H as [_ HJ].
    destruct (HJ k0 w0 Hw0 Hst) as (oid' & ? & o & ? & A1 & _ & A3 & _ & A5 & _).
    rewrite Eo in A1. injection A1 as <-.
    apply (consistent_release_operator s2 oid k0); trivial.
    simpl. rewrite A3. now intros o' [= <-]. }
  destruct (find_best_allocation s2 (set_unassign_machine w0))
    as [[[new_operator new_machine] score]|].
  - apply post_bind.
    + destruct (truthy_id (assigned_operator w0)) as [oid|] eqn:Eo;
        [|exact H2].
      destruct (negb _); [now apply Hrel|exact H2].
    + intros _ s3 H3. now apply post_discard, consistent_allocate.
  - destruct (truthy_id (assigned_operator w0)) as [oid|] eqn:Eo;
      [|exact H2].
    apply post_bind; [now apply Hrel|].
    intros _ s3 H3. now apply post_discard, consistent_process_allocations.
Qed.

(** C2 (amended).  In a catalog with distinct identifiers, the property
    that every work order IN_PROGRESS has an operator and a machine, the
    operator ASSIGNED and the machine RUNNING with that work order as
    current, is kept by [allocate_resources], [process_allocations],
    [material_shortage], [material_delivered] and unknown events; by
    [machine_breakdown] when the machine's current work order is in
    progress or has no operator; by [work_order_complete] when the work
    order is in progress or holds no reference; and by
    [machine_maintenance] and [operator_available] when the machine or the
    operator serves no work order in progress. *)
Theorem in_progress_consistent_preserved :
  forall (a : operation) (s : Engine),
    wf_catalog s -> in_progress_consistent s -> keeps_assignments a s ->
    wf_catalog (run clock a s) /\ in_progress_consistent (run clock a s).
Proof.
  intros a s Hwf HJ Hk. assert (H : consistent s) by now split.
  destruct a as [wid| |e]; simpl run.
  - now apply consistent_allocate.
  - now apply consistent_process_allocations.
  - destruct e; simpl handle_event.
    + now apply consistent_breakdown.
    + now apply consistent_maintenance.
    + now apply consistent_operator_available.
    + now apply consistent_completion.
    + now apply consistent_shortage.
    + now apply consistent_delivered.
    + exact H.
Qed.
End Consistency.

(** ** Properties kept by every assignment *)

Section Kept.
Variable clock : nat -> Z.
Variable P : Engine -> Prop.

Hypothesis K_operator : forall s k st w,
  P s -> P (update_operator k (set_op_assignment st w) s).
Hypothesis K_machine : forall s k st w,
  P s -> P (update_machine k (set_m_assignment st w) s).
Hypothesis K_machine_status : forall s k st,
  P s -> P (update_machine k (set_m_status st) s).
Hypothesis K_maintenance : forall s k t,
  P s -> P (update_machine k (set_m_maintenance t) s).
Hypothesis K_status : forall s k st,
  P s -> P (update_work_order k (set_status st) s).
Hypothesis K_unassign : forall s k,
  P s -> P (update_work_order k set_unassign_machine s).
Hypothesis K_allocated : forall s k o m t,
  P s -> P (update_work_order k (set_allocated o m t) s).
Hypothesis K_completed : forall s k t,
  P s -> P (update_work_order k (set_completed t) s).
Hypothesis K_unblock : forall s mid,
  P s -> P (with_work_orders s (map (unblock mid) (work_orders s))).
Hypothesis K_now : forall s, P s -> P (snd (now clock s)).
Hypothesis K_reserve : forall s k q,
  P s -> P (update_material k (reserve q) s).
Hypothesis K_consume : forall s k q,
  P s -> P (update_material k (consume q) s).
Hypothesis K_deliver : forall s k q,
  P s -> P (update_material k (deliver q) s).
Hypothesis K_reallocation_time : forall s k t,
  P s -> P (with_reallocation_time k t s).

Lemma reserve_materials_kept reqs s :
  P s -> post P (reserve_materials reqs s).
Proof.
  revert s. induction reqs as [|r reqs IH]; intros s H; simpl; [exact H|].
  destruct (dict_get material_id (req_material_id r) (materials s));
    [|exact H].
  apply IH. now apply (K_reserve s _ (quantity r)).
Qed.

Lemma allocate_resources_kept wid s :
  P s -> post P (allocate_resources clock wid s).
Proof.
  intros H. unfold allocate_resources.
  destruct (dict_get work_order_id wid (work_orders s)) as [w|]; [|exact H].
  destruct (find_best_allocation s w) as [[[o m] sc]|];
    [|now apply K_status].
  apply post_bind; [now apply reserve_materials_kept|].
  intros _ s1 H1. unfold post. simpl.
  apply (K_reallocation_time
           (snd (now clock
                   (update_machine (machine_id m)
                      (set_m_assignment RUNNING (Some wid))
                      (update_operator (operator_id o)
                         (set_op_assignment ASSIGNED (Some wid))
                         (update_work_order wid
                            (set_allocated (operator_id o) (machine_id m)
                               (clock (now_calls s1)))
                            (snd (now clock s1)))))))).
  apply K_now, K_machine, K_operator, K_allocated, K_now, H1.
Qed.

Lemma allocate_all_kept ids res s :
  P s -> post P (allocate_all clock ids res s).
Proof.
  revert res s. induction ids as [|wid r IH]; intros res s H; simpl.
  - exact H.
  - apply post_bind; [now apply allocate_resources_kept|].
    intros ok s' H'. now apply IH.
Qed.

Lemma process_allocations_kept s :
  P s -> post P (process_allocations clock s).
Proof. intros H. now apply allocate_all_kept. Qed.

Lemma release_operator_kept k s : P s -> post P (release_operator k s).
Proof.
  intros H. unfold release_operator.
  destruct (dict_get operator_id k (operators s)); [|exact H].
  now apply K_operator.
Qed.

Lemma release_machine_kept k s : P s -> post P (release_machine k s).
Proof.
  intros H. unfold release_machine.
  destruct (dict_get machine_id k (machines s)); [|exact H].
  now apply K_machine.
Qed.

Lemma handle_machine_breakdown_kept mid s :
  P s -> post P (handle_machine_breakdown clock mid s).
Proof.
  intros H. unfold handle_machine_breakdown.
  assert (H2 : forall k,
             P (update_work_order k set_unassign_machine
                  (update_machine mid (set_m_status BREAKDOWN) s)))
    by (intros k; now apply K_unassign, K_machine_status).
  repeat post_step; auto using release_operator_kept,
    process_allocations_kept, allocate_resources_kept.
Qed.

Lemma handle_machine_maintenance_kept mid d s :
  P s -> post P (handle_machine_maintenance clock mid d s).
Proof.
  intros H. unfold handle_machine_maintenance.
  destruct (dict_get machine_id mid (machines s)); [|exact H].
  unfold post. simpl. now apply K_maintenance, K_now.
Qed.

Lemma handle_operator_available_kept oid s :
  P s -> post P (handle_operator_available clock oid s).
Proof.
  intros H. unfold handle_operator_available.
  destruct (dict_get operator_id oid (operators s)); [|exact H].
  destruct (Nat.ltb _ _); [|now apply K_operator].
  now apply post_discard, process_allocations_kept, K_operator.
Qed.

Lemma release_materials_kept reqs s :
  P s -> post P (release_materials reqs s).
Proof.
  revert s. induction reqs as [|r reqs IH]; intros s H; simpl; [exact H|].
  destruct (dict_get material_id (req_material_id r) (materials s));
    [|exact H].
  apply IH. now apply (K_consume s _ (quantity r)).
Qed.

Lemma handle_work_order_completion_kept wid s :
  P s -> post P (handle_work_order_completion clock wid s).
Proof.
  intros H. unfold handle_work_order_completion.
  destruct (dict_get work_order_id wid (work_orders s)) as [w|]; [|exact H].
  apply post_bind.
  - unfold complete_and_release. simpl. apply release_materials_kept.
    now apply K_completed, K_now.
  - intros _ s1 H1. unfold free_resources. apply post_bind.
    + destruct (truthy_id _); [|exact H1].
      now apply handle_operator_available_kept.
    + intros _ s2 H2. destruct (truthy_id _); [|exact H2].
      now apply release_machine_kept.
Qed.

Lemma block_affected_kept l s : P s -> post P (block_affected l s).
Proof.
  revert s. induction l as [|w l IH]; intros s H; simpl; [exact H|].
  destruct (WorkOrderStatus_eqb (status w) IN_PROGRESS); [|now apply IH].
  apply post_bind.
  - destruct (truthy_id _); [|now apply K_status].
    now apply release_operator_kept, K_status.
  - intros _ s2 H2. apply post_bind.
    + destruct (truthy_id _); [|exact H2]. now apply release_machine_kept.
    + intros _ s3 H3. now apply IH.
Qed.

Lemma handle_material_shortage_kept mid s :
  P s -> post P (handle_material_shortage mid s).
Proof.
  intros H. unfold handle_material_shortage.
  destruct (dict_get material_id mid (materials s)); [|exact H].
  now apply block_affected_kept.
Qed.

Lemma handle_material_delivered_kept mid q s :
  P s -> post P (handle_material_delivered clock mid q s).
Proof.
  intros H. unfold handle_material_delivered.
  destruct (dict_get material_id mid (materials s)); [|exact H].
  assert (H2 : P (with_work_orders (update_material mid (deliver q) s)
                    (map (unblock mid)
                       (work_orders (update_material mid (deliver q) s)))))
    by now apply K_unblock, K_deliver.
  destruct (Nat.ltb _ _); [|exact H2].
  now apply post_discard, process_allocations_kept.
Qed.
End Kept.

(** ** The catalog across the operations *)

Section Forall2Dict.
Context {A : Type} (key : A -> string) (R : A -> A -> Prop).

Lemma Forall2_refl_on (l : list A) : (forall x, R x x) -> Forall2 R l l.
Proof. intros H. induction l; constructor; auto. Qed.

Lemma Forall2_dict_update (f : A -> A) k l l' :
  (forall x y, R x y -> R x (f y)) ->
  Forall2 R l l' -> Forall2 R l (dict_update key k f l').
Proof.
  intros Hf H. induction H as [|x y l l' Hxy Hl IH]; simpl; [constructor|].
  destruct (String.eqb (key y) k); constructor; auto.
Qed.

Lemma Forall2_map_r (f : A -> A) l l' :
  (forall x y, R x y -> R x (f y)) ->
  Forall2 R l l' -> Forall2 R l (map f l').
Proof.
  intros Hf H. induction H; simpl; constructor; auto.
Qed.

Lemma Forall2_dict_get k l l' x' :
  (forall x y, R x y -> key y = key x) ->
  Forall2 R l l' -> dict_get key k l' = Some x' ->
  exists x, dict_get key k l = Some x /\ R x x'.
Proof.
  intros Hk H. induction H as [|x y l l' Hxy Hl IH]; simpl; [discriminate|].
  rewrite (Hk x y Hxy).
  destruct (String.eqb (key x) k).
  - intros [= <-]. now exists x.
  - exact IH.
Qed.

Lemma Forall2_dict_get_l k l l' x :
  (forall x y, R x y -> key y = key x) ->
  Forall2 R l l' -> dict_get key k l = Some x ->
  exists x', dict_get key k l' = Some x' /\ R x x'.
Proof.
  intros Hk H. induction H as [|y y' l l' Hxy Hl IH]; simpl; [discriminate|].
  rewrite (Hk y y' Hxy).
  destruct (String.eqb (key y) k).
  - intros [= <-]. now exists y'.
  - exact IH.
Qed.
End Forall2Dict.

Lemma same_profile_refl o : same_profile o o.
Proof. now repeat split. Qed.

Lemma same_equipment_refl m : same_equipment m m.
Proof. now repeat split. Qed.

Lemma same_demand_refl w : same_demand w w.
Proof. now repeat split. Qed.

Lemma same_catalog_refl s : same_catalog s s.
Proof.
  repeat split; apply Forall2_refl_on; intros;
    auto using same_profile_refl, same_equipment_refl, same_demand_refl.
Qed.

Lemma same_available_refl s : same_available s s.
Proof. apply Forall2_refl_on. now split. Qed.

Section Catalog.
Variable clock : nat -> Z.

Lemma same_catalog_operator s0 s k st w :
  same_catalog s0 s ->
  same_catalog s0 (update_operator k (set_op_assignment st w) s).
Proof.
  intros (A & B & C & D). repeat split; trivial.
  apply Forall2_dict_update; [|exact A]. now intros x y H.
Qed.

Lemma same_catalog_machine s0 s k (f : Machine -> Machine) :
  (forall m, same_equipment m (f m)) ->
  same_catalog s0 s -> same_catalog s0 (update_machine k f s).
Proof.
  intros Hf (A & B & C & D). repeat split; trivial.
  apply Forall2_dict_update; [|exact B].
  intros x y (E1 & E2 & E3 & E4 & E5).
  destruct (Hf y) as (F1 & F2 & F3 & F4 & F5).
  repeat split; congruence.
Qed.

Lemma same_catalog_work_order s0 s k (f : WorkOrder -> WorkOrder) :
  (forall w, same_demand w (f w)) ->
  same_catalog s0 s -> same_catalog s0 (update_work_order k f s).
Proof.
  intros Hf (A & B & C & D). repeat split; trivial.
  apply Forall2_dict_update; [|exact D].
  intros x y (E1 & E2 & E3 & E4 & E5 & E6 & E7 & E8).
  destruct (Hf y) as (F1 & F2 & F3 & F4 & F5 & F6 & F7 & F8).
  repeat split; congruence.
Qed.

Lemma same_catalog_material s0 s k (f : Material -> Material) :
  (forall m, material_id (f m) = material_id m) ->
  same_catalog s0 s -> same_catalog s0 (update_material k f s).
Proof.
  intros Hf (A & B & C & D). repeat split; trivial.
  apply Forall2_dict_update; [|exact C].
  intros x y E. now rewrite Hf.
Qed.

Lemma same_catalog_unblock s0 s mid :
  same_catalog s0 s ->
  same_catalog s0 (with_work_orders s (map (unblock mid) (work_orders s))).
Proof.
  intros (A & B & C & D). repeat split; trivial.
  apply Forall2_map_r; [|exact D].
  intros x y H. unfold unblock. now destruct (to_unblock mid y).
Qed.

Lemma same_catalog_post s0 a s :
  same_catalog s0 s -> same_catalog s0 (run clock a s).
Proof.
  intros H.
  pose proof (fun s k st w => same_catalog_operator s0 s k st w) as K1.
  assert (K2 : forall s k st w,
             same_catalog s0 s ->
             same_catalog s0 (update_machine k (set_m_assignment st w) s))
    by (intros; apply same_catalog_machine; trivial;
        intros; now repeat split).
  assert (K3 : forall s k st,
             same_catalog s0 s ->
             same_catalog s0 (update_machine k (set_m_status st) s))
    by (intros; apply same_catalog_machine; trivial;
        intros; now repeat split).
  assert (K4 : forall s k t,
             same_catalog s0 s ->
             same_catalog s0 (update_machine k (set_m_maintenance t) s))
    by (intros; apply same_catalog_machine; trivial;
        intros; now repeat split).
  assert (K5 : forall s k st,
             same_catalog s0 s ->
             same_catalog s0 (update_work_order k (set_status st) s))
    by (intros; apply same_catalog_work_order; trivial;
        intros; now repeat split).
  assert (K6 : forall s k,
             same_catalog s0 s ->
             same_catalog s0 (update_work_order k set_unassign_machine s))
    by (intros; apply same_catalog_work_order; trivial;
        intros; now repeat split).
  assert (K7 : forall s k o m t,
             same_catalog s0 s ->
             same_catalog s0 (update_work_order k (set_allocated o m t) s))
    by (intros; apply same_catalog_work_order; trivial;
        intros; now repeat split).
  assert (K8 : forall s k t,
             same_catalog s0 s ->
             same_catalog s0 (update_work_order k (set_completed t) s))
    by (intros; apply same_catalog_work_order; trivial;
        intros; now repeat split).
  pose proof (fun s mid => same_catalog_unblock s0 s mid) as K9.
  assert (K10 : forall s, same_catalog s0 s ->
                          same_catalog s0 (snd (now clock s)))
    by (intros; assumption).
  assert (K11 : forall s k q,
             same_catalog s0 s ->
             same_catalog s0 (update_material k (reserve q) s))
    by (intros; now apply same_catalog_material).
  assert (K12 : forall s k q,
             same_catalog s0 s ->
             same_catalog s0 (update_material k (consume q) s))
    by (intros; now apply same_catalog_material).
  assert (K13 : forall s k q,
             same_catalog s0 s ->
             same_catalog s0 (update_material k (deliver q) s))
    by (intros; now apply same_catalog_material).
  assert (K14 : forall s k t,
             same_catalog s0 s ->
             same_catalog s0 (with_reallocation_time k t s))
    by (intros; assumption).
  destruct a as [wid| |e]; simpl.
  - now apply (allocate_resources_kept clock (same_catalog s0)).
  - now apply (process_allocations_kept clock (same_catalog s0)).
  - destruct e; simpl.
    + now apply (handle_machine_breakdown_kept clock (same_catalog s0)).
    + now apply (handle_machine_maintenance_kept clock (same_catalog s0)).
    + now apply (handle_operator_available_kept clock (same_catalog s0)).
    + now apply (handle_work_order_completion_kept clock (same_catalog s0)).
    + now apply (handle_material_shortage_kept (same_catalog s0)).
    + now apply (handle_material_delivered_kept clock (same_catalog s0)).
    + exact H.
Qed.

(** X1.  No operation of the engine and no event handler adds, removes or
    reorders an entry of the catalog, or changes an identifier or a
    descriptive attribute: the skills, levels, location and cost of an
    operator, the capabilities, location, cycle time and cost of a machine,
    and the priority, requirements, duration, deadline and location of a
    work order.  This holds in the store an operation ends with, whether it
    returns or raises. *)
Theorem operations_keep_catalog :
  forall (a : operation) (s : Engine), same_catalog s (run clock a s).
Proof. intros a s. apply same_catalog_post, same_catalog_refl. Qed.

Lemma same_available_material s0 s k (f : Material -> Material) :
  (forall m, material_id (f m) = material_id m) ->
  (forall m, quantity_available (f m) = quantity_available m) ->
  same_available s0 s -> same_available s0 (update_material k f s).
Proof.
  intros Hi Hf H. apply Forall2_dict_update; [|exact H].
  intros x y [E1 E2]. now rewrite Hi, Hf.
Qed.

Lemma same_available_post s0 a s :
  ~ consumes_or_delivers a ->
  same_available s0 s -> same_available s0 (run clock a s).
Proof.
  intros Ha H.
  assert (K11 : forall s k q,
             same_available s0 s ->
             same_available s0 (update_material k (reserve q) s))
    by (intros; now apply same_available_material).
  destruct a as [wid| |e]; simpl.
  - apply (allocate_resources_kept clock (same_available s0)); auto.
  - apply (process_allocations_kept clock (same_available s0)); auto.
  - destruct e; simpl in *; try tauto.
    + apply (handle_machine_breakdown_kept clock (same_available s0)); auto.
    + apply (handle_machine_maintenance_kept clock (same_available s0)); auto.
    + apply (handle_operator_available_kept clock (same_available s0)); auto.
    + apply (handle_material_shortage_kept (same_available s0)); auto.
Qed.

(** X2.  Only the completion of a work order and the delivery of a material
    change an available quantity: every other operation leaves the
    materials with the available quantities they had. *)
Theorem available_changed_by_completion_and_delivery_only :
  forall (a : operation) (s : Engine),
    ~ consumes_or_delivers a -> same_available s (run clock a s).
Proof.
  intros a s Ha. apply same_available_post; [exact Ha|].
  apply same_available_refl.
Qed.
End Catalog.

(** ** The bulk allocation pass *)

Section BulkPass.
Variable clock : nat -> Z.

Lemma allocate_all_counts ids res s :
  exists res' s',
    allocate_all clock ids res s = Returned res' s' /\
    total res' = total res /\
    (allocated res' + blocked res' =
     allocated res + blocked res + List.length ids)%nat.
Proof.
  revert res s. induction ids as [|wid r IH]; intros res s; simpl.
  - exists res, s. repeat split. lia.
  - destruct (allocate_resources_returns clock wid s) as (b & s1 & ->).
    simpl.
    match goal with
    | |- context [allocate_all clock r ?res1 s1] =>
        destruct (IH res1 s1) as (res' & s' & -> & Ht & Hc)
    end.
    exists res', s'. split; [reflexivity|].
    destruct b; simpl in *; split; trivial; lia.
Qed.

Lemma pending_among_allocate wid ids s :
  pending_among (wid :: ids) s ->
  pending_among ids (final_state (allocate_resources clock wid s)).
Proof.
  intros H k w.
  destruct (allocate_resources_cases clock wid s)
    as [[Hn ->]|[(w0 & _ & _ & ->)|(w0 & o & m & sc & s' & Hw & _ & -> & He)]];
    simpl.
  - intros Hg Hs. destruct (H k w Hg Hs) as [<-|Hin]; [congruence|exact Hin].
  - destruct (String.eqb_spec k wid) as [->|Hk].
    + rewrite dict_get_update_same by reflexivity.
      destruct (dict_get work_order_id wid (work_orders s)); simpl;
        [|discriminate].
      intros [= <-]. discriminate.
    + rewrite dict_get_update_other by (reflexivity || exact Hk).
      intros Hg Hs. destruct (H k w Hg Hs) as [<-|Hin]; [congruence|exact Hin].
  - destruct He as (_ & Hwid & Hother & _).
    destruct (String.eqb_spec k wid) as [->|Hk].
    + rewrite Hwid. intros [= <-]. discriminate.
    + rewrite Hother by exact Hk.
      intros Hg Hs. destruct (H k w Hg Hs) as [<-|Hin]; [congruence|exact Hin].
Qed.

Lemma pending_among_allocate_all ids res s :
  pending_among ids s ->
  pending_among [] (final_state (allocate_all clock ids res s)).
Proof.
  revert res s. induction ids as [|wid r IH]; intros res s H; simpl.
  - exact H.
  - pose proof (pending_among_allocate wid r s H) as H1.
    destruct (allocate_resources_returns clock wid s) as (b & s1 & Hr).
    rewrite Hr in *. simpl in *. now apply IH.
Qed.

Lemma pending_among_prioritized s :
  pending_among (map work_order_id (prioritize_work_orders s)) s.
Proof.
  intros k w Hg Hs. apply dict_get_some in Hg. destruct Hg as [<- Hin].
  apply in_map. rewrite prioritize_work_orders_sort.
  apply (Permutation_in _ (Permutation_sym (sort_values_perm _))).
  apply filter_In. split; [exact Hin|]. unfold is_pending. now rewrite Hs.
Qed.

Lemma process_allocations_no_pending s :
  NoDup (map work_order_id (work_orders s)) ->
  filter is_pending
    (work_orders (final_state (process_allocations clock s))) = [].
Proof.
  intros Hnd.
  pose proof (pending_among_allocate_all
                (map work_order_id (prioritize_work_orders s))
                (mkStats 0 0 (List.length (prioritize_work_orders s))) s
                (pending_among_prioritized s)) as Hp.
  fold (process_allocations clock s) in Hp.
  pose proof (process_allocations_post clock (same_ids s)
                (fun wid s1 => same_ids_allocate clock s wid s1) s
                (same_ids_refl s)) as Hi.
  unfold post in Hi.
  set (s' := final_state (process_allocations clock s)) in *.
  destruct (filter is_pending (work_orders s')) as [|x l] eqn:E;
    [reflexivity|].
  assert (Hin : In x (filter is_pending (work_orders s')))
    by (rewrite E; now left).
  apply filter_In in Hin. destruct Hin as [Hin Hpend].
  exfalso. apply (Hp (work_order_id x) x).
  - apply dict_get_unique; [|exact Hin].
    destruct Hi as (_ & _ & _ & Hi). now rewrite Hi.
  - unfold is_pending in Hpend. now destruct (status x).
Qed.

(** X3.  [process_allocations] always returns: the reservation loop of a
    commit cannot meet a missing material, because the search has checked
    every requirement.  The total it reports is the number of work orders
    that were PENDING, and every one of them is counted once, as allocated
    or as blocked.  In a catalog with distinct work-order identifiers no
    work order is PENDING after the pass, and the work orders that were not
    PENDING are as they were. *)
Theorem process_allocations_visits_every_pending_order :
  forall s : Engine,
    exists res s',
      process_allocations clock s = Returned res s' /\
      total res = List.length (filter is_pending (work_orders s)) /\
      (allocated res + blocked res = total res)%nat /\
      (NoDup (map work_order_id (work_orders s)) ->
       filter is_pending (work_orders s') = [] /\
       forall k w,
         dict_get work_order_id k (work_orders s) = Some w ->
         status w <> PENDING ->
         dict_get work_order_id k (work_orders s') = Some w).
Proof.
  intros s. unfold process_allocations.
  destruct (allocate_all_counts
              (map work_order_id (prioritize_work_orders s))
              (mkStats 0 0 (List.length (prioritize_work_orders s))) s)
    as (res & s' & Hr & Ht & Hc).
  exists res, s'. split; [exact Hr|]. simpl in Ht, Hc.
  assert (Hlen : List.length (prioritize_work_orders s) =
                 List.length (filter is_pending (work_orders s))).
  { rewrite prioritize_work_orders_sort.
    apply Permutation_length, sort_values_perm. }
  split; [congruence|]. split.
  { rewrite length_map in Hc. lia. }
  intros Hnd. split.
  - pose proof (process_allocations_no_pending s Hnd) as Hp.
    unfold process_allocations in Hp. now rewrite Hr in Hp.
  - intros k w Hg Hs.
    pose proof (process_allocations_keeps clock k w s Hnd Hg Hs) as Hk.
    unfold post, process_allocations in Hk. now rewrite Hr in Hk.
Qed.
End BulkPass.

(** ** Allocation and the status of the work order *)

Section StatusBlind.
Variable clock : nat -> Z.

Lemma reserve_materials_update_work_order reqs k f s :
  reserve_materials reqs (update_work_order k f s) =
  match reserve_materials reqs s with
  | Returned a s1 => Returned a (update_work_order k f s1)
  | Raised x s1 => Raised x (update_work_order k f s1)
  end.
Proof.
  revert s. induction reqs as [|r reqs IH]; intros s; simpl; [reflexivity|].
  destruct (dict_get material_id (req_material_id r) (materials s));
    [|reflexivity].
  match goal with
  | |- reserve_materials reqs ?s1 = _ =>
      match goal with
      | |- _ = match reserve_materials reqs ?s2 with _ => _ end =>
          change s1 with (update_work_order k f s2)
      end
  end.
  apply IH.
Qed.

(** X4.  [allocate_resources] does not look at the status of the work
    order: called for an order that is BLOCKED, IN_PROGRESS or COMPLETED it
    searches and commits as for a PENDING one, so an order that is already
    in progress has its materials reserved again. *)
Theorem allocate_resources_ignores_status :
  forall (wid : string) (st : WorkOrderStatus) (s : Engine),
    allocate_resources clock wid (update_work_order wid (set_status st) s) =
    allocate_resources clock wid s.
Proof.
  intros wid st s. unfold allocate_resources at 1. simpl work_orders.
  rewrite dict_get_update_same by reflexivity.
  unfold allocate_resources.
  destruct (dict_get work_order_id wid (work_orders s)) as [w|] eqn:Hg;
    simpl option_map; cbv iota.
  2:{ unfold update_work_order. rewrite dict_update_absent by exact Hg.
      now destruct s. }
  change (find_best_allocation (update_work_order wid (set_status st) s)
            (set_status st w))
    with (find_best_allocation s w).
  destruct (find_best_allocation s w) as [[[o m] sc]|] eqn:Hf.
  - change (required_materials (set_status st w))
      with (required_materials w).
    rewrite reserve_materials_update_work_order.
    pose proof (find_best_allocation_materials _ _ _ _ _ Hf) as Hm.
    destruct (reserve_materials_returns (required_materials w) s)
      as (s1 & -> & _).
    { intros r Hin. destruct (materials_available_found s w r Hm Hin)
        as (mat & -> & _). discriminate. }
    simpl. unfold update_work_order, with_work_orders. simpl.
    rewrite dict_update_twice by reflexivity. reflexivity.
  - unfold update_work_order, with_work_orders. simpl.
    rewrite dict_update_twice by reflexivity. reflexivity.
Qed.
End StatusBlind.

(** ** Shortage, breakdown and delivery *)

Lemma str_in_iff x l : str_in x l = true <-> In x l.
Proof.
  unfold str_in. rewrite existsb_exists. split.
  - intros (y & Hy & E). apply String.eqb_eq in E. now subst.
  - intros H. exists x. split; [exact H|apply String.eqb_refl].
Qed.

Lemma str_in_false x l : str_in x l = false <-> ~ In x l.
Proof.
  rewrite <- str_in_iff. destruct (str_in x l); split; congruence.
Qed.

Lemma filter_requires_nodup mid (l : list WorkOrder) :
  NoDup (map work_order_id l) ->
  NoDup (map work_order_id (filter (requires mid) l)).
Proof.
  induction l as [|w l IH]; simpl; [constructor|].
  intros Hnd. inversion Hnd as [|? ? Hw Hl]; subst.
  destruct (requires mid w); simpl; [|now apply IH].
  constructor; [|now apply IH].
  intros Hin. apply Hw. apply in_map_iff in Hin.
  destruct Hin as (x & Hx & Hin). apply filter_In in Hin.
  rewrite <- Hx. apply in_map. tauto.
Qed.

Lemma block_affected_returned mid l s0 s s' :
  NoDup (map work_order_id (work_orders s0)) ->
  NoDup (map work_order_id l) ->
  (forall wo, In wo l -> In wo (work_orders s0) /\ requires mid wo = true) ->
  blocked_except mid l s0 s ->
  block_affected l s = Returned tt s' ->
  blocked_except mid [] s0 s'.
Proof.
  intros Hnd0. revert s. induction l as [|wo r IH]; intros s Hnd Hl HB Hr.
  - simpl in Hr. now injection Hr as <-.
  - inversion Hnd as [|? ? Hwo Hndr]; subst.
    destruct (Hl wo (or_introl eq_refl)) as [Hin Hreq].
    assert (Hrest : forall wo', In wo' r ->
              In wo' (work_orders s0) /\ requires mid wo' = true)
      by (intros wo' H'; apply Hl; now right).
    assert (Hstep : forall s1,
              (forall k, dict_get work_order_id k (work_orders s1) =
                 dict_get work_order_id k
                   (work_orders
                      (if WorkOrderStatus_eqb (status wo) IN_PROGRESS
                       then update_work_order (work_order_id wo)
                              (set_status BLOCKED) s
                       else s))) ->
              blocked_except mid r s0 s1).
    { intros s1 Hs1 k w Hg. rewrite Hs1. specialize (HB k w Hg).
      simpl map in HB. unfold str_in in HB. simpl existsb in HB.
      fold (str_in k (map work_order_id r)) in HB.
      destruct (String.eqb_spec k (work_order_id wo)) as [->|Hk].
      - simpl in HB.
        assert (w = wo).
        { pose proof (dict_get_unique work_order_id _ wo Hnd0 Hin) as Hu.
          congruence. }
        subst w.
        assert (Hnr : str_in (work_order_id wo) (map work_order_id r) = false)
          by now apply str_in_false.
        rewrite Hnr. unfold blocked_by_shortage. rewrite Hreq.
        destruct (WorkOrderStatus_eqb (status wo) IN_PROGRESS); simpl.
        + rewrite dict_get_update_same by reflexivity. now rewrite HB.
        + exact HB.
      - simpl in HB.
        destruct (WorkOrderStatus_eqb (status wo) IN_PROGRESS); simpl.
        + rewrite dict_get_update_other by (reflexivity || exact Hk).
          exact HB.
        + exact HB. }
    simpl in Hr.
    destruct (WorkOrderStatus_eqb (status wo) IN_PROGRESS) eqn:Est.
    2:{ apply (IH s); trivial. now apply Hstep. }
    set (s1 := update_work_order (work_order_id wo) (set_status BLOCKED) s)
      in *.
    match type of Hr with
    | bind ?c _ = _ =>
        assert (Hc : work_orders (final_state c) = work_orders s1)
          by (destruct (truthy_id (assigned_operator wo));
              [apply release_operator_frame|reflexivity]);
        destruct c as [[] s2|k2 s2]; [|discriminate]
    end.
    simpl in Hc, Hr.
    match type of Hr with
    | bind ?c _ = _ =>
        assert (Hc' : work_orders (final_state c) = work_orders s2)
          by (destruct (truthy_id (assigned_machine wo));
              [apply release_machine_frame|reflexivity]);
        destruct c as [[] s3|k3 s3]; [|discriminate]
    end.
    simpl in Hc', Hr.
    apply (IH s3); trivial. apply Hstep. intros k. now rewrite Hc', Hc.
Qed.

Lemma handle_material_shortage_frame mid s :
  materials (final_state (handle_material_shortage mid s)) = materials s /\
  last_reallocation_time (final_state (handle_material_shortage mid s)) =
    last_reallocation_time s /\
  now_calls (final_state (handle_material_shortage mid s)) = now_calls s.
Proof.
  apply (handle_material_shortage_kept
           (fun s' => materials s' = materials s /\
                      last_reallocation_time s' = last_reallocation_time s /\
                      now_calls s' = now_calls s)); auto.
Qed.

Lemma handle_material_shortage_work_orders mid s s' :
  NoDup (map work_order_id (work_orders s)) ->
  dict_get material_id mid (materials s) <> None ->
  handle_material_shortage mid s = Returned tt s' ->
  blocked_except mid [] s s'.
Proof.
  intros Hnd Hm Hr. unfold handle_material_shortage in Hr.
  destruct (dict_get material_id mid (materials s)); [|congruence].
  apply (block_affected_returned mid
           (filter (requires mid) (work_orders s)) s s); trivial.
  - now apply filter_requires_nodup.
  - intros wo Hin. now apply filter_In in Hin.
  - intros k w Hg. rewrite Hg. f_equal.
    destruct (str_in k _) eqn:E; [reflexivity|].
    apply str_in_false in E. unfold blocked_by_shortage.
    destruct (requires mid w) eqn:Rq; [|now rewrite andb_false_r].
    exfalso. apply E. apply dict_get_some in Hg. destruct Hg as [<- Hin].
    apply in_map, filter_In. now split.
Qed.

(** X5.  [handle_material_shortage] changes no material: the reservations
    of the work orders it blocks stay, and it reads no clock.  When the
    material is in the catalog (distinct work-order identifiers) and the
    handler returns, the work orders are those of before with every order
    that was IN_PROGRESS and requires the material BLOCKED, and no other
    change: PENDING, BLOCKED and COMPLETED orders, and orders that do not
    require the material, are as they were. *)
Theorem handle_material_shortage_blocks_users :
  forall (mid : string) (s s' : Engine),
    NoDup (map work_order_id (work_orders s)) ->
    dict_get material_id mid (materials s) <> None ->
    handle_material_shortage mid s = Returned tt s' ->
    materials s' = materials s /\
    last_reallocation_time s' = last_reallocation_time s /\
    now_calls s' = now_calls s /\
    (forall k w,
       dict_get work_order_id k (work_orders s) = Some w ->
       dict_get work_order_id k (work_orders s') =
       Some (blocked_by_shortage mid w)) /\
    (forall k w',
       dict_get work_order_id k (work_orders s') = Some w' ->
       requires mid w' = true -> status w' <> IN_PROGRESS).
Proof.
  intros mid s s' Hnd Hm Hr.
  pose proof (handle_material_shortage_frame mid s) as HF.
  rewrite Hr in HF. simpl in HF. destruct HF as (F1 & F2 & F3).
  pose proof (handle_material_shortage_work_orders mid s s' Hnd Hm Hr) as HB.
  split; [exact F1|]. split; [exact F2|]. split; [exact F3|]. split.
  - intros k w Hg. now rewrite (HB k w Hg).
  - intros k w' Hg' Hreq Hst.
    assert (Hcat : same_catalog s s').
    { pose proof (handle_material_shortage_kept (same_catalog s)) as Hk.
      specialize (Hk
        (fun s1 k st w => same_catalog_operator s s1 k st w)
        (fun s1 k st w H =>
           same_catalog_machine s s1 k (set_m_assignment st w)
             (fun m => ltac:(now repeat split)) H)
        (fun s1 k st H =>
           same_catalog_work_order s s1 k (set_status st)
             (fun w => ltac:(now repeat split)) H)
        mid s (same_catalog_refl s)).
      unfold post in Hk. now rewrite Hr in Hk. }
    destruct Hcat as (_ & _ & _ & Hw).
    destruct (Forall2_dict_get work_order_id same_demand k _ _ w'
                (fun x y H => proj1 H) Hw Hg') as (w & Hg & _).
    rewrite (HB k w Hg) in Hg'. simpl in Hg'. injection Hg' as <-.
    unfold blocked_by_shortage in Hreq, Hst.
    destruct (WorkOrderStatus_eqb (status w) IN_PROGRESS) eqn:E1;
      destruct (requires mid w) eqn:E2; simpl in Hreq, Hst;
      try discriminate; try congruence;
      rewrite Hst in E1; discriminate.
Qed.

Section BreakdownDelivery.
Variable clock : nat -> Z.

Lemma machine_is_allocate mid mb wid s :
  m_current_status mb <> IDLE ->
  machine_is mid mb s ->
  post (machine_is mid mb) (allocate_resources clock wid s).
Proof.
  intros Hst [Hnd Hg]. unfold post. split.
  - destruct (allocate_resources_same_ids clock wid s) as (_ & Hi & _).
    now rewrite Hi.
  - now apply allocate_resources_machine_kept.
Qed.

(** X6.  In a catalog with distinct machine identifiers,
    [handle_machine_breakdown] leaves the machine in the catalog with
    status BREAKDOWN and with the current work order it had, whether the
    handler returns or raises: the reference to the work order is not
    cleared, and no allocation that follows in the same call takes the
    machine. *)
Theorem handle_machine_breakdown_marks_machine :
  forall (mid : string) (s : Engine) (m : Machine),
    NoDup (map machine_id (machines s)) ->
    dict_get machine_id mid (machines s) = Some m ->
    dict_get machine_id mid
      (machines (final_state (handle_machine_breakdown clock mid s))) =
    Some (set_m_status BREAKDOWN m).
Proof.
  intros mid s m Hnd Hg.
  set (mb := set_m_status BREAKDOWN m).
  assert (Hb : m_current_status mb <> IDLE) by discriminate.
  assert (H1 : machine_is mid mb
                 (update_machine mid (set_m_status BREAKDOWN) s)).
  { split; simpl.
    - now rewrite dict_update_keys by reflexivity.
    - rewrite dict_get_update_same by reflexivity. now rewrite Hg. }
  assert (H2 : forall k,
             machine_is mid mb
               (update_work_order k set_unassign_machine
                  (update_machine mid (set_m_status BREAKDOWN) s)))
    by (intros k; exact H1).
  assert (Po : forall s1 k f,
             (forall o, operator_id (f o) = operator_id o) ->
             machine_is mid mb s1 -> machine_is mid mb (update_operator k f s1))
    by (intros; assumption).
  assert (Pa : forall wid s1, machine_is mid mb s1 ->
               post (machine_is mid mb) (allocate_resources clock wid s1))
    by (intros; now apply machine_is_allocate).
  enough (H : post (machine_is mid mb) (handle_machine_breakdown clock mid s))
    by apply H.
  unfold handle_machine_breakdown. rewrite Hg.
  pose proof (release_operator_post (machine_is mid mb) Po) as Ro.
  pose proof (process_allocations_post clock (machine_is mid mb) Pa) as Rp.
  repeat post_step; auto.
Qed.

Lemma same_available_allocate s0 wid s :
  same_available s0 s ->
  post (same_available s0) (allocate_resources clock wid s).
Proof.
  intros H.
  apply (allocate_resources_kept clock (same_available s0)); auto.
  intros. now apply same_available_material.
Qed.

(** X7.  [handle_material_delivered] adds the delivered quantity to the
    available quantity of the material and changes no other available
    quantity, whatever the bulk pass that follows allocates. *)
Theorem handle_material_delivered_adds_quantity :
  forall (mid : string) (q : Q) (s : Engine) (k : string) (mat : Material),
    dict_get material_id k (materials s) = Some mat ->
    exists mat',
      dict_get material_id k
        (materials (final_state (handle_material_delivered clock mid q s))) =
      Some mat' /\
      quantity_available mat' =
        if String.eqb k mid then quantity_available mat + q
        else quantity_available mat.
Proof.
  intros mid q s k mat Hg. unfold handle_material_delivered.
  destruct (dict_get material_id mid (materials s)) as [m0|] eqn:Hm.
  2:{ exists mat. split; [exact Hg|].
      destruct (String.eqb_spec k mid) as [->|_]; [congruence|reflexivity]. }
  set (s1 := update_material mid
               (fun m => set_quantities (quantity_available m + q)
                           (quantity_reserved m) m) s).
  set (s2 := with_work_orders s1 _).
  assert (Hs : same_available s1
                 (final_state
                    (if Nat.ltb 0
                          (List.length
                             (filter (to_unblock mid) (work_orders s1)))
                     then discard (process_allocations clock s2)
                     else Returned tt s2))).
  { destruct (Nat.ltb _ _); [|exact (same_available_refl s1)].
    apply (post_discard (same_available s1)).
    apply (process_allocations_kept clock (same_available s1)); auto.
    - intros. now apply same_available_material.
    - exact (same_available_refl s1). }
  assert (H1 : exists m1,
             dict_get material_id k (materials s1) = Some m1 /\
             quantity_available m1 =
               if String.eqb k mid then quantity_available mat + q
               else quantity_available mat).
  { unfold s1. simpl.
    destruct (String.eqb_spec k mid) as [->|Hk].
    - rewrite dict_get_update_same by reflexivity. rewrite Hg. simpl.
      eexists. split; reflexivity.
    - rewrite dict_get_update_other by (reflexivity || exact Hk).
      now exists mat. }
  destruct H1 as (m1 & G1 & A1).
  destruct (Forall2_dict_get_l material_id _ k _ _ m1
              (fun x y H => proj1 H) Hs G1) as (mat' & G' & _ & A').
  exists mat'. split; [exact G'|]. now rewrite A'.
Qed.
End BreakdownDelivery.

Lemma count_if_cons {A : Type} (p : A -> bool) x l :
  count_if p (x :: l) = ((if p x then 1 else 0) + count_if p l)%nat.
Proof. unfold count_if. simpl. now destruct (p x). Qed.

Lemma count_if_dict_update {A : Type} (key : A -> string) (p : A -> bool)
  k f d x :
  dict_get key k d = Some x ->
  (count_if p (dict_update key k f d) + (if p x then 1 else 0) =
   count_if p d + (if p (f x) then 1 else 0))%nat.
Proof.
  induction d as [|y r IH]; simpl; [discriminate|].
  destruct (String.eqb (key y) k).
  - intros [= <-]. rewrite !count_if_cons. lia.
  - intros H. rewrite !count_if_cons. specialize (IH H). lia.
Qed.

Lemma count_if_dict_update_bool {A : Type} (key : A -> string)
  (p : A -> bool) k f d x (b b' : bool) :
  dict_get key k d = Some x -> p x = b -> p (f x) = b' ->
  (count_if p (dict_update key k f d) + Nat.b2n b =
   count_if p d + Nat.b2n b')%nat.
Proof.
  intros H <- <-. pose proof (count_if_dict_update key p k f d x H) as C.
  destruct (p x), (p (f x)); simpl in *; lia.
Qed.

Lemma length_dict_update {A : Type} (key : A -> string) k f (d : list A) :
  List.length (dict_update key k f d) = List.length d.
Proof.
  induction d as [|y r IH]; simpl; [reflexivity|].
  destruct (String.eqb (key y) k); simpl; congruence.
Qed.

Lemma operator_status_partition (l : list Operator) :
  (count_if (op_has_status AVAILABLE) l + count_if (op_has_status ASSIGNED) l +
   count_if (op_has_status BREAK) l + count_if (op_has_status UNAVAILABLE) l =
   List.length l)%nat.
Proof.
  induction l as [|o l IH]; [reflexivity|].
  rewrite !count_if_cons. simpl List.length. unfold op_has_status at 1 3 5 7.
  destruct (op_current_status o); simpl; lia.
Qed.

Lemma machine_status_partition (l : list Machine) :
  (count_if (m_has_status IDLE) l + count_if (m_has_status RUNNING) l +
   count_if (m_has_status MAINTENANCE) l + count_if (m_has_status BREAKDOWN) l =
   List.length l)%nat.
Proof.
  induction l as [|m l IH]; [reflexivity|].
  rewrite !count_if_cons. simpl List.length. unfold m_has_status at 1 3 5 7.
  destruct (m_current_status m); simpl; lia.
Qed.

Lemma work_order_status_partition (l : list WorkOrder) :
  (count_if (wo_has_status PENDING) l + count_if (wo_has_status IN_PROGRESS) l +
   count_if (wo_has_status COMPLETED) l + count_if (wo_has_status BLOCKED) l =
   List.length l)%nat.
Proof.
  induction l as [|w l IH]; [reflexivity|].
  rewrite !count_if_cons. simpl List.length. unfold wo_has_status at 1 3 5 7.
  destruct (status w); simpl; lia.
Qed.

(** X8.  In the summary the four work-order counts add up to the total.
    The operator counts leave out the operators on BREAK or UNAVAILABLE and
    the machine counts those in MAINTENANCE or BREAKDOWN: available plus
    assigned, and idle plus running, fall short of the totals by exactly
    their number. *)
Theorem get_resource_summary_counts :
  forall s : Engine,
    let r := get_resource_summary s in
    (work_orders_pending r + work_orders_in_progress r +
     work_orders_completed r + work_orders_blocked r =
     work_orders_total r)%nat /\
    (operators_available r + operators_assigned r +
     count_if (op_has_status BREAK) (operators s) +
     count_if (op_has_status UNAVAILABLE) (operators s) =
     operators_total r)%nat /\
    (machines_idle r + machines_running r +
     count_if (m_has_status MAINTENANCE) (machines s) +
     count_if (m_has_status BREAKDOWN) (machines s) =
     machines_total r)%nat.
Proof.
  intros s. simpl. split; [|split].
  - apply work_order_status_partition.
  - apply operator_status_partition.
  - apply machine_status_partition.
Qed.

Section SummaryPass.
Variable clock : nat -> Z.

(** The stores a commit leaves, as lists. *)
Lemma allocate_resources_commit_lists wid s w o m sc :
  dict_get work_order_id wid (work_orders s) = Some w ->
  find_best_allocation s w = Some (o, m, sc) ->
  exists s',
    allocate_resources clock wid s = Returned true s' /\
    operators s' =
      dict_update operator_id (operator_id o)
        (set_op_assignment ASSIGNED (Some wid)) (operators s) /\
    machines s' =
      dict_update machine_id (machine_id m)
        (set_m_assignment RUNNING (Some wid)) (machines s) /\
    work_orders s' =
      dict_update work_order_id wid
        (set_allocated (operator_id o) (machine_id m) (clock (now_calls s)))
        (work_orders s).
Proof.
  intros Hw Hf. unfold allocate_resources. rewrite Hw, Hf.
  pose proof (find_best_allocation_materials _ _ _ _ _ Hf) as Hm.
  destruct (reserve_materials_returns (required_materials w) s)
    as (s1 & Hr & Ho1 & Hm1 & Hw1 & Hl1 & Hn1 & _).
  { intros r Hin. destruct (materials_available_found s w r Hm Hin)
      as (mat & -> & _). discriminate. }
  rewrite Hr. simpl. eexists. split; [reflexivity|]. simpl.
  now rewrite Ho1, Hm1, Hw1, Hn1.
Qed.

Lemma summary_after_pass_refl r : summary_after_pass 0 0 r r.
Proof. unfold summary_after_pass. repeat split; lia. Qed.

Lemma summary_after_pass_trans n1 b1 n2 b2 r1 r2 r3 :
  summary_after_pass n1 b1 r1 r2 -> summary_after_pass n2 b2 r2 r3 ->
  summary_after_pass (n1 + n2) (b1 + b2) r1 r3.
Proof.
  unfold summary_after_pass.
  intros (A1 & A2 & A3 & A4 & A5 & A6 & A7 & A8 & A9 & A10 & A11)
         (B1 & B2 & B3 & B4 & B5 & B6 & B7 & B8 & B9 & B10 & B11).
  repeat split; lia.
Qed.

(** One allocation of a pending work order, in the summary. *)
Lemma allocate_resources_summary wid s w :
  distinct_ids s ->
  dict_get work_order_id wid (work_orders s) = Some w ->
  status w = PENDING ->
  exists b s',
    allocate_resources clock wid s = Returned b s' /\
    summary_after_pass (if b then 1 else 0) (if b then 0 else 1)
      (get_resource_summary s) (get_resource_summary s').
Proof.
  intros (Hno & Hnm & Hnw) Hw Hst.
  assert (Hp : wo_has_status PENDING w = true)
    by (unfold wo_has_status; now rewrite Hst).
  destruct (find_best_allocation s w) as [[[o m] sc]|] eqn:Hf.
  - destruct (allocate_resources_commit_lists wid s w o m sc Hw Hf)
      as (s' & Hr & Ho & Hm & Hwo).
    exists true, s'. split; [exact Hr|].
    apply find_best_allocation_some in Hf. destruct Hf as [Hc _].
    apply candidates_in in Hc. destruct Hc as (Hio & Him & _ & Hav & Hidle).
    pose proof (dict_get_unique operator_id _ o Hno Hio) as Hgo.
    pose proof (dict_get_unique machine_id _ m Hnm Him) as Hgm.
    unfold summary_after_pass, get_resource_summary. simpl.
    rewrite Ho, Hm, Hwo, !length_dict_update.
    assert (Eo : forall st, op_has_status st o = OperatorStatus_eqb AVAILABLE st)
      by (intros st; unfold op_has_status; now rewrite Hav).
    assert (Em : forall st, m_has_status st m = MachineStatus_eqb IDLE st)
      by (intros st; unfold m_has_status; now rewrite Hidle).
    assert (Ew : forall st, wo_has_status st w = WorkOrderStatus_eqb PENDING st)
      by (intros st; unfold wo_has_status; now rewrite Hst).
    pose proof (fun st b' => count_if_dict_update_bool operator_id
                  (op_has_status st) (operator_id o)
                  (set_op_assignment ASSIGNED (Some wid)) _ o _ b' Hgo (Eo st))
      as Co.
    pose proof (fun st b' => count_if_dict_update_bool machine_id
                  (m_has_status st) (machine_id m)
                  (set_m_assignment RUNNING (Some wid)) _ m _ b' Hgm (Em st))
      as Cm.
    pose proof (fun st b' => count_if_dict_update_bool work_order_id
                  (wo_has_status st) wid
                  (set_allocated (operator_id o) (machine_id m)
                     (clock (now_calls s))) _ w _ b' Hw (Ew st)) as Cw.
    pose proof (Co AVAILABLE _ eq_refl) as Co1.
    pose proof (Co ASSIGNED _ eq_refl) as Co2.
    pose proof (Cm IDLE _ eq_refl) as Cm1.
    pose proof (Cm RUNNING _ eq_refl) as Cm2.
    pose proof (Cw PENDING _ eq_refl) as Cw1.
    pose proof (Cw IN_PROGRESS _ eq_refl) as Cw2.
    pose proof (Cw COMPLETED _ eq_refl) as Cw3.
    pose proof (Cw BLOCKED _ eq_refl) as Cw4.
    cbn in Co1, Co2, Cm1, Cm2, Cw1, Cw2, Cw3, Cw4.
    repeat split; lia.
  - destruct (allocate_resources_blocked clock wid s w Hw Hf) as [Hr _].
    exists false. eexists. split; [exact Hr|].
    unfold summary_after_pass, get_resource_summary. simpl.
    rewrite !length_dict_update.
    assert (Ew : forall st, wo_has_status st w = WorkOrderStatus_eqb PENDING st)
      by (intros st; unfold wo_has_status; now rewrite Hst).
    pose proof (fun st b' => count_if_dict_update_bool work_order_id
                  (wo_has_status st) wid (set_status BLOCKED) _ w _ b' Hw
                  (Ew st)) as Cw.
    pose proof (Cw PENDING _ eq_refl) as Cw1.
    pose proof (Cw IN_PROGRESS _ eq_refl) as Cw2.
    pose proof (Cw COMPLETED _ eq_refl) as Cw3.
    pose proof (Cw BLOCKED _ eq_refl) as Cw4.
    cbn in Cw1, Cw2, Cw3, Cw4.
    repeat split; lia.
Qed.

Lemma distinct_ids_same_ids s s' :
  same_ids s s' -> distinct_ids s -> distinct_ids s'.
Proof.
  intros (A & B & _ & D) (Ho & Hm & Hw). unfold distinct_ids.
  now rewrite A, B, D.
Qed.

Lemma allocate_all_summary ids res s :
  distinct_ids s -> pending_ids ids s ->
  exists res' s',
    allocate_all clock ids res s = Returned res' s' /\
    total res' = total res /\
    summary_after_pass (allocated res' - allocated res)
      (blocked res' - blocked res)
      (get_resource_summary s) (get_resource_summary s') /\
    (allocated res <= allocated res')%nat /\
    (blocked res <= blocked res')%nat.
Proof.
  revert res s. induction ids as [|wid r IH]; intros res s Hd [Hnd Hp].
  - exists res, s. simpl. split; [reflexivity|]. split; [reflexivity|].
    rewrite !Nat.sub_diag. split; [apply summary_after_pass_refl|lia].
  - inversion Hnd as [|? ? Hwid Hr]; subst.
    destruct (Hp wid (or_introl eq_refl)) as (w & Hw & Hst).
    destruct (allocate_resources_summary wid s w Hd Hw Hst)
      as (b & s1 & Hr1 & Hs1).
    simpl. rewrite Hr1. simpl.
    assert (Hd1 : distinct_ids s1).
    { eapply distinct_ids_same_ids; [|exact Hd].
      pose proof (allocate_resources_same_ids clock wid s) as Hi.
      now rewrite Hr1 in Hi. }
    assert (Hp1 : pending_ids r s1).
    { split; [exact Hr|]. intros k Hk.
      destruct (Hp k (or_intror Hk)) as (wk & Hgk & Hsk).
      exists wk. split; [|exact Hsk].
      pose proof (allocate_resources_other clock k wid s) as Ho.
      rewrite Hr1 in Ho. simpl in Ho. rewrite Ho; [exact Hgk|].
      intros ->. contradiction. }
    match goal with
    | |- context [allocate_all clock r ?res1 s1] =>
        destruct (IH res1 s1 Hd1 Hp1) as (res' & s' & Hr' & Ht & Hs' & L1 & L2)
    end.
    exists res', s'. split; [exact Hr'|].
    destruct b; simpl in *.
    + split; [exact Ht|].
      pose proof (summary_after_pass_trans _ _ _ _ _ _ _ Hs1 Hs') as Hs.
      replace (allocated res' - allocated res)%nat
        with (1 + (allocated res' - S (allocated res)))%nat by lia.
      replace (blocked res' - blocked res)%nat
        with (0 + (blocked res' - blocked res))%nat by lia.
      split; [exact Hs|lia].
    + split; [exact Ht|].
      pose proof (summary_after_pass_trans _ _ _ _ _ _ _ Hs1 Hs') as Hs.
      replace (allocated res' - allocated res)%nat
        with (0 + (allocated res' - allocated res))%nat by lia.
      replace (blocked res' - blocked res)%nat
        with (1 + (blocked res' - S (blocked res)))%nat by lia.
      split; [exact Hs|lia].
Qed.

Lemma pending_ids_prioritized s :
  NoDup (map work_order_id (work_orders s)) ->
  pending_ids (map work_order_id (prioritize_work_orders s)) s.
Proof.
  intros Hnd. split.
  - rewrite prioritize_work_orders_sort.
    apply (Permutation_NoDup
             (l := map work_order_id (filter is_pending (work_orders s)))).
    + apply Permutation_map, Permutation_sym, sort_values_perm.
    + clear -Hnd. induction (work_orders s) as [|w l IH]; simpl;
        [constructor|].
      inversion Hnd as [|? ? Hw Hl]; subst.
      destruct (is_pending w); simpl; [|now apply IH].
      constructor; [|now apply IH].
      intros Hin. apply Hw. apply in_map_iff in Hin.
      destruct Hin as (x & Hx & Hin). apply filter_In in Hin.
      rewrite <- Hx. apply in_map. tauto.
  - intros k Hk. apply prioritized_ids in Hk.
    destruct Hk as (w & Hin & Hst & <-).
    exists w. split; [|exact Hst]. now apply dict_get_unique.
Qed.

(** X9.  In a catalog with distinct identifiers the counts returned by
    [process_allocations] are the change of the resource summary: the
    summary after the pass has no pending work order; it has [allocated]
    more work orders in progress, operators assigned and machines running,
    as many fewer operators available and machines idle, and [blocked] more
    work orders blocked; the totals and the completed count are the same. *)
Theorem process_allocations_summary :
  forall s : Engine,
    distinct_ids s ->
    exists res s',
      process_allocations clock s = Returned res s' /\
      summary_after_pass (allocated res) (blocked res)
        (get_resource_summary s) (get_resource_summary s') /\
      work_orders_pending (get_resource_summary s') = 0%nat.
Proof.
  intros s Hd. unfold process_allocations.
  destruct (allocate_all_summary
              (map work_order_id (prioritize_work_orders s))
              (mkStats 0 0 (List.length (prioritize_work_orders s))) s Hd)
    as (res & s' & Hr & Ht & Hs & _ & _).
  { apply pending_ids_prioritized, Hd. }
  exists res, s'. split; [exact Hr|]. simpl in Hs. rewrite !Nat.sub_0_r in Hs.
  split; [exact Hs|].
  destruct (allocate_all_counts clock
              (map work_order_id (prioritize_work_orders s))
              (mkStats 0 0 (List.length (prioritize_work_orders s))) s)
    as (res2 & s2 & Hr2 & _ & Hc).
  rewrite Hr in Hr2. injection Hr2 as <- <-. simpl in Hc.
  rewrite length_map in Hc.
  assert (Hlen : List.length (prioritize_work_orders s) =
                 work_orders_pending (get_resource_summary s)).
  { rewrite prioritize_work_orders_sort. simpl. unfold count_if.
    rewrite (Permutation_length (sort_values_perm _)).
    reflexivity. }
  destruct Hs as (_ & _ & _ & _ & Hpend & _). lia.
Qed.
End SummaryPass.

Lemma minutes_below_buffer x :
  Qlt_bool (inject_Z x / 60) stability_buffer_minutes = true <-> (x < 900)%Z.
Proof.
  rewrite Qlt_bool_iff. unfold stability_buffer_minutes, Qlt, Qdiv. simpl.
  lia.
Qed.

Lemma timedelta_seconds_below later earlier :
  (timedelta_seconds later earlier < 900)%Z <->
  ((later - earlier) mod microseconds_per_day < stability_buffer_microseconds)%Z.
Proof.
  unfold timedelta_seconds, stability_buffer_microseconds,
    microseconds_per_day, microseconds_per_second.
  set (d := ((later - earlier) mod (86400 * 1000000))%Z).
  split; intros H.
  - destruct (Z_lt_ge_dec d (900 * 1000000)) as [L|G]; [exact L|].
    assert (900 <= d / 1000000)%Z by (apply Z.div_le_lower_bound; lia). lia.
  - apply Z.div_lt_upper_bound; lia.
Qed.

Lemma mod_day_decompose d r :
  (0 <= r < microseconds_per_day)%Z ->
  (exists k, d = k * microseconds_per_day + r)%Z ->
  (d mod microseconds_per_day = r)%Z.
Proof.
  intros Hr [k ->]. rewrite Z.add_comm, Z.mod_add by (vm_compute; lia).
  apply Z.mod_small. exact Hr.
Qed.

Section ReallocationFacts.
Variable clock : nat -> Z.

(** X10.  [should_reallocate] answers yes exactly when the progress is at
    most 50 and, if a reallocation time is recorded for the work order, the
    time elapsed since then, taken modulo whole days, is at least 15
    minutes: the number of days elapsed plays no part, so [k] days and
    [r < 15 min] after the last reallocation the answer is no for every
    [k]. *)
Theorem should_reallocate_decision :
  forall (w : WorkOrder) (s : Engine),
    fst (should_reallocate clock w s) = true <->
    progress w <= 50 /\
    forall last,
      dict_get fst (work_order_id w) (last_reallocation_time s) =
        Some (work_order_id w, last) ->
      exists k r : Z,
        (clock (now_calls s) - last = k * microseconds_per_day + r)%Z /\
        (stability_buffer_microseconds <= r < microseconds_per_day)%Z.
Proof.
  intros w s. unfold should_reallocate.
  destruct (Qlt_bool 50 (progress w)) eqn:Ep.
  - apply Qlt_bool_iff in Ep. simpl. split; [discriminate|].
    intros [H _]. exfalso. apply (Qlt_irrefl 50). eapply Qlt_le_trans; eauto.
  - apply Qlt_bool_false in Ep.
    destruct (dict_get fst (work_order_id w) (last_reallocation_time s))
      as [[k0 last]|] eqn:El.
    + pose proof (dict_get_some _ _ _ _ El) as [Hk _]. simpl in Hk. subst k0.
      simpl.
      set (d := (clock (now_calls s) - last)%Z).
      assert (Hpos : (0 < microseconds_per_day)%Z) by reflexivity.
      pose proof (Z.mod_pos_bound d _ Hpos) as Hb.
      destruct (Qlt_bool (inject_Z (timedelta_seconds (clock (now_calls s)) last) / 60)
                  stability_buffer_minutes) eqn:Eb; simpl.
      * apply minutes_below_buffer, timedelta_seconds_below in Eb. fold d in Eb.
        split; [discriminate|]. intros [_ H].
        destruct (H last eq_refl) as (k & r & Hd & Hr).
        rewrite (mod_day_decompose d r) in Eb; [lia| lia |now exists k].
      * split; [|reflexivity]. intros _. split; [exact Ep|].
        intros last' [= <-].
        exists (d / microseconds_per_day)%Z, (d mod microseconds_per_day)%Z.
        split.
        -- rewrite Z.mul_comm. apply Z.div_mod. lia.
        -- split; [|lia].
           destruct (Z_lt_ge_dec (d mod microseconds_per_day)
                       stability_buffer_microseconds) as [L|G]; [|lia].
           apply timedelta_seconds_below, minutes_below_buffer in L.
           fold d in L. unfold d in L. rewrite L in Eb. discriminate.
    + simpl. split; [|reflexivity]. intros _. split; [exact Ep|].
      intros last [=].
Qed.

(** X11.  A work order that [allocate_resources] has just started is not
    open to reallocation: if the clock, read again, has advanced by less
    than 15 minutes since the reading stored by the allocation,
    [should_reallocate] answers no, whatever the progress. *)
Theorem should_reallocate_after_allocation :
  forall (wid : string) (s s' : Engine) (w : WorkOrder),
    allocate_resources clock wid s = Returned true s' ->
    work_order_id w = wid ->
    (0 <= clock (now_calls s') - clock (Nat.pred (now_calls s'))
       < stability_buffer_microseconds)%Z ->
    fst (should_reallocate clock w s') = false.
Proof.
  intros wid s s' w Hr Hid Hc.
  assert (Hl : dict_get fst wid (last_reallocation_time s') =
               Some (wid, clock (Nat.pred (now_calls s')))).
  { unfold allocate_resources in Hr.
    destruct (dict_get work_order_id wid (work_orders s)) as [wo|];
      [|discriminate].
    destruct (find_best_allocation s wo) as [[[o m] sc]|]; [|discriminate].
    destruct (reserve_materials (required_materials wo) s) as [[] s1|k s1]
      eqn:Er; simpl in Hr; [|discriminate].
    injection Hr as <-. simpl. apply dict_set_get. }
  unfold should_reallocate. rewrite Hid.
  destruct (Qlt_bool 50 (progress w)); [reflexivity|].
  rewrite Hl. simpl.
  assert (Hb : Qlt_bool
                 (inject_Z (timedelta_seconds (clock (now_calls s'))
                              (clock (Nat.pred (now_calls s')))) / 60)
                 stability_buffer_minutes = true).
  { apply minutes_below_buffer, timedelta_seconds_below.
    rewrite Z.mod_small; [lia|].
    unfold stability_buffer_microseconds, microseconds_per_day in *.
    unfold microseconds_per_second in *. lia. }
  now rewrite Hb.
Qed.
End ReallocationFacts.

(** ** The event queue *)

Section ListSet.
Context {A : Type}.

Lemma length_list_set (l : list A) i x :
  List.length (list_set l i x) = List.length l.
Proof.
  revert i. induction l as [|y r IH]; intros [|i]; simpl; auto.
Qed.

Lemma nth_error_list_set_eq (l : list A) i x :
  (i < List.length l)%nat -> nth_error (list_set l i x) i = Some x.
Proof.
  revert i. induction l as [|y r IH]; intros [|i]; simpl; try lia; auto.
  intros H. apply IH. lia.
Qed.

Lemma nth_error_list_set_neq (l : list A) i j x :
  i <> j -> nth_error (list_set l i x) j = nth_error l j.
Proof.
  revert i j. induction l as [|y r IH]; intros [|i] [|j] H; simpl; auto;
    try congruence.
Qed.

Lemma list_set_twice (l : list A) i x y :
  list_set (list_set l i x) i y = list_set l i y.
Proof.
  revert i. induction l as [|z r IH]; intros [|i]; simpl; auto.
  now rewrite IH.
Qed.

Lemma list_set_same (l : list A) i x :
  nth_error l i = Some x -> list_set l i x = l.
Proof.
  revert i. induction l as [|z r IH]; intros [|i]; simpl; auto.
  - now intros [= ->].
  - intros H. now rewrite IH.
Qed.

Lemma list_set_take (l : list A) i a x :
  nth_error l i = Some a -> Permutation (x :: l) (a :: list_set l i x).
Proof.
  revert i. induction l as [|z r IH]; intros [|i]; simpl; try discriminate.
  - intros [= ->]. apply perm_swap.
  - intros H. etransitivity; [apply perm_swap|].
    etransitivity; [apply perm_skip, (IH i H)|]. apply perm_swap.
Qed.

(** Exchanging two items permutes the list. *)
Lemma list_set_swap (l : list A) i j a b :
  i <> j -> nth_error l i = Some a -> nth_error l j = Some b ->
  Permutation (list_set (list_set l i b) j a) l.
Proof.
  revert i j. induction l as [|z r IH]; intros [|i] [|j] Hij; simpl;
    try discriminate; try congruence.
  - intros [= ->] Hj. symmetry. now apply list_set_take.
  - intros Hi [= ->]. symmetry. now apply list_set_take.
  - intros Hi Hj. apply perm_skip. apply IH; congruence.
Qed.

Lemma nth_of_nth_error (l : list A) i x d :
  nth_error l i = Some x -> nth i l d = x.
Proof. intros H. now apply nth_error_nth. Qed.

Lemma nth_error_in_range (l : list A) i :
  (i < List.length l)%nat -> exists x, nth_error l i = Some x.
Proof.
  intros H. destruct (nth_error l i) eqn:E; [eauto|].
  apply nth_error_None in E. lia.
Qed.

Lemma nth_error_range (l : list A) i x :
  nth_error l i = Some x -> (i < List.length l)%nat.
Proof. intros H. apply nth_error_Some. congruence. Qed.
End ListSet.

Lemma parent_of_lt i : (0 < i)%nat -> (parent_of i < i)%nat.
Proof.
  intros H. unfold parent_of. rewrite Nat.div2_div.
  pose proof (Nat.div_mod_eq (i - 1) 2).
  pose proof (Nat.mod_upper_bound (i - 1) 2). lia.
Qed.

Lemma parent_of_child i :
  (0 < i)%nat ->
  i = (2 * parent_of i + 1)%nat \/ i = (2 * parent_of i + 2)%nat.
Proof.
  intros H. unfold parent_of. rewrite Nat.div2_div.
  pose proof (Nat.div_mod_eq (i - 1) 2).
  pose proof (Nat.mod_upper_bound (i - 1) 2). lia.
Qed.

Lemma parent_of_children p i :
  i = (2 * p + 1)%nat \/ i = (2 * p + 2)%nat -> parent_of i = p.
Proof.
  intros H. unfold parent_of. rewrite Nat.div2_div.
  pose proof (Nat.div_mod_eq (i - 1) 2).
  pose proof (Nat.mod_upper_bound (i - 1) 2). lia.
Qed.

Section HeapqFacts.
Context {A : Type}.
Variable key : A -> Z.


Lemma heap_ok_nil : heap_ok key [].
Proof. intros i _ x y H. destruct i; discriminate. Qed.

(** The bubbling of [_siftdown] restores the heap condition. *)
Lemma siftdown_loop_ok fuel x (heap : list A) pos :
  (pos <= fuel)%nat -> (pos < List.length heap)%nat ->
  almost_heap key (list_set heap pos x) pos ->
  heap_ok key (siftdown_loop (key_lt key) fuel x heap 0 pos) /\
  Permutation (siftdown_loop (key_lt key) fuel x heap 0 pos) (list_set heap pos x).
Proof.
  revert heap pos. induction fuel as [|fuel IH]; intros heap pos Hf Hl [H1 H2].
  - assert (pos = 0)%nat by lia. subst pos. simpl. split; [|reflexivity].
    intros i Hi. apply H1; lia.
  - simpl. destruct (Nat.ltb_spec 0 pos) as [Hp|Hp].
    2:{ assert (pos = 0)%nat by lia. subst pos. split; [|reflexivity].
        intros i Hi. apply H1; lia. }
    pose proof (parent_of_lt pos Hp) as Hpp.
    destruct (nth_error_in_range heap (parent_of pos)) as [par Epar]; [lia|].
    rewrite (nth_of_nth_error _ _ _ x Epar).
    set (A0 := list_set heap pos x) in *.
    assert (E0pos : nth_error A0 pos = Some x)
      by (apply nth_error_list_set_eq; lia).
    assert (E0par : nth_error A0 (parent_of pos) = Some par)
      by (unfold A0; rewrite nth_error_list_set_neq; [exact Epar|lia]).
    destruct (key_lt key x par) eqn:Hk; unfold key_lt in Hk;
      [apply Z.ltb_lt in Hk; rename Hk into Hlt
      |apply Z.ltb_ge in Hk; rename Hk into Hge].
    + set (A1 := list_set (list_set heap pos par) (parent_of pos) x).
      assert (EA1 : A1 = list_set (list_set A0 pos par) (parent_of pos) x)
        by (unfold A1, A0; now rewrite list_set_twice).
      assert (Hperm : Permutation A1 A0).
      { rewrite EA1. apply list_set_swap; [lia|exact E0pos|exact E0par]. }
      assert (Hlen0 : List.length A0 = List.length heap)
        by apply length_list_set.
      assert (N1 : forall j, j <> pos -> j <> parent_of pos ->
                             nth_error A1 j = nth_error A0 j).
      { intros j Hj1 Hj2. rewrite EA1.
        rewrite !nth_error_list_set_neq; auto. }
      assert (N1pos : nth_error A1 pos = Some par).
      { rewrite EA1. rewrite nth_error_list_set_neq by lia.
        apply nth_error_list_set_eq. lia. }
      assert (N1par : nth_error A1 (parent_of pos) = Some x).
      { rewrite EA1. apply nth_error_list_set_eq.
        rewrite length_list_set. lia. }
      destruct (IH (list_set heap pos par) (parent_of pos)) as [Hok Hp1].
      * lia.
      * rewrite length_list_set. lia.
      * fold A1. split.
        -- intros i Hi Hne a b Ea Eb.
           destruct (Nat.eq_dec i pos) as [->|Hip].
           ++ rewrite N1pos in Ea. rewrite N1par in Eb.
              injection Ea as <-. injection Eb as <-. lia.
           ++ rewrite N1 in Ea by assumption.
              destruct (Nat.eq_dec (parent_of i) pos) as [Hpi|Hpi].
              ** rewrite Hpi, N1pos in Eb. injection Eb as <-.
                 exact (H2 Hp i a par Hpi Hi Ea E0par).
              ** destruct (Nat.eq_dec (parent_of i) (parent_of pos))
                   as [Hpi2|Hpi2].
                 --- rewrite Hpi2, N1par in Eb. injection Eb as <-.
                     assert (key par <= key a)%Z; [|lia].
                     apply (H1 i Hi Hip a par Ea). now rewrite Hpi2.
                 --- rewrite N1 in Eb by assumption.
                     exact (H1 i Hi Hip a b Ea Eb).
        -- intros Hpp0 i a b Hpi Hi Ea Eb.
           assert (Hgp : (parent_of (parent_of pos) < parent_of pos)%nat)
             by now apply parent_of_lt.
           rewrite N1 in Eb by lia.
           assert (Hparle : (key b <= key par)%Z).
           { apply (H1 (parent_of pos) Hpp0 ltac:(lia) par b E0par Eb). }
           destruct (Nat.eq_dec i pos) as [->|Hip].
           ++ rewrite N1pos in Ea. injection Ea as <-. exact Hparle.
           ++ assert (i <> parent_of pos)
                by (pose proof (parent_of_lt i Hi); lia).
              rewrite N1 in Ea by assumption.
              assert (key par <= key a)%Z; [|lia].
              apply (H1 i Hi Hip a par Ea). now rewrite Hpi.
      * split; [exact Hok|]. etransitivity; [exact Hp1|exact Hperm].
    + split; [|reflexivity]. intros i Hi a b Ea Eb.
      destruct (Nat.eq_dec i pos) as [->|Hip].
      * rewrite E0pos in Ea. rewrite E0par in Eb.
        injection Ea as <-. injection Eb as <-. exact Hge.
      * exact (H1 i Hi Hip a b Ea Eb).
Qed.

Lemma siftdown_ok (heap : list A) pos :
  (pos < List.length heap)%nat ->
  almost_heap key heap pos ->
  heap_ok key (siftdown (key_lt key) heap 0 pos) /\
  Permutation (siftdown (key_lt key) heap 0 pos) heap.
Proof.
  intros Hl Ha. unfold siftdown.
  destruct (nth_error_in_range heap pos Hl) as [x Ex]. rewrite Ex.
  pose proof (list_set_same heap pos x Ex) as Es.
  destruct (siftdown_loop_ok pos x heap pos) as [H1 H2]; try lia.
  - now rewrite Es.
  - rewrite Es in H2. now split.
Qed.

(** The descent of [_siftup] to a leaf. *)
Lemma siftup_loop_ok fuel x (heap : list A) endpos pos :
  endpos = List.length heap ->
  (endpos <= pos + fuel)%nat -> (pos < endpos)%nat ->
  heap_below key heap pos ->
  exists heap1 leaf,
    siftup_loop (key_lt key) fuel x heap endpos pos = (heap1, leaf) /\
    (leaf < endpos)%nat /\ List.length heap1 = endpos /\
    almost_heap key (list_set heap1 leaf x) leaf /\
    Permutation (list_set heap1 leaf x) (list_set heap pos x).
Proof.
  revert heap pos. induction fuel as [|fuel IH];
    intros heap pos He Hf Hl Hb; [lia|].
  simpl. replace (pos + (pos + 0) + 1)%nat with (2 * pos + 1)%nat by lia.
  destruct (Nat.ltb_spec (2 * pos + 1) endpos) as [Hc|Hc].
  - set (c := if (2 * pos + 1 + 1 <? endpos)%nat &&
                 negb ((key_lt key) (nth (2 * pos + 1) heap x)
                              (nth (2 * pos + 1 + 1) heap x))
              then (2 * pos + 1 + 1)%nat else (2 * pos + 1)%nat).
    assert (Hcr : (c < endpos)%nat /\
                  (c = 2 * pos + 1 \/ c = 2 * pos + 2)%nat).
    { unfold c. destruct (Nat.ltb_spec (2 * pos + 1 + 1) endpos); simpl.
      - destruct (negb _); lia.
      - lia. }
    destruct Hcr as [Hcl Hcc].
    assert (Hchoice :
              (c = (2 * pos + 1)%nat /\
               ((2 * pos + 1 + 1 < endpos)%nat ->
                (key_lt key) (nth (2 * pos + 1) heap x)
                       (nth (2 * pos + 1 + 1) heap x) = true)) \/
              (c = (2 * pos + 1 + 1)%nat /\ (2 * pos + 1 + 1 < endpos)%nat /\
               (key_lt key) (nth (2 * pos + 1) heap x)
                      (nth (2 * pos + 1 + 1) heap x) = false)).
    { unfold c. destruct (Nat.ltb_spec (2 * pos + 1 + 1) endpos); simpl.
      - destruct (key_lt key _ _) eqn:Ek; simpl; [left|right]; auto.
      - left. split; [reflexivity|lia]. }
    assert (Hpc : parent_of c = pos) by now apply parent_of_children.
    destruct (nth_error_in_range heap c) as [hc Ehc]; [lia|].
    rewrite (nth_of_nth_error _ _ _ x Ehc).
    (* the child chosen is not above its sibling *)
    assert (Hsib : forall i a, parent_of i = pos -> (0 < i)%nat ->
                     nth_error heap i = Some a -> (key hc <= key a)%Z).
    { intros i a Hpi Hi Ea.
      destruct (Nat.eq_dec i c) as [->|Hic];
        [rewrite Ehc in Ea; injection Ea as <-; lia|].
      pose proof (nth_error_range _ _ _ Ea) as Hir.
      destruct (parent_of_child i Hi) as [E|E]; rewrite Hpi in E.
      - destruct Hchoice as [[Hc1 _]|(Hc2 & _ & Ek)]; [lia|].
        replace (2 * pos + 1)%nat with i in Ek by lia.
        replace (i + 1)%nat with c in Ek by lia.
        rewrite (nth_of_nth_error _ _ _ x Ea) in Ek.
        rewrite (nth_of_nth_error _ _ _ x Ehc) in Ek.
        unfold key_lt in Ek. apply Z.ltb_ge in Ek. exact Ek.
      - destruct Hchoice as [[Hc1 Ek]|(Hc2 & _)]; [|lia].
        specialize (Ek ltac:(lia)).
        replace (2 * pos + 1 + 1)%nat with i in Ek by lia.
        replace (2 * pos + 1)%nat with c in Ek by lia.
        rewrite (nth_of_nth_error _ _ _ x Ea) in Ek.
        rewrite (nth_of_nth_error _ _ _ x Ehc) in Ek.
        unfold key_lt in Ek. apply Z.ltb_lt in Ek. lia. }
    set (h' := list_set heap pos hc).
    assert (Hlen' : List.length h' = List.length heap)
      by apply length_list_set.
    assert (N' : forall j, j <> pos -> nth_error h' j = nth_error heap j)
      by (intros j Hj; apply nth_error_list_set_neq; lia).
    assert (N'pos : nth_error h' pos = Some hc)
      by (apply nth_error_list_set_eq; lia).
    destruct (IH h' c) as (heap1 & leaf & Hr & Hleaf & Hlen1 & Halm & Hperm).
    + lia.
    + lia.
    + exact Hcl.
    + intros i Hi _ a b Ea Eb.
      destruct (Nat.eq_dec i pos) as [->|Hip].
      * (* the item moved up is not below the parent of [pos] *)
        rewrite N'pos in Ea. injection Ea as <-.
        pose proof (parent_of_lt pos Hi) as Hlt.
        rewrite N' in Eb by lia.
        destruct (nth_error_in_range heap pos) as [hp Ehp]; [lia|].
        assert (key b <= key hp)%Z.
        { apply (Hb pos Hi ltac:(lia) hp b Ehp Eb). }
        assert (key hp <= key hc)%Z; [|lia].
        apply (Hb c ltac:(lia) ltac:(lia) hc hp Ehc). now rewrite Hpc.
      * rewrite N' in Ea by assumption.
        destruct (Nat.eq_dec (parent_of i) pos) as [Hpi|Hpi].
        -- rewrite Hpi, N'pos in Eb. injection Eb as <-.
           exact (Hsib i a Hpi Hi Ea).
        -- rewrite N' in Eb by assumption.
           apply (Hb i Hi ltac:(lia) a b Ea Eb).
    + exists heap1, leaf. split; [exact Hr|]. split; [exact Hleaf|].
      split; [exact Hlen1|]. split; [exact Halm|].
      etransitivity; [exact Hperm|].
      set (A0 := list_set heap pos x).
      assert (E : list_set h' c x = list_set (list_set A0 pos hc) c x)
        by (unfold h', A0; now rewrite list_set_twice).
      rewrite E. apply list_set_swap; [lia| |].
      * apply nth_error_list_set_eq. lia.
      * unfold A0. rewrite nth_error_list_set_neq by lia. exact Ehc.
  - exists heap, pos. split; [reflexivity|]. split; [exact Hl|].
    split; [now symmetry|]. split; [|reflexivity].
    assert (Hleafs : forall i a, (0 < i)%nat -> parent_of i = pos ->
                       nth_error (list_set heap pos x) i = Some a -> False).
    { intros i a Hi Hpi Ea. apply nth_error_range in Ea.
      rewrite length_list_set in Ea.
      destruct (parent_of_child i Hi); lia. }
    split.
    + intros i Hi Hne a b Ea Eb.
      destruct (Nat.eq_dec (parent_of i) pos) as [Hpi|Hpi];
        [destruct (Hleafs i a Hi Hpi Ea)|].
      rewrite nth_error_list_set_neq in Ea by lia.
      rewrite nth_error_list_set_neq in Eb by lia.
      apply (Hb i Hi ltac:(lia) a b Ea Eb).
    + intros _ i a b Hpi Hi Ea _. destruct (Hleafs i a Hi Hpi Ea).
Qed.

Lemma siftup_root_ok (heap : list A) :
  heap <> [] -> heap_below key heap 0 ->
  heap_ok key (siftup (key_lt key) heap 0) /\
  Permutation (siftup (key_lt key) heap 0) heap.
Proof.
  intros Hne Hb. unfold siftup.
  destruct heap as [|x r] eqn:Eh; [congruence|]. rewrite <- Eh in *.
  assert (E0 : nth_error heap 0 = Some x) by now rewrite Eh.
  rewrite E0.
  assert (Hlen : (0 < List.length heap)%nat) by (rewrite Eh; simpl; lia).
  destruct (siftup_loop_ok (List.length heap) x heap (List.length heap) 0)
    as (heap1 & leaf & Hr & Hleaf & Hlen1 & Halm & Hperm);
    [reflexivity|lia|lia|exact Hb|].
  rewrite Hr. rewrite (list_set_same heap 0 x E0) in Hperm.
  destruct (siftdown_ok (list_set heap1 leaf x) leaf) as [H1 H2].
  - rewrite length_list_set. lia.
  - exact Halm.
  - split; [exact H1|]. etransitivity; [exact H2|exact Hperm].
Qed.

(** [heappush] keeps the heap condition and adds the item. *)
Lemma heappush_ok (heap : list A) item :
  heap_ok key heap ->
  heap_ok key (heappush (key_lt key) heap item) /\
  Permutation (heappush (key_lt key) heap item) (item :: heap).
Proof.
  intros Hok. unfold heappush.
  destruct (siftdown_ok (heap ++ [item]) (List.length heap)) as [H1 H2].
  - rewrite length_app. simpl. lia.
  - split.
    + intros i Hi Hne a b Ea Eb.
      pose proof (nth_error_range _ _ _ Ea) as Hr.
      rewrite length_app in Hr. simpl in Hr.
      pose proof (parent_of_lt i Hi).
      rewrite nth_error_app1 in Ea by lia.
      rewrite nth_error_app1 in Eb by lia.
      exact (Hok i Hi a b Ea Eb).
    + intros _ i a b Hpi Hi Ea _. apply nth_error_range in Ea.
      rewrite length_app in Ea. simpl in Ea.
      pose proof (parent_of_lt i Hi). lia.
  - split; [exact H1|]. etransitivity; [exact H2|].
    symmetry. apply Permutation_cons_append.
Qed.

(** The root of a heap is a least item. *)
Lemma heap_ok_root (heap : list A) m :
  heap_ok key heap -> nth_error heap 0 = Some m ->
  forall i x, nth_error heap i = Some x -> (key m <= key x)%Z.
Proof.
  intros Hok Hm i. induction i as [i IH] using lt_wf_ind. intros x Ex.
  destruct i as [|i]; [rewrite Hm in Ex; injection Ex as <-; lia|].
  pose proof (parent_of_lt (S i) ltac:(lia)) as Hlt.
  destruct (nth_error_in_range heap (parent_of (S i))) as [y Ey].
  { apply nth_error_range in Ex. lia. }
  pose proof (IH _ Hlt y Ey).
  pose proof (Hok (S i) ltac:(lia) x y Ex Ey). lia.
Qed.

(** [heappop] yields a least item and keeps the heap condition on the
    others. *)
Lemma heappop_ok (heap : list A) :
  heap_ok key heap -> heap <> [] ->
  exists m heap',
    heappop (key_lt key) heap = Some (m, heap') /\
    heap_ok key heap' /\
    Permutation heap (m :: heap') /\
    (forall x, In x heap' -> (key m <= key x)%Z).
Proof.
  intros Hok Hne. unfold heappop.
  destruct heap as [|first r] eqn:Eh; [congruence|]. rewrite <- Eh in *.
  pose proof (app_removelast_last first Hne) as Hsplit.
  set (lastelt := last heap first) in *.
  destruct (removelast heap) as [|returnitem rest] eqn:Er.
  - simpl in Hsplit. exists lastelt, []. split; [reflexivity|].
    split; [apply heap_ok_nil|]. split; [now rewrite Hsplit|].
    intros x [].
  - simpl list_set.
    assert (Hroot : nth_error heap 0 = Some returnitem)
      by now rewrite Hsplit.
    destruct (siftup_root_ok (lastelt :: rest)) as [H1 H2]; [discriminate| |].
    + intros i Hi Hp a b Ea Eb.
      specialize (Hp eq_refl).
      pose proof (nth_error_range _ _ _ Ea) as Hra. simpl in Hra.
      pose proof (parent_of_lt i Hi) as Hlt.
      apply (Hok i Hi a b).
      * rewrite Hsplit. destruct i as [|i]; [lia|]. simpl in Ea. simpl.
        rewrite nth_error_app1 by lia. exact Ea.
      * rewrite Hsplit. destruct (parent_of i) as [|j]; [congruence|].
        simpl in Eb. simpl. rewrite nth_error_app1 by lia. exact Eb.
    + exists returnitem, (siftup (key_lt key) (lastelt :: rest) 0).
      split; [reflexivity|]. split; [exact H1|].
      assert (Hp : Permutation heap
                     (returnitem :: siftup (key_lt key) (lastelt :: rest) 0)).
      { rewrite Hsplit. simpl. apply perm_skip.
        etransitivity; [|symmetry; exact H2].
        symmetry. apply Permutation_cons_append. }
      split; [exact Hp|].
      intros x Hx.
      assert (Hin : In x heap).
      { eapply Permutation_in; [symmetry; exact Hp|]. now right. }
      apply In_nth_error in Hin. destruct Hin as [i Hi].
      exact (heap_ok_root heap returnitem Hok Hroot i x Hi).
Qed.

Lemma heappop_nil : heappop (key_lt key) (@nil A) = None.
Proof. reflexivity. Qed.

(** Repeated [heappop] yields every item, least keys first. *)
Lemma drain_ok fuel (heap : list A) :
  heap_ok key heap -> fuel = List.length heap ->
  Permutation (drain (key_lt key) fuel heap) heap /\
  StronglySorted (fun a b => (key a <= key b)%Z) (drain (key_lt key) fuel heap).
Proof.
  revert heap. induction fuel as [|fuel IH]; intros heap Hok Hf.
  - destruct heap; [|discriminate]. simpl. split; constructor.
  - assert (Hne : heap <> []) by (intros ->; discriminate).
    destruct (heappop_ok heap Hok Hne) as (m & heap' & Hp & Hok' & Hperm & Hmin).
    simpl. rewrite Hp.
    assert (Hl : fuel = List.length heap').
    { apply Permutation_length in Hperm. simpl in Hperm. lia. }
    destruct (IH heap' Hok' Hl) as [Hd Hs]. split.
    + etransitivity; [apply perm_skip, Hd|]. now symmetry.
    + constructor; [exact Hs|]. apply Forall_forall. intros x Hx.
      apply Hmin. eapply Permutation_in; [exact Hd|exact Hx].
Qed.
End HeapqFacts.

Lemma event_lt_key : event_lt = key_lt ev_priority.
Proof. reflexivity. Qed.

Section DictSet.
Context {V : Type}.

Lemma dict_get_default_set_same k (v d0 : V) d :
  dict_get_default k d0 (dict_set k v d) = v.
Proof. unfold dict_get_default. now rewrite dict_set_get. Qed.

Lemma dict_get_set_other t k (v : V) d :
  t <> k -> dict_get fst t (dict_set k v d) = dict_get fst t d.
Proof.
  intros Hne. induction d as [|[k' v'] r IH]; simpl.
  - destruct (String.eqb_spec k t); congruence.
  - destruct (String.eqb_spec k' k) as [->|E]; simpl.
    + destruct (String.eqb_spec k t); congruence.
    + now rewrite IH.
Qed.

Lemma dict_get_default_set_other t k (v d0 : V) d :
  t <> k -> dict_get_default t d0 (dict_set k v d) = dict_get_default t d0 d.
Proof. intros H. unfold dict_get_default. now rewrite dict_get_set_other. Qed.

Lemma dict_set_keys_in k (v : V) d x :
  In x (map fst (dict_set k v d)) <-> x = k \/ In x (map fst d).
Proof.
  induction d as [|[k' v'] r IH]; simpl.
  - intuition.
  - destruct (String.eqb_spec k' k) as [->|E]; simpl.
    + intuition.
    + rewrite IH. intuition.
Qed.

Lemma dict_set_nodup k (v : V) d :
  NoDup (map fst d) -> NoDup (map fst (dict_set k v d)).
Proof.
  induction d as [|[k' v'] r IH]; simpl; intros H.
  - constructor; [intros []|constructor].
  - inversion H as [|? ? Hn Hr]; subst.
    destruct (String.eqb_spec k' k) as [->|E]; simpl.
    + now constructor.
    + constructor; [|now apply IH].
      rewrite dict_set_keys_in. intros [->|Hin]; [congruence|contradiction].
Qed.
End DictSet.

Lemma sum_counts_set k v d :
  (sum_counts (dict_set k v d) + dict_get_default k 0 d =
   sum_counts d + v)%nat.
Proof.
  unfold dict_get_default.
  induction d as [|[k' v'] r IH]; simpl.
  - lia.
  - destruct (String.eqb k' k) eqn:E; simpl; rewrite ?E; simpl; lia.
Qed.

Lemma count_types_spec log :
  forall acc,
    NoDup (map fst acc) ->
    let counts :=
      fold_left
        (fun counts entry =>
           dict_set (log_type entry)
             (S (dict_get_default (log_type entry) 0%nat counts)) counts)
        log acc in
    NoDup (map fst counts) /\
    sum_counts counts = (sum_counts acc + List.length log)%nat /\
    forall t,
      dict_get_default t 0%nat counts =
      (dict_get_default t 0%nat acc + count_if (has_type t) log)%nat.
Proof.
  induction log as [|e log IH]; intros acc Hnd; simpl.
  - split; [exact Hnd|]. split; [lia|]. intros t. unfold count_if. simpl. lia.
  - destruct (IH (dict_set (log_type e)
                    (S (dict_get_default (log_type e) 0%nat acc)) acc))
      as (H1 & H2 & H3); [now apply dict_set_nodup|].
    split; [exact H1|]. split.
    + rewrite H2.
      pose proof (sum_counts_set (log_type e)
                    (S (dict_get_default (log_type e) 0%nat acc)) acc).
      lia.
    + intros t. rewrite H3, count_if_cons. unfold has_type at 2.
      destruct (String.eqb_spec (log_type e) t) as [<-|E].
      * rewrite dict_get_default_set_same. lia.
      * rewrite dict_get_default_set_other by congruence. lia.
Qed.

(** X14.  In the statistics of a handler the counts by type add up to the
    number of events logged, each type is listed once, and the count of a
    type is the number of log entries of that type (0 for a type never
    logged). *)
Theorem get_event_statistics_by_type :
  forall h : EventHandler,
    let st := get_event_statistics h in
    sum_counts (by_type st) = total_events st /\
    NoDup (map fst (by_type st)) /\
    forall t,
      dict_get_default t 0%nat (by_type st) =
      count_if (has_type t) (event_log h).
Proof.
  intros h. simpl. unfold count_types.
  destruct (count_types_spec (event_log h) [] (NoDup_nil _)) as (H1 & H2 & H3).
  split; [exact H2|]. split; [exact H1|]. intros t. now rewrite H3.
Qed.

Section EventQueueFacts.
Variable clock : nat -> Z.

Lemma add_event_spec p e h :
  heap_ok ev_priority (event_queue h) ->
  heap_ok ev_priority (event_queue (add_event clock p e h)) /\
  Permutation (map queued (event_queue (add_event clock p e h)))
    ((p, e) :: map queued (event_queue h)) /\
  map log_data (event_log (add_event clock p e h)) =
    map log_data (event_log h) ++ [e] /\
  map log_type (event_log (add_event clock p e h)) =
    map log_type (event_log h) ++ [event_type e] /\
  now_calls (engine (add_event clock p e h)) = S (now_calls (engine h)).
Proof.
  intros Hok. unfold add_event. simpl. rewrite event_lt_key.
  destruct (heappush_ok ev_priority (event_queue h)
              (mkQueuedEvent p e (clock (now_calls (engine h)))) Hok)
    as [H1 H2].
  split; [exact H1|]. split.
  - apply (Permutation_map queued) in H2. exact H2.
  - rewrite !map_app. simpl. repeat split.
Qed.

Lemma add_events_spec l :
  forall h,
    heap_ok ev_priority (event_queue h) ->
    heap_ok ev_priority (event_queue (add_events clock l h)) /\
    Permutation (map queued (event_queue (add_events clock l h)))
      (l ++ map queued (event_queue h)) /\
    map log_type (event_log (add_events clock l h)) =
      map log_type (event_log h) ++ map (fun pe => event_type (snd pe)) l /\
    now_calls (engine (add_events clock l h)) =
      (now_calls (engine h) + List.length l)%nat.
Proof.
  induction l as [|[p e] l IH]; intros h Hok.
  - simpl. split; [exact Hok|]. split; [reflexivity|].
    rewrite app_nil_r. split; [reflexivity|lia].
  - destruct (add_event_spec p e h Hok) as (H1 & H2 & _ & H4 & H5).
    destruct (IH (add_event clock p e h) H1) as (I1 & I2 & I3 & I4).
    unfold add_events in *. simpl fold_left.
    split; [exact I1|]. split; [|split].
    + etransitivity; [exact I2|]. simpl.
      etransitivity; [apply Permutation_app_head, H2|].
      symmetry. apply Permutation_middle.
    + rewrite I3, H4. simpl. now rewrite <- app_assoc.
    + rewrite I4, H5. simpl. lia.
Qed.

Lemma pop_order_spec queue :
  heap_ok ev_priority queue ->
  Permutation (pop_order queue) queue /\
  StronglySorted by_priority (pop_order queue).
Proof.
  intros Hok. unfold pop_order. rewrite event_lt_key.
  exact (drain_ok ev_priority _ queue Hok eq_refl).
Qed.

(** X12.  Whatever events [add_event] has queued on a new handler, and in
    whatever order, popping the queue until it is empty yields each of them
    once, in non-decreasing priority value. *)
Theorem event_queue_pops_by_priority :
  forall (l : list (Z * Event)) (s : Engine),
    let h := add_events clock l (new_event_handler s) in
    Permutation (map queued (pop_order (event_queue h))) l /\
    StronglySorted by_priority (pop_order (event_queue h)).
Proof.
  intros l s h.
  destruct (add_events_spec l (new_event_handler s) (heap_ok_nil ev_priority))
    as (H1 & H2 & _).
  fold h in H1, H2. simpl in H2. rewrite app_nil_r in H2.
  destruct (pop_order_spec _ H1) as [P1 P2].
  split; [|exact P2].
  etransitivity; [apply Permutation_map, P1|exact H2].
Qed.

Lemma process_queue_spec fuel :
  forall h,
    heap_ok ev_priority (event_queue h) ->
    fuel = List.length (event_queue h) ->
    match process_events clock
            (map ev_event (drain event_lt fuel (event_queue h))) (engine h)
    with
    | Returned _ s' =>
        process_queue clock fuel h =
        (mkEventHandler s' [] (event_log h), None)
    | Raised k s' =>
        exists queue',
          process_queue clock fuel h =
          (mkEventHandler s' queue' (event_log h), Some k) /\
          (List.length queue' < List.length (event_queue h))%nat
    end.
Proof.
  induction fuel as [|fuel IH]; intros h Hok Hf.
  - destruct h as [s q lg]. simpl in *. destruct q; [reflexivity|discriminate].
  - assert (Hne : event_queue h <> []) by (intros E; rewrite E in Hf; discriminate).
    destruct (heappop_ok ev_priority _ Hok Hne)
      as (m & q' & Hp & Hok' & Hperm & _).
    rewrite <- event_lt_key in Hp. simpl. rewrite Hp. simpl.
    assert (Hl : fuel = List.length q').
    { apply Permutation_length in Hperm. simpl in Hperm. lia. }
    destruct (handle_event clock (ev_event m) (engine h)) as [[] s1|k s1];
      simpl.
    + specialize (IH (mkEventHandler s1 q' (event_log h)) Hok' Hl).
      simpl in IH.
      destruct (process_events clock (map ev_event (drain event_lt fuel q')) s1)
        as [[] s2|k s2].
      * exact IH.
      * destruct IH as (q2 & E & L). exists q2. split; [exact E|].
        apply Permutation_length in Hperm. simpl in Hperm. lia.
    + exists q'. split; [reflexivity|].
      apply Permutation_length in Hperm. simpl in Hperm. lia.
Qed.


(** X15.  After [add_event] has been called for each of the events [l] on a
    new handler, the statistics report [length l] events in total and as
    many pending, and the clock has been read once per event; once
    [process_events] has run without an exception, they report no event
    pending and still [length l] in total: the log counts the events added,
    processed or not. *)
Theorem statistics_after_adding_and_processing :
  forall (l : list (Z * Event)) (s : Engine),
    let h := add_events clock l (new_event_handler s) in
    let st := get_event_statistics h in
    let st' := get_event_statistics (fst (process_event_queue clock h)) in
    total_events st = List.length l /\
    pending st = List.length l /\
    now_calls (engine h) = (now_calls s + List.length l)%nat /\
    total_events st' = List.length l /\
    (snd (process_event_queue clock h) = None -> pending st' = 0%nat).
Proof.
  intros l s h.
  destruct (add_events_spec l (new_event_handler s) (heap_ok_nil ev_priority))
    as (H1 & H2 & H3 & H4).
  fold h in H1, H2, H3, H4. simpl in H2, H3, H4. rewrite app_nil_r in H2.
  assert (Ht : List.length (event_log h) = List.length l).
  { rewrite <- (length_map log_type), H3. apply length_map. }
  assert (Hq : List.length (event_queue h) = List.length l).
  { rewrite <- (length_map queued (event_queue h)).
    now apply Permutation_length. }
  pose proof (process_queue_spec (List.length (event_queue h)) h H1 eq_refl)
    as Hp.
  fold (process_event_queue clock h) in Hp.
  simpl. split; [exact Ht|]. split; [exact Hq|]. split; [exact H4|].
  destruct (process_events clock _ (engine h)) as [[] s'|k s'].
  - rewrite Hp. simpl. split; [exact Ht|reflexivity].
  - destruct Hp as (q' & -> & _). simpl. split; [exact Ht|discriminate].
Qed.
End EventQueueFacts.

(** ** Performance indicators *)

Lemma inject_succ (c : nat) :
  inject_Z (Z.of_nat (1 + c)) == 1 + inject_Z (Z.of_nat c).
Proof. rewrite Nat2Z.inj_add, inject_Z_plus. reflexivity. Qed.

Lemma sumQ_utilization (l : list Machine) acc :
  fold_left Qplus (map utilization_of l) acc ==
  acc + 100 * inject_Z (Z.of_nat (count_if (m_has_status RUNNING) l)).
Proof.
  revert acc. induction l as [|m l IH]; intros acc.
  - change (acc == acc + 100 * 0). ring.
  - simpl fold_left. rewrite IH, count_if_cons.
    assert (Hm : m_has_status RUNNING m =
                 MachineStatus_eqb (m_current_status m) RUNNING)
      by reflexivity.
    rewrite Hm. unfold utilization_of.
    destruct (m_current_status m);
      cbn [MachineStatus_eqb]; rewrite ?inject_succ; rewrite ?Nat.add_0_l;
      ring.
Qed.

Lemma count_if_le_length {A : Type} (p : A -> bool) l :
  (count_if p l <= List.length l)%nat.
Proof. unfold count_if. apply filter_length_le. Qed.

Lemma average_of_machines (l : list Machine) :
  l <> [] ->
  average_of (map (fun m => (machine_id m, utilization_of m)) l) ==
  100 * inject_Z (Z.of_nat (count_if (m_has_status RUNNING) l)) /
  inject_Z (Z.of_nat (List.length l)).
Proof.
  intros Hne. unfold average_of.
  destruct (map (fun m => (machine_id m, utilization_of m)) l) eqn:E.
  - destruct l; [congruence|discriminate].
  - rewrite <- E. rewrite map_map, length_map. simpl snd. unfold sumQ.
    change (fun x : Machine => utilization_of x) with utilization_of.
    rewrite sumQ_utilization. rewrite Qplus_0_l. reflexivity.
Qed.

(** X16.  The average of [calculate_machine_utilization] is 100 times the
    share of RUNNING machines (0 for no machine), so it lies between 0 and
    100; the four status counts add up to the number of machines; the
    status is the check mark exactly when there is a machine and at least
    four machines in five are RUNNING. *)
Theorem calculate_machine_utilization_average :
  forall s : Engine,
    let r := calculate_machine_utilization s in
    let n := List.length (machines s) in
    mu_average r * inject_Z (Z.of_nat n) ==
      100 * inject_Z (Z.of_nat (running (status_counts r))) /\
    0 <= mu_average r <= 100 /\
    (running (status_counts r) + idle (status_counts r) +
     maintenance (status_counts r) + breakdown (status_counts r) = n)%nat /\
    (mu_status r = on_target <->
     (0 < n)%nat /\ (4 * n <= 5 * running (status_counts r))%nat).
Proof.
  intros s. unfold calculate_machine_utilization. simpl.
  destruct (machines s) as [|m0 l0] eqn:E.
  - simpl. split; [reflexivity|]. split; [split; discriminate|].
    split; [reflexivity|]. split; [discriminate|]. intros [H _]. lia.
  - rewrite <- E.
    assert (Hne : machines s <> []) by (rewrite E; discriminate).
    pose proof (average_of_machines (machines s) Hne) as Ha.
    pose proof (count_if_le_length (m_has_status RUNNING) (machines s)) as Hk.
    set (a := average_of _) in *.
    set (k := count_if (m_has_status RUNNING) (machines s)) in *.
    assert (Hn : (0 < Z.of_nat (List.length (machines s)))%Z)
      by (rewrite E; simpl; lia).
    assert (Hq : 0 < inject_Z (Z.of_nat (List.length (machines s))))
      by (unfold Qlt; simpl; lia).
    assert (Heq : a * inject_Z (Z.of_nat (List.length (machines s))) ==
                  100 * inject_Z (Z.of_nat k)).
    { rewrite Ha. field. intros H0. rewrite H0 in Hq. discriminate. }
    assert (Hcmp : forall c : Z,
               inject_Z c <= a <->
               (c * Z.of_nat (List.length (machines s)) <= 100 * Z.of_nat k)%Z).
    { intros c.
      rewrite <- (Qmult_le_r _ _ _ Hq), Heq.
      unfold Qle. simpl. rewrite !Z.mul_1_r. reflexivity. }
    assert (Hcmp' : forall c : Z,
               a <= inject_Z c <->
               (100 * Z.of_nat k <= c * Z.of_nat (List.length (machines s)))%Z).
    { intros c.
      rewrite <- (Qmult_le_r _ _ _ Hq), Heq.
      unfold Qle. simpl. rewrite !Z.mul_1_r. reflexivity. }
    assert (H80 : 80 <= a <-> (4 * List.length (machines s) <= 5 * k)%nat).
    { rewrite (Hcmp 80%Z). lia. }
    split; [|split; [|split]].
    + exact Heq.
    + split.
      * apply (Hcmp 0%Z). lia.
      * apply (Hcmp' 100%Z). lia.
    + pose proof (machine_status_partition (machines s)). fold k in H. lia.
    + destruct (Qle_bool 80 a) eqn:Eb.
      * apply Qle_bool_iff in Eb. apply H80 in Eb.
        split; [intros _; split; [rewrite E; simpl; lia|exact Eb]|reflexivity].
      * split.
        -- destruct (Qle_bool 65 a); discriminate.
        -- intros [_ H]. apply H80 in H. apply Qle_bool_iff in H.
           rewrite H in Eb. discriminate.
Qed.

Section Conflicts.
Variable clock : nat -> Z.

Lemma dict_set_length_absent {V : Type} k (v : V) d :
  dict_get fst k d = None ->
  List.length (dict_set k v d) = S (List.length d).
Proof.
  induction d as [|[k' v'] r IH]; simpl; [reflexivity|].
  destruct (String.eqb k' k); [discriminate|]. simpl. intros H.
  now rewrite IH.
Qed.

Lemma reserve_materials_table reqs s :
  last_reallocation_time (final_state (reserve_materials reqs s)) =
  last_reallocation_time s.
Proof.
  revert s. induction reqs as [|r reqs IH]; intros s; simpl; [reflexivity|].
  destruct (dict_get material_id (req_material_id r) (materials s));
    [|reflexivity].
  now rewrite IH.
Qed.

Lemma allocate_resources_table wid s :
  dict_get fst wid (last_reallocation_time s) = None ->
  exists b s',
    allocate_resources clock wid s = Returned b s' /\
    List.length (last_reallocation_time s') =
      ((if b then 1 else 0) + List.length (last_reallocation_time s))%nat /\
    forall k, k <> wid ->
      dict_get fst k (last_reallocation_time s') =
      dict_get fst k (last_reallocation_time s).
Proof.
  intros Habs.
  destruct (allocate_resources_returns clock wid s) as (b & s' & Hr).
  exists b, s'. split; [exact Hr|].
  unfold allocate_resources in Hr.
  destruct (dict_get work_order_id wid (work_orders s)) as [w|].
  2:{ injection Hr as <- <-. split; [reflexivity|auto]. }
  destruct (find_best_allocation s w) as [[[o m] sc]|].
  2:{ injection Hr as <- <-. split; [reflexivity|auto]. }
  pose proof (reserve_materials_table (required_materials w) s) as Hl1.
  destruct (reserve_materials (required_materials w) s) as [[] s1|k s1];
    simpl in Hr, Hl1; [|discriminate].
  injection Hr as <- <-. simpl. rewrite Hl1. split.
  - now apply dict_set_length_absent.
  - intros k Hk. now apply dict_get_set_other.
Qed.

Lemma allocate_all_table ids res s :
  NoDup ids ->
  (forall k, In k ids -> dict_get fst k (last_reallocation_time s) = None) ->
  exists res' s',
    allocate_all clock ids res s = Returned res' s' /\
    (List.length (last_reallocation_time s') + allocated res =
     List.length (last_reallocation_time s) + allocated res')%nat.
Proof.
  revert res s. induction ids as [|wid r IH]; intros res s Hnd Habs.
  - exists res, s. split; [reflexivity|lia].
  - inversion Hnd as [|? ? Hwid Hr]; subst.
    destruct (allocate_resources_table wid s (Habs wid (or_introl eq_refl)))
      as (b & s1 & Hr1 & Hl1 & Ho1).
    simpl. rewrite Hr1. simpl.
    match goal with
    | |- context [allocate_all clock r ?res1 s1] =>
        destruct (IH res1 s1 Hr) as (res' & s' & Hr' & Hl')
    end.
    { intros k Hk. rewrite Ho1; [apply Habs; now right|].
      intros ->. contradiction. }
    exists res', s'. split; [exact Hr'|].
    destruct b; simpl in *; lia.
Qed.

Lemma count_if_was_allocated l :
  count_if was_allocated l =
  (count_if (wo_has_status IN_PROGRESS) l +
   count_if (wo_has_status COMPLETED) l)%nat.
Proof.
  induction l as [|w l IH]; [reflexivity|].
  rewrite !count_if_cons, IH.
  assert (H1 : forall st, wo_has_status st w = WorkOrderStatus_eqb (status w) st)
    by reflexivity.
  rewrite !H1. unfold was_allocated.
  destruct (status w); simpl; lia.
Qed.

Lemma count_if_none {A : Type} (p : A -> bool) l :
  (forall x, In x l -> p x = false) -> count_if p l = 0%nat.
Proof.
  induction l as [|x l IH]; intros H; [reflexivity|].
  rewrite count_if_cons, (H x (or_introl eq_refl)), IH; [reflexivity|].
  intros y Hy. apply H. now right.
Qed.

(** X17.  On an engine that has not allocated anything yet (distinct
    identifiers), after one pass of [process_allocations] the reallocation
    rate of [calculate_allocation_conflicts] is 100 as soon as the pass has
    started one work order, and 0 otherwise: every first allocation is
    counted as a reallocation, and the status is then the cross.  The
    blocked count has grown by the number of work orders the pass
    blocked. *)
Theorem first_allocations_count_as_reallocations :
  forall s : Engine,
    distinct_ids s ->
    never_allocated s ->
    exists res s',
      process_allocations clock s = Returned res s' /\
      reallocation_rate (calculate_allocation_conflicts s') ==
        (if Nat.eqb (allocated res) 0 then 0 else 100) /\
      (conflicts_status (calculate_allocation_conflicts s') =
         if Nat.eqb (allocated res) 0 then on_target else off_target) /\
      blocked_orders (calculate_allocation_conflicts s') =
        (blocked_orders (calculate_allocation_conflicts s) + blocked res)%nat.
Proof.
  intros s Hd [Htab Hnone]. unfold process_allocations.
  destruct (allocate_all_summary clock
              (map work_order_id (prioritize_work_orders s))
              (mkStats 0 0 (List.length (prioritize_work_orders s))) s Hd)
    as (res & s' & Hr & _ & Hs & _ & _).
  { apply pending_ids_prioritized, Hd. }
  destruct (allocate_all_table
              (map work_order_id (prioritize_work_orders s))
              (mkStats 0 0 (List.length (prioritize_work_orders s))) s)
    as (res2 & s2 & Hr2 & Hl).
  { apply (pending_ids_prioritized s), Hd. }
  { intros k _. now rewrite Htab. }
  rewrite Hr in Hr2. injection Hr2 as <- <-.
  exists res, s'. split; [exact Hr|].
  simpl in Hs, Hl. rewrite !Nat.sub_0_r in Hs. rewrite Htab in Hl.
  simpl in Hl.
  destruct Hs as (_ & _ & _ & Hcomp & _ & Hprog & Hblk & _).
  simpl in Hcomp, Hprog, Hblk.
  pose proof (count_if_was_allocated (work_orders s)) as Ca.
  pose proof (count_if_was_allocated (work_orders s')) as Ca'.
  rewrite (count_if_none _ _ Hnone) in Ca.
  assert (Ht : count_if was_allocated (work_orders s') = allocated res)
    by lia.
  assert (Hc : List.length (last_reallocation_time s') = allocated res)
    by lia.
  unfold calculate_allocation_conflicts. simpl. rewrite Ht, Hc.
  destruct (allocated res) as [|n] eqn:En.
  - simpl. split; [reflexivity|]. split; [reflexivity|exact Hblk].
  - assert (Hrate : inject_Z (Z.of_nat (S n)) / inject_Z (Z.of_nat (S n)) * 100
                    == 100).
    { field. unfold Qeq. simpl. lia. }
    change (Nat.ltb 0 (S n)) with true. cbv iota.
    change (Nat.eqb (S n) 0) with false. cbv iota.
    split; [exact Hrate|]. split; [|exact Hblk].
    assert (E15 : Qle_bool
                    (inject_Z (Z.of_nat (S n)) / inject_Z (Z.of_nat (S n)) * 100)
                    15 = false).
    { destruct (Qle_bool _ 15) eqn:E; [|reflexivity].
      apply Qle_bool_iff in E. rewrite Hrate in E.
      unfold Qle in E. simpl in E. lia. }
    assert (E25 : Qle_bool
                    (inject_Z (Z.of_nat (S n)) / inject_Z (Z.of_nat (S n)) * 100)
                    25 = false).
    { destruct (Qle_bool _ 25) eqn:E; [|reflexivity].
      apply Qle_bool_iff in E. rewrite Hrate in E.
      unfold Qle in E. simpl in E. lia. }
    now rewrite E15, E25.
Qed.
End Conflicts.

(** ** Work-order metrics *)

(** X18.  In [calculate_work_order_metrics] the four status counts add up
    to the total; the on-time rate is 100 times the share of the completed
    work orders that have a completion time not after their deadline (0
    when no work order is completed), so it lies between 0 and 100; it
    reaches the target mark exactly when some work order is completed and
    at least 19 in 20 of them are on time. *)
Theorem calculate_work_order_metrics_rates :
  forall s : Engine,
    let r := calculate_work_order_metrics s in
    let done := filter (wo_has_status COMPLETED) (work_orders s) in
    (wm_completed r + wm_in_progress r + wm_blocked r + wm_pending r =
     wm_total r)%nat /\
    otd_rate r * inject_Z (Z.of_nat (wm_completed r)) ==
      100 * inject_Z (Z.of_nat (count_if on_time done)) /\
    0 <= otd_rate r <= 100 /\
    (otd_status r = on_target <->
     (0 < wm_completed r)%nat /\
     (19 * wm_completed r <= 20 * count_if on_time done)%nat).
Proof.
  intros s. unfold calculate_work_order_metrics. simpl.
  set (done := filter (wo_has_status COMPLETED) (work_orders s)).
  split.
  { pose proof (work_order_status_partition (work_orders s)) as H.
    unfold count_if in H. fold done in H. lia. }
  pose proof (count_if_le_length on_time done) as Hk.
  set (k := count_if on_time done) in *.
  destruct done as [|w0 l0] eqn:E.
  - simpl. split; [reflexivity|]. split; [split; discriminate|].
    split; [discriminate|]. intros [H _]. lia.
  - rewrite <- E in *. clearbody done.
    set (n := List.length done) in *.
    assert (Hn : (0 < n)%nat) by (unfold n; rewrite E; simpl; lia).
    assert (Hq : 0 < inject_Z (Z.of_nat n)) by (unfold Qlt; simpl; lia).
    set (a := inject_Z (Z.of_nat k) / inject_Z (Z.of_nat n) * 100).
    assert (Heq : a * inject_Z (Z.of_nat n) == 100 * inject_Z (Z.of_nat k)).
    { unfold a. field. intros H0. rewrite H0 in Hq. discriminate. }
    assert (Hcmp : forall c : Z,
               inject_Z c <= a <-> (c * Z.of_nat n <= 100 * Z.of_nat k)%Z).
    { intros c. rewrite <- (Qmult_le_r _ _ _ Hq), Heq.
      unfold Qle. simpl. rewrite !Z.mul_1_r. reflexivity. }
    assert (Hcmp' : forall c : Z,
               a <= inject_Z c <-> (100 * Z.of_nat k <= c * Z.of_nat n)%Z).
    { intros c. rewrite <- (Qmult_le_r _ _ _ Hq), Heq.
      unfold Qle. simpl. rewrite !Z.mul_1_r. reflexivity. }
    split; [exact Heq|]. split.
    + split; [apply (Hcmp 0%Z); lia|apply (Hcmp' 100%Z); lia].
    + destruct (Qle_bool 95 a) eqn:Eb.
      * apply Qle_bool_iff in Eb. apply (Hcmp 95%Z) in Eb.
        split; [intros _; split; lia|reflexivity].
      * split.
        -- destruct (Qle_bool 90 a); discriminate.
        -- intros [_ H]. assert (H95 : 95 <= a) by (apply (Hcmp 95%Z); lia).
           apply Qle_bool_iff in H95. rewrite H95 in Eb. discriminate.
Qed.

(** ** Locations in the score *)

Lemma proximity_factor_values w o m :
  proximity_factor w o m ==
  1 - (if String.eqb (op_location o) (m_location m) then 0 else 1 # 20)
    - (if String.eqb (m_location m) (wo_location w) then 0 else 1 # 20).
Proof.
  unfold proximity_factor, calculate_distance.
  destruct (String.eqb (op_location o) (m_location m));
    destruct (String.eqb (m_location m) (wo_location w));
    vm_compute; reflexivity.
Qed.

(** X19.  The proximity factor is 1 when operator, machine and work order
    are at one location, and loses 0.05 for each of the two distances
    (operator to machine, machine to work order) between different
    locations, so it never falls below 0.9; moving the operator and the
    machine of a pair to any other locations changes the allocation score
    by at most 0.03. *)
Theorem locations_move_score_by_three_hundredths :
  forall (w : WorkOrder) (o : Operator) (m : Machine) (l1 l2 : string),
    9 # 10 <= proximity_factor w o m <= 1 /\
    (proximity_factor w o m == 1 <->
     op_location o = m_location m /\ m_location m = wo_location w) /\
    - (3 # 100) <=
      calculate_allocation_score w (operator_at l1 o) (machine_at l2 m) -
      calculate_allocation_score w o m <= 3 # 100.
Proof.
  intros w o m l1 l2.
  pose proof (proximity_factor_values w o m) as H0.
  pose proof (proximity_factor_values w (operator_at l1 o) (machine_at l2 m))
    as H1.
  split; [|split].
  - rewrite H0.
    destruct (String.eqb (op_location o) (m_location m));
      destruct (String.eqb (m_location m) (wo_location w));
      split; vm_compute; discriminate.
  - rewrite H0.
    destruct (String.eqb_spec (op_location o) (m_location m)) as [E1|E1];
      destruct (String.eqb_spec (m_location m) (wo_location w)) as [E2|E2];
      split; try (intros H; vm_compute in H; discriminate);
      try (intros [? ?]; congruence); try (intros _; split; assumption).
  - unfold calculate_allocation_score.
    assert (Es : skill_match_quality w (operator_at l1 o) =
                 skill_match_quality w o) by reflexivity.
    assert (Ee : machine_efficiency (machine_at l2 m) = machine_efficiency m)
      by reflexivity.
    assert (Ec : cost_optimization (operator_at l1 o) (machine_at l2 m) =
                 cost_optimization o m) by reflexivity.
    rewrite Es, Ee, Ec, H0, H1.
    destruct (String.eqb (op_location o) (m_location m));
      destruct (String.eqb (m_location m) (wo_location w));
      destruct (String.eqb (op_location (operator_at l1 o))
                  (m_location (machine_at l2 m)));
      destruct (String.eqb (m_location (machine_at l2 m)) (wo_location w));
      split; lra.
Qed.

(** ** Freeing an operator *)

Section OperatorAvailable.
Variable clock : nat -> Z.

(** X20.  [handle_operator_available] for an operator of the catalog
    (distinct work-order identifiers) returns and leaves no work order
    PENDING: when one is pending it runs the bulk pass, which starts or
    blocks each of them.  The work orders that were not PENDING are as they
    were, also the one the operator was serving. *)
Theorem handle_operator_available_leaves_no_pending :
  forall (oid : string) (s : Engine),
    NoDup (map work_order_id (work_orders s)) ->
    dict_get operator_id oid (operators s) <> None ->
    exists s',
      handle_operator_available clock oid s = Returned tt s' /\
      filter is_pending (work_orders s') = [] /\
      forall k w,
        dict_get work_order_id k (work_orders s) = Some w ->
        status w <> PENDING ->
        dict_get work_order_id k (work_orders s') = Some w.
Proof.
  intros oid s Hnd Hop. unfold handle_operator_available.
  destruct (dict_get operator_id oid (operators s)) as [o|]; [|congruence].
  set (s1 := update_operator oid (set_op_assignment AVAILABLE None) s).
  assert (Hw1 : work_orders s1 = work_orders s) by reflexivity.
  destruct (Nat.ltb_spec 0 (List.length (filter is_pending (work_orders s1))))
    as [Hp|Hp].
  - destruct (process_allocations_returns clock s1) as (res & s' & Hr).
    rewrite Hr. simpl. exists s'. split; [reflexivity|].
    assert (Hnd1 : NoDup (map work_order_id (work_orders s1)))
      by now rewrite Hw1.
    split.
    + pose proof (process_allocations_no_pending clock s1 Hnd1) as H.
      now rewrite Hr in H.
    + intros k w Hg Hs.
      pose proof (process_allocations_keeps clock k w s1 Hnd1 Hg Hs) as Hk.
      unfold post in Hk. now rewrite Hr in Hk.
  - exists s1. split; [reflexivity|]. split.
    + destruct (filter is_pending (work_orders s1)); [reflexivity|].
      simpl in Hp. lia.
    + intros k w Hg _. exact Hg.
Qed.
End OperatorAvailable.

(** * Scenarios *)

Ltac by_lookup H :=
  simpl in H;
  repeat match type of H with
         | (if ?c then _ else _) = _ => destruct c
         end;
  try discriminate H.

Ltac q_compare := unfold Qle, Qlt, Qeq; simpl; lia.

Lemma sample_wf : wf_catalog sample.
Proof.
  unfold wf_catalog. simpl.
  repeat split; repeat constructor; simpl; intuition discriminate.
Defined.

Lemma sample_pending : in_progress_consistent sample.
Proof.
  intros k w Hg Hs. by_lookup Hg; injection Hg as <-; discriminate Hs.
Defined.



Lemma sample_materials_present : materials_present wo_101 sample.
Proof.
  intros r Hin. simpl in Hin. destruct Hin as [<-|[]]. simpl. now left.
Defined.

(** The fixture of the design: the allocation of WO-101 succeeds, reserves
    50 units of MAT-001, and leaves the work order IN_PROGRESS, the
    operator ASSIGNED and the machine RUNNING. *)
Example sample_allocation :
  exists s',
    allocate_resources sample_clock "WO-101" sample = Returned true s' /\
    materials s' = [mkMaterial "MAT-001" 1000 50] /\
    map status (work_orders s') = [IN_PROGRESS; PENDING] /\
    map op_current_status (operators s') = [ASSIGNED] /\
    map m_current_status (machines s') = [RUNNING; IDLE].
Proof. eexists. split; [vm_compute; reflexivity|]. now vm_compute. Qed.

(** A breakdown of the only machine that can do the work: the work order
    is BLOCKED, its operator AVAILABLE again, and nothing is allocated. *)
Example breakdown_without_substitute :
  exists s',
    bind (allocate_resources sample_clock "WO-101" sample_single_machine)
      (fun _ s => handle_machine_breakdown sample_clock "M-001" s) =
      Returned tt s' /\
    map status (work_orders s') = [BLOCKED] /\
    map op_current_status (operators s') = [AVAILABLE] /\
    map m_current_status (machines s') = [BREAKDOWN].
Proof. eexists. split; [vm_compute; reflexivity|]. now vm_compute. Qed.

(** A shortage of MAT-001 blocks the work order in progress and frees its
    operator and machine; the delivery that follows makes it PENDING again
    and the bulk pass allocates it. *)
Example shortage_then_delivery :
  map status (work_orders sample_blocked) = [BLOCKED; PENDING] /\
  map op_current_status (operators sample_blocked) = [AVAILABLE] /\
  map m_current_status (machines sample_blocked) = [IDLE; IDLE] /\
  exists s',
    handle_material_delivered sample_clock "MAT-001" 100 sample_blocked =
      Returned tt s' /\
    map status (work_orders s') = [IN_PROGRESS; BLOCKED] /\
    map op_current_status (operators s') = [ASSIGNED].
Proof.
  repeat split; try reflexivity.
  eexists. split; [vm_compute; reflexivity|]. now vm_compute.
Qed.

(** Priorities 10, 8, 9, 7, 6 with equal deadlines come out in descending
    order. *)
Example sample_priorities_sorted :
  map priority (prioritize_work_orders sample_priorities) =
  [10; 9; 8; 7; 6]%Z.
Proof. reflexivity. Qed.


(** A work order that names a material twice is checked one requirement at
    a time and reserved for both: the reservation exceeds the stock. *)
Example double_requirement_exceeds_stock :
  reserved_within_available sample_twice /\
  materials (final_state (allocate_resources sample_clock "WO-901" sample_twice))
  = [mkMaterial "MAT-001" 1000 1200].
Proof.
  split; [|now vm_compute].
  intros k mat Hg. by_lookup Hg. injection Hg as <-. q_compare.
Qed.


(** C2, counterexample.  WO-101 is in progress on M-001; the maintenance
    of M-001 leaves the work order IN_PROGRESS with a machine that is not
    RUNNING. *)
Lemma maintenance_breaks_in_progress_consistency :
  wf_catalog sample_running /\ in_progress_consistent sample_running /\
  ~ in_progress_consistent
      (run sample_clock (run_event (machine_maintenance "M-001" 60))
         sample_running).
Proof.
  destruct (consistent_allocate sample_clock "WO-101" sample
              (conj sample_wf sample_pending)) as [Hwf HJ].
  split; [exact Hwf|]. split; [exact HJ|].
  intros H.
  destruct (H "WO-101"
              (mkWorkOrder "WO-101" 10 ["welding"] "welding"
                 [mkReq "MAT-001" 50] 60 7200 IN_PROGRESS (Some "OP-001")
                 (Some "M-001") (Some 0%Z) None "Zone-A" 0)
              eq_refl eq_refl)
    as (oid & mid & o & m & _ & A2 & _ & _ & _ & A6 & A7 & _).
  injection A2 as <-. vm_compute in A6. injection A6 as <-.
  discriminate A7.
Qed.

(** C2, witness: the allocation of WO-101 in the sample catalog. *)
Lemma in_progress_consistent_preserved_witness :
  wf_catalog sample /\ in_progress_consistent sample /\
  keeps_assignments (run_allocate_resources "WO-101") sample /\
  wf_catalog sample_running /\ in_progress_consistent sample_running.
Proof.
  split; [exact sample_wf|]. split; [exact sample_pending|].
  split; [exact I|].
  exact (in_progress_consistent_preserved sample_clock
           (run_allocate_resources "WO-101") sample
           sample_wf sample_pending I).
Defined.




(** C6.  A handler returns with the store unchanged when the identifier of
    its payload is not in the catalog.  An identifier reached through the
    payload is looked up without that guard: the completion of WO-902, whose
    material MAT-404 is not in the catalog, marks the work order COMPLETED
    and then raises [KeyError]; the breakdown of M-003, whose current work
    order WO-404 is not in the catalog, marks the machine BREAKDOWN and
    then raises [KeyError].  [process_events] does not catch the exception:
    the events behind the failing one are not handled. *)
Theorem handlers_raise_on_dangling_reference :
  (forall clock s k,
     (dict_get machine_id k (machines s) = None ->
      handle_machine_breakdown clock k s = Returned tt s /\
      forall d, handle_machine_maintenance clock k d s = Returned tt s) /\
     (dict_get operator_id k (operators s) = None ->
      handle_operator_available clock k s = Returned tt s) /\
     (dict_get work_order_id k (work_orders s) = None ->
      handle_work_order_completion clock k s = Returned tt s) /\
     (dict_get material_id k (materials s) = None ->
      handle_material_shortage k s = Returned tt s /\
      forall q, handle_material_delivered clock k q s = Returned tt s)) /\
  (exists s',
     handle_work_order_completion sample_clock "WO-902" sample_dangling =
       Raised "MAT-404" s' /\
     map status (work_orders sample_dangling) = [PENDING] /\
     map status (work_orders s') = [COMPLETED]) /\
  (exists s',
     handle_machine_breakdown sample_clock "M-003" sample_dangling =
       Raised "WO-404" s' /\
     map m_current_status (machines sample_dangling) = [RUNNING] /\
     map m_current_status (machines s') = [BREAKDOWN]) /\
  (exists s',
     process_events sample_clock
       [work_order_complete "WO-902"; material_delivered "MAT-001" 10]
       sample_dangling = Raised "MAT-404" s' /\
     materials s' = materials sample_dangling).
Proof.
  split; [|split; [|split]];
    [|eexists; split; [vm_compute; reflexivity|]; split; reflexivity ..
     |eexists; split; [vm_compute; reflexivity|reflexivity]].
  - intros clock s k. split; [|split; [|split]]; intros H.
    + split; [|intros d].
      * unfold handle_machine_breakdown. now rewrite H.
      * unfold handle_machine_maintenance. now rewrite H.
    + unfold handle_operator_available. now rewrite H.
    + unfold handle_work_order_completion. now rewrite H.
    + split; [|intros q].
      * unfold handle_material_shortage. now rewrite H.
      * unfold handle_material_delivered. now rewrite H.
Qed.

(** C7, counterexample.  WO-101 runs with 50 units of MAT-001 reserved and
    WO-104 waits for the operator.  The completion of WO-101 lowers the
    available quantity by 50, but the reserved quantity ends at 30, not at
    0: the bulk pass that follows the release of the operator reserves 30
    units for WO-104. *)
Lemma completion_with_cascade_reserves_again :
  materials sample_running = [mkMaterial "MAT-001" 1000 50] /\
  exists s',
    handle_work_order_completion sample_clock "WO-101" sample_running =
      Returned tt s' /\
    materials s' = [mkMaterial "MAT-001" 950 30] /\
    ~ consumed wo_101 sample_running s'.
Proof.
  split; [reflexivity|].
  eexists. split; [vm_compute; reflexivity|]. split; [reflexivity|].
  intros [_ H].
  destruct (H "MAT-001" (mkMaterial "MAT-001" 1000 50) eq_refl)
    as (mat' & Hg & Hr & _).
  vm_compute in Hg. injection Hg as <-. revert Hr. q_compare.
Qed.

(** C7, witness: the completion of WO-101 while it is pending in the
    sample catalog. *)
Lemma handle_work_order_completion_consumes_witness :
  dict_get work_order_id "WO-101" (work_orders sample) = Some wo_101 /\
  materials_present wo_101 sample /\
  available_consumed wo_101 sample
    (final_state (handle_work_order_completion sample_clock "WO-101" sample)).
Proof.
  split; [reflexivity|]. split; [exact sample_materials_present|].
  exact (proj1 (proj2 (handle_work_order_completion_consumes sample_clock
                         "WO-101" sample wo_101 eq_refl
                         sample_materials_present))).
Defined.

(** C9, counterexample.  With level 10 for the required skill the skill
    term is 2 and the score 1.31; with a negative hourly cost and levels
    within 1..5 the cost term is 1.65 and the score above 1: neither term
    is clamped. *)
Lemma score_terms_not_clamped :
  skill_match_quality wo_101 op_level_10 == 2 /\
  1 < calculate_allocation_score wo_101 op_level_10 m_001 /\
  levels_in_range wo_101 op_negative_cost /\
  1 < cost_optimization op_negative_cost m_fast /\
  1 < calculate_allocation_score wo_101 op_negative_cost m_fast.
Proof.
  split; [q_compare|]. split; [q_compare|]. split.
  { intros skill Hin. simpl in Hin. destruct Hin as [<-|[]].
    vm_compute. split; discriminate. }
  split; q_compare.
Qed.

(** C9, witness: the pair OP-001 and M-001 for WO-101 scores 0.91. *)
Lemma calculate_allocation_score_in_unit_interval_witness :
  levels_in_range wo_101 op_001 /\
  0 <= hourly_cost op_001 + operating_cost_per_hour m_001 /\
  0 <= calculate_allocation_score wo_101 op_001 m_001 <= 1.
Proof.
  assert (Hl : levels_in_range wo_101 op_001).
  { intros skill Hin. simpl in Hin. destruct Hin as [<-|[]].
    vm_compute. split; discriminate. }
  assert (Hc : 0 <= hourly_cost op_001 + operating_cost_per_hour m_001)
    by q_compare.
  split; [exact Hl|]. split; [exact Hc|].
  exact (proj2 (proj2 (proj2 (proj2 (proj2
           (calculate_allocation_score_in_unit_interval wo_101 op_001 m_001
              Hl Hc)))))).
Defined.

(** C10, counterexample.  WO-101 was blocked by a shortage and keeps its
    references and its reservation of 50 units.  Its completion lowers the
    available quantity by 50, but the reserved quantity ends at 30, not at
    0: the operator it still names is released, and the bulk pass that
    follows reserves 30 units for WO-104. *)
Lemma completion_of_blocked_order_reserves_again :
  map status (work_orders sample_blocked) = [BLOCKED; PENDING] /\
  materials sample_blocked = [mkMaterial "MAT-001" 1000 50] /\
  exists s',
    handle_work_order_completion sample_clock "WO-101" sample_blocked =
      Returned tt s' /\
    map status (work_orders s') = [COMPLETED; IN_PROGRESS] /\
    materials s' = [mkMaterial "MAT-001" 950 30].
Proof.
  split; [reflexivity|]. split; [reflexivity|].
  eexists. split; [vm_compute; reflexivity|]. split; reflexivity.
Qed.

(** C10, witness: the completion of WO-101 while it is pending in the
    sample catalog. *)
Lemma handle_work_order_completion_any_status_witness :
  NoDup (map work_order_id (work_orders sample)) /\
  dict_get work_order_id "WO-101" (work_orders sample) = Some wo_101 /\
  completed_at (sample_clock (now_calls sample)) "WO-101"
    (final_state (handle_work_order_completion sample_clock "WO-101" sample)).
Proof.
  assert (Hnd : NoDup (map work_order_id (work_orders sample)))
    by apply sample_wf.
  split; [exact Hnd|]. split; [reflexivity|].
  exact (proj1 (proj2 (handle_work_order_completion_any_status sample_clock
                         "WO-101" sample wo_101 Hnd eq_refl))).
Defined.

(** * Scenarios for the handlers, the bulk pass and the indicators *)

Lemma sample_distinct : distinct_ids sample.
Proof.
  unfold distinct_ids. simpl.
  repeat split; repeat constructor; simpl; intuition discriminate.
Defined.

Lemma sample_running_work_orders :
  NoDup (map work_order_id (work_orders sample_running)).
Proof.
  vm_compute. repeat constructor; simpl; intuition discriminate.
Defined.

Lemma sample_running_machines :
  NoDup (map machine_id (machines sample_running)).
Proof.
  vm_compute. repeat constructor; simpl; intuition discriminate.
Defined.

Lemma sample_never_allocated : never_allocated sample.
Proof.
  split; [reflexivity|].
  intros w [<-|[<-|[]]]; reflexivity.
Defined.

(** X2, witness: the allocation of WO-101 in the sample catalog leaves the
    available quantity of MAT-001 at 1000. *)
Lemma available_changed_by_completion_and_delivery_only_witness :
  ~ consumes_or_delivers (run_allocate_resources "WO-101") /\
  same_available sample
    (run sample_clock (run_allocate_resources "WO-101") sample).
Proof.
  assert (H : ~ consumes_or_delivers (run_allocate_resources "WO-101"))
    by (simpl; tauto).
  split; [exact H|].
  exact (available_changed_by_completion_and_delivery_only sample_clock
           (run_allocate_resources "WO-101") sample H).
Defined.

(** X5, witness: the shortage of MAT-001 while WO-101 is in progress. *)
Lemma handle_material_shortage_blocks_users_witness :
  NoDup (map work_order_id (work_orders sample_running)) /\
  dict_get material_id "MAT-001" (materials sample_running) <> None /\
  handle_material_shortage "MAT-001" sample_running =
    Returned tt sample_blocked /\
  materials sample_blocked = materials sample_running /\
  now_calls sample_blocked = now_calls sample_running.
Proof.
  assert (Hm : dict_get material_id "MAT-001" (materials sample_running)
               <> None) by (vm_compute; discriminate).
  assert (Hr : handle_material_shortage "MAT-001" sample_running =
               Returned tt sample_blocked) by (vm_compute; reflexivity).
  split; [exact sample_running_work_orders|]. split; [exact Hm|].
  split; [exact Hr|].
  destruct (handle_material_shortage_blocks_users "MAT-001" sample_running
              sample_blocked sample_running_work_orders Hm Hr)
    as (H1 & _ & H3 & _).
  split; [exact H1|exact H3].
Defined.

(** X6, witness: the breakdown of M-001 while it runs WO-101. *)
Lemma handle_machine_breakdown_marks_machine_witness :
  NoDup (map machine_id (machines sample_running)) /\
  dict_get machine_id "M-001" (machines sample_running) =
    Some (set_m_assignment RUNNING (Some "WO-101") m_001) /\
  dict_get machine_id "M-001"
    (machines (final_state
                 (handle_machine_breakdown sample_clock "M-001"
                    sample_running))) =
    Some (set_m_status BREAKDOWN
            (set_m_assignment RUNNING (Some "WO-101") m_001)).
Proof.
  assert (Hg : dict_get machine_id "M-001" (machines sample_running) =
               Some (set_m_assignment RUNNING (Some "WO-101") m_001))
    by (vm_compute; reflexivity).
  split; [exact sample_running_machines|]. split; [exact Hg|].
  exact (handle_machine_breakdown_marks_machine sample_clock "M-001"
           sample_running _ sample_running_machines Hg).
Defined.

(** X7, witness: the delivery of 10 units of MAT-001 to the sample
    catalog. *)
Lemma handle_material_delivered_adds_quantity_witness :
  dict_get material_id "MAT-001" (materials sample) = Some mat_001 /\
  exists mat',
    dict_get material_id "MAT-001"
      (materials (final_state
                    (handle_material_delivered sample_clock "MAT-001" 10
                       sample))) = Some mat' /\
    quantity_available mat' =
      if String.eqb "MAT-001" "MAT-001" then quantity_available mat_001 + 10
      else quantity_available mat_001.
Proof.
  split; [reflexivity|].
  exact (handle_material_delivered_adds_quantity sample_clock "MAT-001" 10
           sample "MAT-001" mat_001 eq_refl).
Defined.

(** X9, witness: the bulk pass on the sample catalog. *)
Lemma process_allocations_summary_witness :
  distinct_ids sample /\
  exists res s',
    process_allocations sample_clock sample = Returned res s' /\
    summary_after_pass (allocated res) (blocked res)
      (get_resource_summary sample) (get_resource_summary s') /\
    work_orders_pending (get_resource_summary s') = 0%nat.
Proof.
  split; [exact sample_distinct|].
  exact (process_allocations_summary sample_clock sample sample_distinct).
Defined.

(** X11, witness: WO-101 right after its allocation in the sample
    catalog, the clock advancing by one microsecond per reading. *)
Lemma should_reallocate_after_allocation_witness :
  allocate_resources sample_clock "WO-101" sample =
    Returned true sample_running /\
  work_order_id wo_101 = "WO-101" /\
  (0 <= sample_clock (now_calls sample_running) -
        sample_clock (Nat.pred (now_calls sample_running))
     < stability_buffer_microseconds)%Z /\
  fst (should_reallocate sample_clock wo_101 sample_running) = false.
Proof.
  assert (Hr : allocate_resources sample_clock "WO-101" sample =
               Returned true sample_running) by (vm_compute; reflexivity).
  assert (Hc : (0 <= sample_clock (now_calls sample_running) -
                     sample_clock (Nat.pred (now_calls sample_running))
                  < stability_buffer_microseconds)%Z)
    by (vm_compute; split; [discriminate|reflexivity]).
  split; [exact Hr|]. split; [reflexivity|]. split; [exact Hc|].
  exact (should_reallocate_after_allocation sample_clock "WO-101" sample
           sample_running wo_101 Hr eq_refl Hc).
Defined.

(** X17, witness: the first bulk pass on the sample catalog. *)
Lemma first_allocations_count_as_reallocations_witness :
  distinct_ids sample /\ never_allocated sample /\
  exists res s',
    process_allocations sample_clock sample = Returned res s' /\
    reallocation_rate (calculate_allocation_conflicts s') ==
      (if Nat.eqb (allocated res) 0 then 0 else 100).
Proof.
  split; [exact sample_distinct|]. split; [exact sample_never_allocated|].
  destruct (first_allocations_count_as_reallocations sample_clock sample
              sample_distinct sample_never_allocated)
    as (res & s' & Hr & Hrate & _).
  exists res, s'. split; [exact Hr|exact Hrate].
Defined.

(** X20, witness: OP-001 reported available in the sample catalog. *)
Lemma handle_operator_available_leaves_no_pending_witness :
  NoDup (map work_order_id (work_orders sample)) /\
  dict_get operator_id "OP-001" (operators sample) <> None /\
  exists s',
    handle_operator_available sample_clock "OP-001" sample = Returned tt s' /\
    filter is_pending (work_orders s') = [].
Proof.
  assert (Hnd : NoDup (map work_order_id (work_orders sample)))
    by apply sample_distinct.
  assert (Ho : dict_get operator_id "OP-001" (operators sample) <> None)
    by (vm_compute; discriminate).
  split; [exact Hnd|]. split; [exact Ho|].
  destruct (handle_operator_available_leaves_no_pending sample_clock "OP-001"
              sample Hnd Ho) as (s' & Hr & Hp & _).
  exists s'. split; [exact Hr|exact Hp].
Defined.
